(** * SafeStreet backend: the realtime session registry and notification fan-out

    A shallow embedding of the Socket.IO part of [BACKEND/server.js]:
    the identity classifier [validateUserType], the module-level map
    [userSockets], the per-connection handlers installed by
    [io.on("connection")], the authentication timer, and the notification
    code of the HTTP endpoints that read [userSockets]; then the login and
    verification endpoints, the one-time codes of the signup and the
    report statistics.

    Conventions of the embedding.
    - A JavaScript string is a [string]; a value that may be [undefined]
      is an [option].  Truthiness ([if (x)], [!x]) is [truthy].
    - [userSockets] is a JavaScript [Map]: it iterates in insertion order,
      and the order is visible in the order of the emitted events, so it is
      an insertion-ordered association list ([JsMap]).
    - The sockets known to the server are a finite map from [socket.id] to
      the fields the code reads and writes on the socket object.
    - Everything the server sends is appended to [outbox].
    - Time is a millisecond clock; [setTimeout] stores the absolute expiry
      on the socket and [Tick] fires what is due.
    - The handlers of the event loop take the identity a client submits
      as a string or as absent, which also stands for the falsy values
      [null], [false] and [0].  A truthy value of another JavaScript type
      makes [validateUserType] throw; that is an input of the server
      process ([serve]), which it ends.
    - Strings are ASCII text: [toLowerCase] and [toUpperCase] are modelled
      on the letters A-Z and a-z, and what JavaScript does to other
      characters is outside the embedding.
    - The database, the file system, the classifier process and the mail
      transport are outside the embedding: a handler takes what they
      answered as an argument. *)

From stdpp Require Import base option list gmap strings pretty.
From Stdlib Require Import NArith Ascii String Lia.

Local Open Scope string_scope.
Local Open Scope N_scope.

(** ** JavaScript strings and truthiness *)

(** [s.startsWith(p)] *)
Definition startsWith (s p : string) : bool := String.prefix p s.

(** [s.includes(p)] *)
Definition includes (s p : string) : bool :=
  match String.index 0 p s with
  | Some _ => true
  | None => false
  end.

Definition in_range (lo hi c : ascii) : bool :=
  (N_of_ascii lo <=? N_of_ascii c) && (N_of_ascii c <=? N_of_ascii hi).

(** The character class [[0-9a-f]] under the [i] flag. *)
Definition hex_class (c : ascii) : bool :=
  in_range "0" "9" c || in_range "a" "f" c || in_range "A" "F" c.

(** [cls{n}$]: exactly [n] characters of the class, then the end of input. *)
Fixpoint repeat_class (cls : ascii -> bool) (n : nat) (s : string) : bool :=
  match n, s with
  | O, EmptyString => true
  | S n', String c s' => cls c && repeat_class cls n' s'
  | _, _ => false
  end.

(** [s.match(/^[0-9a-f]{24}$/i)], as the truth value of its result. *)
Definition match_objectid (s : string) : bool := repeat_class hex_class 24 s.

(** Truthiness of a string that may be [undefined]: [undefined] and the
    empty string are falsy. *)
Definition truthy (x : option string) : bool :=
  match x with
  | Some s => negb (String.eqb s EmptyString)
  | None => false
  end.

(** ** validateUserType (server.js 234-251) *)

Record validation := {
  valid : bool;
  isAdmin : option bool;
  userType : option string;
  message : string
}.

Definition validateUserType (userId : option string) : validation :=
  match userId with
  | None =>
      {| valid := false; isAdmin := None; userType := None;
         message := "No userId provided" |}
  | Some u =>
      if negb (truthy userId) then
        {| valid := false; isAdmin := None; userType := None;
           message := "No userId provided" |}
      else
        let isAdmin := startsWith u "admin_" in
        let isRegularUser := includes u "_" || match_objectid u in
        if negb isAdmin && negb isRegularUser then
          {| valid := false; isAdmin := None; userType := None;
             message := "Invalid userId format" |}
        else
          {| valid := true;
             isAdmin := Some isAdmin;
             userType := Some (if isAdmin then "admin" else "user");
             message := "Valid " ++ (if isAdmin then "admin" else "regular") ++ " user" |}
  end.

(** ** JavaScript [Map] with string keys *)

Module JsMap.
Section JsMap.
Context {V : Type}.

Definition t := list (string * V).

Definition empty : t := [].

(** [m.get(k)] *)
Fixpoint get (m : t) (k : string) : option V :=
  match m with
  | [] => None
  | (k', v) :: m' => if String.eqb k' k then Some v else get m' k
  end.

(** [m.set(k, v)]: an existing key keeps its place, a new key goes last. *)
Fixpoint set (m : t) (k : string) (v : V) : t :=
  match m with
  | [] => [(k, v)]
  | (k', v') :: m' =>
      if String.eqb k' k then (k', v) :: m' else (k', v') :: set m' k v
  end.

(** [m.delete(k)] *)
Fixpoint delete (m : t) (k : string) : t :=
  match m with
  | [] => []
  | (k', v') :: m' =>
      if String.eqb k' k then delete m' k else (k', v') :: delete m' k
  end.

(** [m.entries()], in iteration order. *)
Definition entries (m : t) : list (string * V) := m.

Definition keys (m : t) : list string := m.*1.

Definition values (m : t) : list V := m.*2.
End JsMap.
Arguments t : clear implicits.
End JsMap.

(** ** What the server sends *)

Inductive atom :=
| AUndefined
| ANull
| AString (s : string)
| ABool (b : bool)
| ANumber (n : N)
| ATime (t : N)
| AStrings (l : list string).

(** The value of a field of an emitted object literal, or of a response
    body: a primitive, or an object literal of primitives. *)
Inductive jsval :=
| VAtom (a : atom)
| VObject (fields : list (string * atom)).

Definition VString (s : string) : jsval := VAtom (AString s).

Definition atom_of_opt (x : option string) : atom :=
  match x with
  | Some s => AString s
  | None => AUndefined
  end.

Definition of_opt (x : option string) : jsval := VAtom (atom_of_opt x).

(** A variable that holds [null] until a string is assigned to it. *)
Definition of_nullable (x : option string) : jsval :=
  match x with
  | Some s => VString s
  | None => VAtom ANull
  end.

Definition time_atom (t : option N) : atom :=
  match t with
  | Some t => ATime t
  | None => AUndefined
  end.

Definition bool_atom (b : option bool) : atom :=
  match b with
  | Some b => ABool b
  | None => AUndefined
  end.

(** [socket.emit(ev, data)] and [io.to(sid).emit(ev, data)] address one
    socket; [io.emit(ev, data)] addresses every connected socket. *)
Inductive emission :=
| ToSocket (sid : string) (ev : string) (data : list (string * jsval))
| ToAll (ev : string) (data : list (string * jsval)).

(** ** Sockets and the server state *)

Record Socket := {
  sock_userId : option string;
  sock_isAdmin : option bool;
  sock_userType : option string;
  authTimeout : option N;
  connected : bool
}.

Record World := {
  userSockets : JsMap.t string;
  sockets : gmap string Socket;
  now : N;
  outbox : list emission
}.

Definition initial : World :=
  {| userSockets := JsMap.empty; sockets := ∅; now := 0; outbox := [] |}.

Definition with_userSockets (w : World) (m : JsMap.t string) : World :=
  {| userSockets := m; sockets := sockets w; now := now w; outbox := outbox w |}.

Definition with_socket (w : World) (sid : string) (s : Socket) : World :=
  {| userSockets := userSockets w; sockets := <[sid := s]> (sockets w);
     now := now w; outbox := outbox w |}.

Definition with_now (w : World) (t : N) : World :=
  {| userSockets := userSockets w; sockets := sockets w; now := t;
     outbox := outbox w |}.

Definition emit (w : World) (e : emission) : World :=
  {| userSockets := userSockets w; sockets := sockets w; now := now w;
     outbox := outbox w ++ [e] |}.

(** The delay passed to [setTimeout] (server.js 263). *)
Definition AUTH_TIMEOUT_MS : N := 30000.

(** ** io.on("connection") and the handlers it installs (server.js 254-351) *)

(** [socket.emit('auth_success', ...)] of the authenticate handler (283-287). *)
Definition auth_success (sid u : string) (role : option string) : emission :=
  ToSocket sid "auth_success"
    [("userId", VString u);
     ("userType", of_opt role);
     ("message", VString ("Authentication successful as " ++ default "undefined" role))].

(** [socket.emit('auth_success', ...)] of the reconnect handler (313-317). *)
Definition reauth_success (sid u : string) (role : option string) : emission :=
  ToSocket sid "auth_success"
    [("userId", VString u);
     ("userType", of_opt role);
     ("message", VString ("Re-authentication successful as " ++ default "undefined" role))].

(** [socket.emit('auth_error', ...)] (297). *)
Definition auth_error (sid : string) (msg : string) : emission :=
  ToSocket sid "auth_error" [("message", VString msg)].

(** A new connection: the socket object has none of the custom fields and
    the authentication timer is armed.  [socket.id] is unique, so a
    connection under a known id does not occur. *)
Definition on_connection (w : World) (sid : string) : World :=
  match sockets w !! sid with
  | Some _ => w
  | None =>
      with_socket w sid
        {| sock_userId := None; sock_isAdmin := None; sock_userType := None;
           authTimeout := Some (now w + AUTH_TIMEOUT_MS); connected := true |}
  end.

(** [socket.on("authenticate", (userId) => ...)] (266-302). *)
Definition on_authenticate (w : World) (sid : string) (s : Socket)
    (userId : option string) : World :=
  (* clearTimeout(authTimeout) *)
  let s := {| sock_userId := sock_userId s; sock_isAdmin := sock_isAdmin s;
              sock_userType := sock_userType s; authTimeout := None;
              connected := connected s |} in
  let validation := validateUserType userId in
  match userId with
  | Some u =>
      if valid validation then
        let w := with_userSockets w (JsMap.set (userSockets w) u sid) in
        let s := {| sock_userId := Some u; sock_isAdmin := isAdmin validation;
                    sock_userType := userType validation;
                    authTimeout := authTimeout s; connected := connected s |} in
        let w := with_socket w sid s in
        emit w (auth_success sid u (userType validation))
      else
        emit (with_socket w sid s) (auth_error sid (message validation))
  | None =>
      (* validateUserType(undefined).valid is false *)
      emit (with_socket w sid s) (auth_error sid (message validation))
  end.

(** [socket.on("reconnect", (attemptNumber) => ...)] (305-319). *)
Definition on_reconnect (w : World) (sid : string) (s : Socket) : World :=
  match sock_userId s with
  | Some u =>
      if truthy (sock_userId s) then
        let w := with_userSockets w (JsMap.set (userSockets w) u sid) in
        emit w (reauth_success sid u (sock_userType s))
      else w
  | None => w
  end.

(** [socket.on("disconnect", (reason) => ...)] (336-350). *)
Definition on_disconnect (w : World) (s : Socket) : World :=
  match sock_userId s with
  | Some u =>
      if truthy (sock_userId s) then
        with_userSockets w (JsMap.delete (userSockets w) u)
      else w
  | None => w
  end.

(** The connection closes, from either side: Socket.IO marks the socket
    disconnected and runs the "disconnect" handler once; closing a closed
    socket does nothing. *)
Definition close_socket (w : World) (sid : string) : World :=
  match sockets w !! sid with
  | Some s =>
      if connected s then
        let s' := {| sock_userId := sock_userId s; sock_isAdmin := sock_isAdmin s;
                     sock_userType := sock_userType s;
                     authTimeout := authTimeout s; connected := false |} in
        on_disconnect (with_socket w sid s') s'
      else w
  | None => w
  end.

(** The callback given to [setTimeout] (258-263); the timer is spent. *)
Definition authTimeout_fired (w : World) (sid : string) : World :=
  match sockets w !! sid with
  | Some s =>
      let s' := {| sock_userId := sock_userId s; sock_isAdmin := sock_isAdmin s;
                   sock_userType := sock_userType s;
                   authTimeout := None; connected := connected s |} in
      let w := with_socket w sid s' in
      if negb (truthy (sock_userId s')) then close_socket w sid else w
  | None => w
  end.

Definition timer_due (t : N) (s : Socket) : bool :=
  match authTimeout s with
  | Some d => d <=? t
  | None => false
  end.

(** The ids of the sockets whose timer has expired at time [t]. *)
Definition due_timers (w : World) (t : N) : list string :=
  List.map fst (List.filter (fun kv => timer_due t (snd kv)) (map_to_list (sockets w))).

(** [dt] milliseconds pass and every expired timer runs its callback. *)
Definition tick (w : World) (dt : N) : World :=
  let w := with_now w (now w + dt) in
  foldl authTimeout_fired w (due_timers w (now w)).

(** ** The event loop

    The events that change the registry or a socket: a new connection, the
    client events "authenticate", "reconnect" and "disconnect", and the
    passing of time.  [Authenticate sid None] is an [authenticate] without
    an identity or with a falsy one.  The ping handler and the payloads
    that are not strings are inputs of the process ([serve], below). *)

Inductive event :=
| Connection (sid : string)
| Authenticate (sid : string) (userId : option string)
| Reconnect (sid : string)
| Disconnect (sid : string)
| Tick (dt : N).

(** A client event reaches its handler only on a connected socket. *)
Definition on_socket (w : World) (sid : string) (h : Socket -> World) : World :=
  match sockets w !! sid with
  | Some s => if connected s then h s else w
  | None => w
  end.

Definition step (w : World) (e : event) : World :=
  match e with
  | Connection sid => on_connection w sid
  | Authenticate sid userId =>
      on_socket w sid (fun s => on_authenticate w sid s userId)
  | Reconnect sid => on_socket w sid (fun s => on_reconnect w sid s)
  | Disconnect sid => close_socket w sid
  | Tick dt => tick w dt
  end.

Definition run (w : World) (tr : list event) : World := foldl step w tr.

Definition lookup_user (w : World) (i : string) : option string :=
  JsMap.get (userSockets w) i.

(** ** The server process

    The remaining handlers of [io.on("connection")], and the payloads of
    [authenticate] that are not strings. *)

(** [socket.on("ping", (data) => ...)] (322-329); [time] is the instant
    of [new Date()], which the client receives as an ISO string. *)
Definition on_ping (w : World) (sid : string) (data : jsval) : World :=
  emit w (ToSocket sid "pong"
            [("time", VAtom (ATime (now w)));
             ("received", data);
             ("message", VString "Server received your ping!")]).

(** What the process is given to run: an event of the loop above, a ping,
    or an [authenticate] whose payload is truthy and not a string (a
    number, [true], an object, an array).  The "error" handler (332-334)
    only logs. *)
Inductive input :=
| Handled (e : event)
| Ping (sid : string) (data : jsval)
| AuthenticateValue (sid : string).

(** The process after one input; [None] when it has ended.  On a truthy
    payload that is not a string, [validateUserType] evaluates
    [userId.startsWith] (238), which is not a function: the handler throws
    after [clearTimeout], nothing catches the exception and the process
    ends. *)
Definition serve (w : World) (i : input) : option World :=
  match i with
  | Handled e => Some (step w e)
  | Ping sid data => Some (on_socket w sid (fun _ => on_ping w sid data))
  | AuthenticateValue sid =>
      match sockets w !! sid with
      | Some s => if connected s then None else Some w
      | None => Some w
      end
  end.


(** ** Reading the registry from the HTTP handlers *)

(** [userSockets.get(k)] where [k] may be [undefined]: the map has string
    keys only. *)
Definition get_socket_id (w : World) (k : option string) : option string :=
  match k with
  | Some k => JsMap.get (userSockets w) k
  | None => None
  end.

(** [for (const [uid, sid] of userSockets.entries()) body] *)
Definition for_entries (w : World) (body : World -> string -> string -> World) : World :=
  foldl (fun w kv => body w (fst kv) (snd kv)) w (JsMap.entries (userSockets w)).

(** The loop the handlers use to reach the administrators (464-482,
    801-812, 2282-2311):
    [for (const [connectedUserId, socketId] of userSockets.entries())
       if (connectedUserId.startsWith('admin_')) { ...emits... }] *)
Definition emit_to_admins (w : World) (msgs : string -> string -> list emission) : World :=
  for_entries w (fun w connectedUserId socketId =>
    if startsWith connectedUserId "admin_"
    then foldl emit w (msgs connectedUserId socketId)
    else w).

(** The registry-directed sends of the spec's router, as the handlers
    write them inline. *)
Definition send_all_admins (w : World) (ev : string) (data : list (string * jsval)) : World :=
  emit_to_admins w (fun _ socketId => [ToSocket socketId ev data]).

(** [const sid = userSockets.get(userId); if (sid) io.to(sid).emit(ev, data)];
    the boolean tells which branch ran. *)
Definition send_to_user (w : World) (userId : option string) (ev : string)
    (data : list (string * jsval)) : World * bool :=
  match get_socket_id w userId with
  | Some userSocketId =>
      if truthy (Some userSocketId)
      then (emit w (ToSocket userSocketId ev data), true)
      else (w, false)
  | None => (w, false)
  end.

(** ** HTTP responses *)

Record response := {
  status : N;
  body : list (string * jsval)
}.

(** The double-quote character inside a template string. *)
Definition quote : string := String (ascii_of_N 34) EmptyString.

Definition render (x : option string) : string := default "undefined" x.

(** [x || d] on strings. *)
Definition or_else (x : option string) (d : string) : string :=
  match x with
  | Some s => if truthy x then s else d
  | None => d
  end.

Definition lower_ascii (c : ascii) : ascii :=
  if in_range "A" "Z" c then ascii_of_N (N_of_ascii c + 32) else c.

(** [s.toLowerCase()] on ASCII text; other characters are left as they
    are, which is not what JavaScript does to all of them. *)
Fixpoint toLowerCase (s : string) : string :=
  match s with
  | EmptyString => EmptyString
  | String c s' => String (lower_ascii c) (toLowerCase s')
  end.

(** ** POST /predict, the handler of the classifier's exit (366-506)

    The file system, the classifier process and the database are outside
    the embedding: what they answered is the [predict_env]. *)

Record predict_request := {
  p_file : option string;
  p_latitude : option string;
  p_longitude : option string;
  p_address : option string;
  p_userId : option string
}.

Record predict_env := {
  p_tempSaved : bool;
  p_exitCode : Z;
  p_result : string;
  p_confidence : string;
  p_imageSaved : bool;
  p_savedImagePath : string;
  p_entrySaved : bool;
  p_entryTimestamp : N
}.

(** The two events sent to each administrator (466-480). *)
Definition predict_admin_msgs (req : predict_request) (env : predict_env)
    : string -> string -> list emission :=
  fun _ socketId =>
    [ToSocket socketId "new-road-entry"
       [("imagePath", VString (p_savedImagePath env));
        ("latitude", of_opt (p_latitude req));
        ("longitude", of_opt (p_longitude req));
        ("address", of_opt (p_address req));
        ("timestamp", VAtom (ATime (p_entryTimestamp env)));
        ("userId", of_opt (p_userId req))];
     ToSocket socketId "admin-notification"
       [("message", VString "New image uploaded. Please review.");
        ("imagePath", VString (p_savedImagePath env));
        ("timestamp", VAtom (ATime (p_entryTimestamp env)));
        ("userId", of_opt (p_userId req))]].

(** 485-500 *)
Definition predict_finish (w : World) (req : predict_request) (env : predict_env)
    (savedImagePath : option string) : World * option response :=
  let w := fst (send_to_user w (p_userId req) "prediction-complete"
                  [("message", VString ("Prediction completed: " ++ p_result env));
                   ("imagePath", VString (or_else savedImagePath "N/A"));
                   ("timestamp", VAtom (ATime (now w)));
                   ("userId", of_opt (p_userId req))]) in
  (w, Some {| status := 200;
              body := [("prediction", VString (p_result env));
                       ("confidence", VString (p_confidence env));
                       ("saved", VAtom (ABool (bool_decide (savedImagePath <> None))))] |}).

Definition predict (w : World) (req : predict_request) (env : predict_env)
    : World * option response :=
  match p_file req with
  | None =>
      (w, Some {| status := 400; body := [("error", VString "No image file received!")] |})
  | Some _ =>
      if negb (p_tempSaved env) then
        (w, Some {| status := 500; body := [("error", VString "Failed to save temporary image")] |})
      else if negb (p_exitCode env =? 0)%Z then
        (w, Some {| status := 500; body := [("error", VString "Prediction process failed")] |})
      else if String.eqb (toLowerCase (p_result env)) "road" then
        if negb (p_imageSaved env) then
          (w, Some {| status := 500; body := [("error", VString "Failed to save image")] |})
        else if negb (truthy (p_userId req)) then
          (w, Some {| status := 400;
                      body := [("error", VString "User ID is required for image uploads")] |})
        else if negb (p_entrySaved env) then
          (* entry.save() rejects inside the exit callback: nothing is sent *)
          (w, None)
        else
          let w := emit_to_admins w (predict_admin_msgs req env) in
          predict_finish w req env (Some (p_savedImagePath env))
      else
        predict_finish w req env None
  end.

(** ** POST /save-canvas (682-832) *)

Record save_canvas_request := {
  sc_imagePath : option string;
  sc_hasAnalysisResult : bool;
  sc_severityLevel : option string;
  sc_status : option string;
  sc_userId : option string
}.

(** [sc_boundingBoxImagePath] is the variable of 712: [null] unless the
    request carries a bounding-box image.  [sc_saved] tells whether
    [newResult.save()] succeeded; when it did not, [sc_errorMessage] and
    [sc_errorStack] are the fields of the error it threw. *)
Record save_canvas_env := {
  sc_boundingBoxImagePath : option string;
  sc_detectionCount : N;
  sc_saved : bool;
  sc_errorMessage : string;
  sc_errorStack : option string;
  sc_production : bool;
  sc_id : string;
  sc_timestamp : N
}.

(** 763-773 *)
Definition validSeverityLevel (severityLevel : option string) : string :=
  let v := or_else severityLevel "unknown" in
  let v := if String.eqb v "medium" then "moderate" else v in
  if bool_decide (v ∈ ["low"; "moderate"; "high"; "severe"; "unknown"])
  then v else "unknown".

(** The event sent to each administrator (803-810). *)
Definition save_canvas_data (req : save_canvas_request) (env : save_canvas_env)
    : list (string * jsval) :=
  [("message", VString "Image analysis completed and saved");
   ("imagePath", of_opt (sc_imagePath req));
   ("boundingBoxImagePath", of_nullable (sc_boundingBoxImagePath env));
   ("severity", VString (validSeverityLevel (sc_severityLevel req)));
   ("timestamp", VAtom (ATime (sc_timestamp env)));
   ("id", VString (sc_id env))].

Definition save_canvas (w : World) (req : save_canvas_request) (env : save_canvas_env)
    : World * response :=
  if negb (truthy (sc_imagePath req)) || negb (sc_hasAnalysisResult req) then
    (w, {| status := 400;
           body := [("message", VString "Missing imagePath or analysis result.")] |})
  else if negb (truthy (sc_userId req)) then
    (w, {| status := 400; body := [("message", VString "User ID is required.")] |})
  else if negb (sc_saved env) then
    (w, {| status := 500;
           body := [("message", VString "Failed to save to database.");
                    ("error", VString (sc_errorMessage env));
                    ("stack",
                     if sc_production env then VAtom ANull
                     else of_opt (sc_errorStack env))] |})
  else
    let w := send_all_admins w "prediction-complete" (save_canvas_data req env) in
    (w, {| status := 200;
           body := [("message", VString "Analysis saved successfully.");
                    ("id", VString (sc_id env));
                    ("boundingBoxImagePath", of_nullable (sc_boundingBoxImagePath env));
                    ("detectionCount", VAtom (ANumber (sc_detectionCount env)));
                    ("severity", VString (validSeverityLevel (sc_severityLevel req)));
                    ("status", of_opt (sc_status req));
                    ("timestamp", VAtom (ATime (sc_timestamp env)))] |}).

(** ** What the database answered *)

Inductive db_result (A : Type) :=
| DbThrows (msg : string)
| DbReturns (a : A).
Arguments DbThrows {A} msg.
Arguments DbReturns {A} a.

(** A document of the [Feedback] model as [findById] returns it: the
    paths of [feedbackSchema] (134-145), the id and the version key. *)
Record feedback_doc := {
  fb_id : string;
  fb_name : option string;
  fb_email : option string;
  fb_subject : option string;
  fb_message : option string;
  fb_completed : option bool;
  fb_dateSubmitted : option N;
  fb_userId : option string;
  fb_replied : option bool;
  fb_replyText : option string;
  fb_replyDate : option N;
  fb_version : N
}.

(** [res.json(feedback)] after [feedback.completed = completed]: the whole
    document.  The order of the fields of a JSON object carries no
    meaning; an [undefined] field is left out by the serialisation. *)
Definition feedback_json (f : feedback_doc) (completed : bool) : list (string * jsval) :=
  [("_id", VString (fb_id f));
   ("name", of_opt (fb_name f));
   ("email", of_opt (fb_email f));
   ("subject", of_opt (fb_subject f));
   ("message", of_opt (fb_message f));
   ("completed", VAtom (ABool completed));
   ("dateSubmitted", VAtom (time_atom (fb_dateSubmitted f)));
   ("userId", of_opt (fb_userId f));
   ("replied", VAtom (bool_atom (fb_replied f)));
   ("replyText", of_opt (fb_replyText f));
   ("replyDate", VAtom (time_atom (fb_replyDate f)));
   ("__v", VAtom (ANumber (fb_version f)))].

(** ** PATCH /api/feedbacks/:id (859-898)

    [completed] is the boolean of the request body. *)

Record feedback_patch_env := {
  fp_found : db_result (option feedback_doc);
  fp_saved : bool
}.

Definition feedback_patch (w : World) (completed : bool) (env : feedback_patch_env)
    : World * response :=
  let failed := {| status := 500; body := [("error", VString "Error updating feedback")] |} in
  match fp_found env with
  | DbThrows _ => (w, failed)
  | DbReturns None =>
      (w, {| status := 404; body := [("error", VString "Feedback not found")] |})
  | DbReturns (Some feedback) =>
      if negb (fp_saved env) then (w, failed)
      else
        let w :=
          if truthy (fb_userId feedback) then
            fst (send_to_user w (fb_userId feedback) "feedback_status"
              [("type", VString "feedback_status");
               ("title", VString "Feedback Status Updated");
               ("message",
                VString ("Your feedback " ++ quote ++ render (fb_subject feedback) ++
                         quote ++ " has been marked as " ++
                         (if completed then "completed" else "pending") ++ "."));
               ("details",
                VObject [("feedbackId", AString (fb_id feedback));
                         ("status", AString (if completed then "completed" else "pending"));
                         ("subject", atom_of_opt (fb_subject feedback))])])
          else w in
        (w, {| status := 200; body := feedback_json feedback completed |})
  end.

(** ** POST /api/feedbacks/:id/reply (919-985) *)

Record feedback_reply_request := {
  fr_replyText : string;
  fr_userId : option string
}.

(** [fr_replyDate] is the [new Date()] of 953, taken before the save. *)
Record feedback_reply_env := {
  fr_found : db_result (option feedback_doc);
  fr_mailed : db_result unit;
  fr_replyDate : N;
  fr_saved : db_result unit
}.

Definition feedback_reply (w : World) (req : feedback_reply_request)
    (env : feedback_reply_env) : World * response :=
  let failed msg :=
    {| status := 500; body := [("error", VString ("Error sending reply: " ++ msg))] |} in
  match fr_found env with
  | DbThrows msg => (w, failed msg)
  | DbReturns None =>
      (w, {| status := 404; body := [("error", VString "Feedback not found")] |})
  | DbReturns (Some feedback) =>
      match fr_mailed env with
      | DbThrows msg => (w, failed msg)
      | DbReturns _ =>
          match fr_saved env with
          | DbThrows msg => (w, failed msg)
          | DbReturns _ =>
              let w :=
                if truthy (fr_userId req) && truthy (fb_userId feedback) then
                  fst (send_to_user w (fb_userId feedback) "feedback_reply"
                    [("type", VString "feedback_reply");
                     ("title", VString "New Reply to Your Feedback");
                     ("message",
                      VString ("You have received a reply to your feedback " ++ quote ++
                               render (fb_subject feedback) ++ quote));
                     ("details",
                      VObject [("feedbackId", AString (fb_id feedback));
                               ("subject", atom_of_opt (fb_subject feedback));
                               ("replyText", AString (fr_replyText req));
                               ("replyDate", ATime (fr_replyDate env))])])
                else w in
              (w, {| status := 200; body := [("message", VString "Reply sent successfully")] |})
          end
      end
  end.

(** ** POST /api/user-notification (988-1026) *)

Record user_notification_request := {
  un_userId : option string;
  un_title : option string;
  un_message : option string;
  un_type : option string;
  un_details : jsval
}.

(** The answer of [loginCollection.findOne], consulted only for an
    identity shaped like a database id. *)
Definition user_notification (w : World) (req : user_notification_request)
    (findOne : db_result bool) : World * response :=
  match un_userId req with
  | None => (w, {| status := 400; body := [("error", VString "User ID is required")] |})
  | Some userId =>
      if negb (truthy (un_userId req)) then
        (w, {| status := 400; body := [("error", VString "User ID is required")] |})
      else
        let dispatch :=
          let ty := or_else (un_type req) "notification" in
          match send_to_user w (Some userId) ty
                  [("type", VString ty);
                   ("title", of_opt (un_title req));
                   ("message", of_opt (un_message req));
                   ("details", un_details req);
                   ("timestamp", VAtom (ATime (now w)))] with
          | (w', true) =>
              (w', {| status := 200;
                      body := [("message", VString "Notification sent successfully")] |})
          | (w', false) =>
              (w', {| status := 200;
                      body := [("message", VString "User not connected, notification queued")] |})
          end in
        if negb (startsWith userId "admin_") && match_objectid userId then
          match findOne with
          | DbThrows msg =>
              (w, {| status := 500;
                     body := [("error", VString ("Error sending notification: " ++ msg))] |})
          | DbReturns false =>
              (w, {| status := 404; body := [("error", VString "User not found")] |})
          | DbReturns true => dispatch
          end
        else dispatch
  end.

(** ** POST /api/review-image-v2 (2145-2321) *)

(** The [damageType] field of a road entry: the schema type is [Mixed]. *)
Inductive damage_type :=
| DamageAbsent
| DamageString (s : string)
| DamageArray (types : list string).

(** A document of the [RoadEntry] model as [findById] returns it: the
    paths of [roadEntrySchema] (149-167), the id and the version key. *)
Record road_entry := {
  re_id : string;
  re_imagePath : option string;
  re_latitude : option string;
  re_longitude : option string;
  re_address : option string;
  re_timestamp : option N;
  re_reviewed : option bool;
  re_reviewStatus : option string;
  re_reviewNotes : option string;
  re_severity : option string;
  re_damageType : damage_type;
  re_recommendedAction : option string;
  re_reviewDate : option N;
  re_userId : option string;
  re_reviewerId : option string;
  re_version : N
}.

(** The entry as [res.json] serialises it. *)
Definition road_entry_json (e : road_entry) : list (string * atom) :=
  [("_id", AString (re_id e));
   ("imagePath", atom_of_opt (re_imagePath e));
   ("latitude", atom_of_opt (re_latitude e));
   ("longitude", atom_of_opt (re_longitude e));
   ("address", atom_of_opt (re_address e));
   ("timestamp", time_atom (re_timestamp e));
   ("reviewed", bool_atom (re_reviewed e));
   ("reviewStatus", atom_of_opt (re_reviewStatus e));
   ("reviewNotes", atom_of_opt (re_reviewNotes e));
   ("severity", atom_of_opt (re_severity e));
   ("damageType",
    match re_damageType e with
    | DamageAbsent => AUndefined
    | DamageString s => AString s
    | DamageArray types => AStrings types
    end);
   ("recommendedAction", atom_of_opt (re_recommendedAction e));
   ("reviewDate", time_atom (re_reviewDate e));
   ("userId", atom_of_opt (re_userId e));
   ("reviewerId", atom_of_opt (re_reviewerId e));
   ("__v", ANumber (re_version e))].

Record review_request := {
  rv_imageId : option string;
  rv_reviewStatus : option string;
  rv_reviewerId : option string
}.

Record review_env := {
  rv_found : db_result (option road_entry);
  (** [result.modifiedCount] of [updateOne] *)
  rv_updated : db_result N;
  rv_refetched : db_result (option road_entry)
}.

(** 2229-2241 *)
Definition review_notificationData (req : review_request) (updatedEntry : road_entry)
    : list (string * jsval) :=
  [("imageId", VString (re_id updatedEntry));
   ("imagePath", VString (or_else (re_imagePath updatedEntry) EmptyString));
   ("address", VString (or_else (re_address updatedEntry) "Unknown location"));
   ("reviewStatus", of_opt (re_reviewStatus updatedEntry));
   ("severity", of_opt (re_severity updatedEntry));
   ("reviewNotes", of_opt (re_reviewNotes updatedEntry));
   ("recommendedAction", of_opt (re_recommendedAction updatedEntry));
   ("reviewDate", VAtom (time_atom (re_reviewDate updatedEntry)));
   ("userId", of_opt (re_userId updatedEntry));
   ("reviewerId", of_opt (rv_reviewerId req));
   ("message",
    VString ("Your road image has been reviewed. Status: " ++
             render (re_reviewStatus updatedEntry)))].

(** The direct event and its backup broadcast for the submitter (2249-2274). *)
Definition review_user_msgs (req : review_request) (updatedEntry : road_entry)
    (targetSocketId : string) : list emission :=
  let userNotificationData :=
    (review_notificationData req updatedEntry ++
     [("forUser", VAtom (ABool true)); ("forAdmin", VAtom (ABool false))])%list in
  [ToSocket targetSocketId "image-reviewed" userNotificationData;
   ToAll "image-reviewed-broadcast"
     (userNotificationData ++ [("targetUserId", of_opt (re_userId updatedEntry))])%list].

(** The direct event and its backup broadcast for one administrator
    (2282-2311). *)
Definition review_admin_msgs (req : review_request) (updatedEntry : road_entry)
    : string -> string -> list emission :=
  fun connectedUserId socketId =>
    let adminNotificationData :=
      (review_notificationData req updatedEntry ++
       [("forUser", VAtom (ABool false)); ("forAdmin", VAtom (ABool true));
        ("adminId", VString connectedUserId)])%list in
    [ToSocket socketId "image-reviewed" adminNotificationData;
     ToAll "admin-notification-broadcast"
       (adminNotificationData ++ [("targetAdminId", VString connectedUserId)])%list].

Definition review_image (w : World) (req : review_request) (env : review_env)
    : World * response :=
  let failed :=
    {| status := 500; body := [("error", VString "Server error during image review")] |} in
  if negb (truthy (rv_imageId req)) || negb (truthy (rv_reviewStatus req)) then
    (w, {| status := 400;
           body := [("error", VString "Image ID and review status are required")] |})
  else if negb (truthy (rv_reviewerId req)) then
    (w, {| status := 400; body := [("error", VString "Reviewer ID is required")] |})
  else
    match rv_found env with
    | DbThrows _ => (w, failed)
    | DbReturns None =>
        (w, {| status := 404; body := [("error", VString "Image entry not found")] |})
    | DbReturns (Some imageEntry) =>
        match rv_updated env with
        | DbThrows msg =>
            (w, {| status := 500;
                   body := [("error", VString ("Error saving review: " ++ msg))] |})
        | DbReturns modifiedCount =>
            if modifiedCount =? 0 then
              (w, {| status := 500;
                     body := [("error", VString "Failed to update the entry")] |})
            else
              match rv_refetched env with
              | DbThrows _ => (w, failed)
              | DbReturns None =>
                  (w, {| status := 404;
                         body := [("error", VString "Updated image entry not found")] |})
              | DbReturns (Some updatedEntry) =>
                  let targetUserId := re_userId updatedEntry in
                  let targetSocketId := get_socket_id w targetUserId in
                  let w :=
                    match targetSocketId with
                    | Some sid =>
                        if truthy targetSocketId
                        then foldl emit w (review_user_msgs req updatedEntry sid)
                        else w
                    | None => w
                    end in
                  let w := emit_to_admins w (review_admin_msgs req updatedEntry) in
                  (w, {| status := 200;
                         body := [("message",
                                   VString "Image review saved and notification sent");
                                  ("updatedEntry", VObject (road_entry_json imageEntry))] |})
              end
        end
    end.

(** ** More JavaScript string functions *)

(** [c.toUpperCase()] on an ASCII character; other characters are left
    as they are, which is not what JavaScript does to all of them. *)
Definition upper_ascii (c : ascii) : ascii :=
  if in_range "a" "z" c then ascii_of_N (N_of_ascii c - 32) else c.

(** [s.charAt(0).toUpperCase() + s.slice(1)] *)
Definition capitalize (s : string) : string :=
  match s with
  | EmptyString => EmptyString
  | String c s' => String (upper_ascii c) s'
  end.

(** [s.split(sep)] for a one-character separator; the result is never
    empty. *)
Fixpoint split_on (sep : ascii) (s : string) : list string :=
  match s with
  | EmptyString => [EmptyString]
  | String c s' =>
      let rest := split_on sep s' in
      if Ascii.eqb c sep then EmptyString :: rest
      else match rest with
           | piece :: pieces => String c piece :: pieces
           | [] => [String c EmptyString]
           end
  end.

(** ** The login collection *)

Record user_doc := {
  u_id : string;
  u_name : option string;
  u_email : option string;
  (** the stored [isAdmin] field, when it is a boolean *)
  u_isAdmin : option bool
}.

(** [user.isAdmin === true] *)
Definition is_admin_user (user : user_doc) : bool :=
  match u_isAdmin user with
  | Some true => true
  | _ => false
  end.

(** ** GET /api/user/:id (1601-1635) *)

(** [p.charAt(0).toUpperCase() + p.slice(1).toLowerCase()], on ASCII
    text. *)
Definition title_case (p : string) : string :=
  match p with
  | EmptyString => EmptyString
  | String c rest => String (upper_ascii c) (toLowerCase rest)
  end.

(** [findOne] is consulted only for an identity shaped like a database
    id. *)
Definition user_info (userId : string) (findOne : db_result (option user_doc))
    : response :=
  let fallback :=
    if startsWith userId "admin_" then
      {| status := 200; body := [("name", VString "Administrator")] |}
    else
      match split_on "_" userId with
      | _ :: second :: _ =>
          {| status := 200; body := [("name", VString (title_case second))] |}
      | _ => {| status := 200; body := [("name", VString "Unknown User")] |}
      end in
  if match_objectid userId then
    match findOne with
    | DbThrows _ =>
        {| status := 500;
           body := [("error", VString "Server error. Could not fetch user data.")] |}
    | DbReturns (Some user) =>
        {| status := 200;
           body := [("name", VString (or_else (u_name user) "User"));
                    ("email", of_opt (u_email user))] |}
    | DbReturns None => fallback
    end
  else fallback.

(** ** POST /api/verify-auth (1452-1543) *)

Definition verify_auth (userId : option string)
    (findOne : db_result (option user_doc)) : response :=
  match userId with
  | None =>
      {| status := 401;
         body := [("authenticated", VAtom (ABool false));
                  ("message", VString "No user ID provided")] |}
  | Some uid =>
      if negb (truthy userId) then
        {| status := 401;
           body := [("authenticated", VAtom (ABool false));
                    ("message", VString "No user ID provided")] |}
      else if startsWith uid "admin_" then
        {| status := 200;
           body := [("authenticated", VAtom (ABool true));
                    ("userType", VString "admin");
                    ("isAdmin", VAtom (ABool true));
                    ("name", VString "Administrator");
                    ("message", VString "Admin authentication verified")] |}
      else
        let invalid :=
          {| status := 401;
             body := [("authenticated", VAtom (ABool false));
                      ("message", VString "Invalid user ID")] |} in
        if match_objectid uid then
          match findOne with
          | DbThrows _ =>
              if includes uid "admin" then
                {| status := 200;
                   body := [("authenticated", VAtom (ABool true));
                            ("userType", VString "admin");
                            ("isAdmin", VAtom (ABool true));
                            ("name", VString "Administrator");
                            ("message",
                             VString "Admin authentication verified (fallback)")] |}
              else
                {| status := 500;
                   body := [("authenticated", VAtom (ABool false));
                            ("message", VString "Error verifying user authentication")] |}
          | DbReturns (Some user) =>
              let isAdmin := is_admin_user user in
              let userType := if isAdmin then "admin" else "user" in
              {| status := 200;
                 body := [("authenticated", VAtom (ABool true));
                          ("userType", VString userType);
                          ("isAdmin", VAtom (ABool isAdmin));
                          ("message",
                           VString (capitalize userType ++ " authentication verified"));
                          ("name",
                           VString
                             (or_else (u_name user)
                                (match u_email user with
                                 | Some email =>
                                     if truthy (u_email user)
                                     then hd EmptyString (split_on "@" email)
                                     else "User"
                                 | None => "User"
                                 end)))] |}
          | DbReturns None => invalid
          end
        else invalid
  end.

(** ** POST /api/login (1370-1449) *)

(** [name: user.name || email.split('@')[0]]; [None] when the expression
    throws because the request has no email. *)
Definition login_name (user : user_doc) (email : option string) : option string :=
  if truthy (u_name user) then u_name user
  else match email with
       | Some e => Some (hd EmptyString (split_on "@" e))
       | None => None
       end.

(** [t] is [Date.now()], [findOne] the answer of the login collection for
    the email and [compare] the one of [bcrypt.compare]. *)
Definition login (email password : option string) (t : N)
    (findOne : db_result (option user_doc)) (compare : db_result bool) : response :=
  let failed := {| status := 500; body := [("error", VString "Server error during login")] |} in
  if bool_decide (email = Some "admin123@gmail.com") &&
     bool_decide (password = Some "admin1234567890") then
    let adminId := "admin_" ++ pretty t in
    {| status := 200;
       body := [("message", VString "Admin login successful!");
                ("userId", VString adminId);
                ("name", VString "Administrator");
                ("userType", VString "admin");
                ("isAdmin", VAtom (ABool true))] |}
  else
    match findOne with
    | DbThrows _ => failed
    | DbReturns None =>
        {| status := 401; body := [("error", VString "Invalid credentials")] |}
    | DbReturns (Some user) =>
        match compare with
        | DbThrows _ =>
            {| status := 401; body := [("error", VString "Error verifying credentials")] |}
        | DbReturns false =>
            {| status := 401; body := [("error", VString "Invalid credentials")] |}
        | DbReturns true =>
            let isAdmin := is_admin_user user in
            let userType := if isAdmin then "admin" else "user" in
            let userId := if isAdmin then "admin_" ++ u_id user else u_id user in
            match login_name user email with
            | None => failed
            | Some name =>
                {| status := 200;
                   body := [("message", VString "Login successful!");
                            ("userId", VString userId);
                            ("name", VString name);
                            ("userType", VString userType);
                            ("isAdmin", VAtom (ABool isAdmin))] |}
            end
        end
    end.

(** The value of a field of a response body. *)
Definition body_field (r : response) (k : string) : option jsval :=
  JsMap.get (body r) k.

(** ** The one-time codes of the signup (1029-1270, 1321-1367)

    [otpStore] is a [Map] from the email to the pending code.  The code
    itself comes from [generateOTP], which draws it with [Math.random]:
    it is an argument of the handlers, as are [Date.now()] and the
    answers of the database, the mail transport and [bcrypt.hash]. *)

Record otp_entry := {
  oe_otp : string;
  oe_name : option string;
  oe_password : option string;
  oe_expires : N
}.

(** [10 * 60 * 1000] *)
Definition OTP_LIFETIME_MS : N := 10 * 60 * 1000.

(** POST /api/generate-otp (1051-1195).  [existing] tells whether the
    login collection has the email, [mailed] whether [sendMail] succeeded,
    [production] whether [NODE_ENV] is production. *)
Definition generate_otp (store : JsMap.t otp_entry) (t : N)
    (email name password : option string) (otp : string)
    (existing : db_result bool) (mailed production : bool)
    : JsMap.t otp_entry * response :=
  match email with
  | None => (store, {| status := 400; body := [("error", VString "Email is required")] |})
  | Some e =>
      if negb (truthy email) then
        (store, {| status := 400; body := [("error", VString "Email is required")] |})
      else
        match existing with
        | DbThrows _ =>
            (store, {| status := 500;
                       body := [("error", VString "Server error during OTP generation")] |})
        | DbReturns true =>
            (store, {| status := 400; body := [("error", VString "User already exists!")] |})
        | DbReturns false =>
            let store := JsMap.set store e
              {| oe_otp := otp; oe_name := name; oe_password := password;
                 oe_expires := t + OTP_LIFETIME_MS |} in
            if mailed then
              (store, {| status := 200;
                         body := ([("message", VString "OTP sent to your email");
                                   ("emailSent", VAtom (ABool true))] ++
                                  (if production then [] else [("otp", VString otp)]))%list |})
            else
              (store, {| status := 200;
                         body := [("message",
                                   VString "Failed to send OTP email, but OTP generated successfully");
                                  ("emailSent", VAtom (ABool false));
                                  ("otp", VString otp)] |})
        end
  end.

(** POST /api/signup-with-otp (1321-1367). *)
Definition signup_with_otp (store : JsMap.t otp_entry) (t : N)
    (name email password : option string) (otp : string)
    (existing : db_result bool) : JsMap.t otp_entry * response :=
  match email with
  | Some e =>
      if negb (truthy name) || negb (truthy email) || negb (truthy password) then
        (store, {| status := 400; body := [("error", VString "All fields are required")] |})
      else
        match existing with
        | DbThrows _ =>
            (store, {| status := 500;
                       body := [("error", VString "Server error during OTP generation")] |})
        | DbReturns true =>
            (store, {| status := 400; body := [("error", VString "User already exists!")] |})
        | DbReturns false =>
            let store := JsMap.set store e
              {| oe_otp := otp; oe_name := name; oe_password := password;
                 oe_expires := t + OTP_LIFETIME_MS |} in
            (store, {| status := 200;
                       body := [("message", VString "OTP sent to your email");
                                ("otp", VString otp)] |})
        end
  | None =>
      (store, {| status := 400; body := [("error", VString "All fields are required")] |})
  end.

(** POST /api/verify-otp (1198-1270), for a request that no other
    request interleaves with.  [hashed] is the answer of [bcrypt.hash] and
    [inserted] the id given by [insertOne]. *)
Definition verify_otp (store : JsMap.t otp_entry) (t : N)
    (email otp password : option string)
    (hashed : db_result string) (inserted : db_result string)
    : JsMap.t otp_entry * response :=
  let failed :=
    {| status := 500; body := [("error", VString "Server error during verification")] |} in
  match email with
  | Some e =>
      if negb (truthy email) || negb (truthy otp) then
        (store, {| status := 400; body := [("error", VString "Email and OTP are required")] |})
      else
        match JsMap.get store e with
        | None =>
            (store, {| status := 400;
                       body := [("error",
                                 VString "No OTP found for this email. Please request a new one.")] |})
        | Some otpData =>
            if oe_expires otpData <? t then
              (JsMap.delete store e,
               {| status := 400;
                  body := [("error", VString "OTP has expired. Please request a new one.")] |})
            else if negb (bool_decide (Some (oe_otp otpData) = otp)) then
              (store, {| status := 400;
                         body := [("error", VString "Invalid OTP. Please try again.")] |})
            else
              let passwordToHash :=
                if truthy password then password else oe_password otpData in
              if negb (truthy passwordToHash) then
                (store, {| status := 400;
                           body := [("error", VString "Password is required for signup")] |})
              else
                match hashed with
                | DbThrows _ => (store, failed)
                | DbReturns _ =>
                    match inserted with
                    | DbThrows _ => (store, failed)
                    | DbReturns insertedId =>
                        (JsMap.delete store e,
                         {| status := 201;
                            body := [("message", VString "Signup successful!");
                                     ("userId", VString insertedId)] |})
                    end
                end
        end
  | None =>
      (store, {| status := 400; body := [("error", VString "Email and OTP are required")] |})
  end.



(** ** Report statistics *)

(** The fields of a road entry the statistics read. *)
Record report := {
  r_reviewed : bool;
  r_reviewStatus : option string;
  r_severity : option string;
  r_damageType : damage_type
}.

(** GET /api/report-stats (1799-1828): [total], [pending], [reviewed]. *)
Definition report_stats (allEntries : list report) : N * N * N :=
  let total := N.of_nat (List.length allEntries) in
  let pending := N.of_nat (List.length (List.filter
    (fun entry => negb (r_reviewed entry) ||
                  bool_decide (r_reviewStatus entry = Some "pending")) allEntries)) in
  let reviewed := N.of_nat (List.length (List.filter
    (fun entry => r_reviewed entry &&
                  negb (bool_decide (r_reviewStatus entry = Some "pending"))) allEntries)) in
  (total, pending, reviewed).

(** [counts[k]++] on an object whose property [k] holds a number. *)
Definition increment (counts : JsMap.t N) (k : string) : JsMap.t N :=
  match JsMap.get counts k with
  | Some n => JsMap.set counts k (n + 1)
  | None => counts
  end.

(** The [switch] of 1958-1982 and 1988-2012. *)
Definition damage_category (type : string) : string :=
  if String.eqb type "pothole" then "Potholes"
  else if String.eqb type "alligator_crack" then "Alligator Cracks"
  else if String.eqb type "lateral_crack" then "Lateral Cracks"
  else if String.eqb type "longitudinal_crack" then "Longitudinal Cracks"
  else if String.eqb type "edge_crack" then "Edge Cracks"
  else if String.eqb type "rutting" then "Rutting"
  else if String.eqb type "raveling" then "Raveling"
  else "Other".

Definition damage_counts_initial : JsMap.t N :=
  [("Potholes", 0); ("Alligator Cracks", 0); ("Lateral Cracks", 0);
   ("Longitudinal Cracks", 0); ("Edge Cracks", 0); ("Rutting", 0);
   ("Raveling", 0); ("Other", 0)].

(** The body of [allEntries.forEach] (1948-2013). *)
Definition count_damage (damageTypes : JsMap.t N) (entry : report) : JsMap.t N :=
  match r_damageType entry with
  | DamageAbsent => increment damageTypes "Other"
  | DamageString s =>
      if negb (truthy (Some s)) then increment damageTypes "Other"
      else increment damageTypes (damage_category s)
  | DamageArray [] => increment damageTypes "Other"
  | DamageArray types =>
      foldl (fun counts type => increment counts (damage_category type)) damageTypes types
  end.

(** GET /api/damage-distribution (1926-2025): the [{name, value}] rows. *)
Definition damage_distribution (allEntries : list report) : list (string * N) :=
  let damageTypes := foldl count_damage damage_counts_initial allEntries in
  List.filter (fun kv => 0 <? snd kv) (JsMap.entries damageTypes).

Definition severity_counts_initial : JsMap.t N :=
  [("high", 0); ("moderate", 0); ("low", 0); ("severe", 0); ("unknown", 0)].

(** The body of [allEntries.forEach] (2047-2054);
    [severityCounts.hasOwnProperty(severity)] is membership of the five
    keys. *)
Definition count_severity (severityCounts : JsMap.t N) (entry : report) : JsMap.t N :=
  let severity := or_else (r_severity entry) "unknown" in
  match JsMap.get severityCounts severity with
  | Some _ => increment severityCounts severity
  | None => increment severityCounts "unknown"
  end.

(** GET /api/severity-breakdown (2028-2068): the rows with name, value and
    colour. *)
Definition severity_breakdown (allEntries : list report) : list (string * N * string) :=
  let severityCounts := foldl count_severity severity_counts_initial allEntries in
  let at_key k := default 0 (JsMap.get severityCounts k) in
  [("High", at_key "high" + at_key "severe", "#ef4444");
   ("Moderate", at_key "moderate", "#f59e0b");
   ("Low", at_key "low", "#10b981")].

(** [getReportType(notes, damageType)] (2101-2142).  The recursive call
    on the only element of an array reaches the string case. *)
Definition report_type_of_string (notes : option string) (damageType : string) : string :=
  if truthy (Some damageType) then
    if String.eqb damageType "pothole" then "Pothole"
    else if String.eqb damageType "alligator_crack" then "Alligator Crack"
    else if String.eqb damageType "lateral_crack" then "Lateral Crack"
    else if String.eqb damageType "longitudinal_crack" then "Longitudinal Crack"
    else if String.eqb damageType "edge_crack" then "Edge Crack"
    else if String.eqb damageType "rutting" then "Rutting"
    else if String.eqb damageType "raveling" then "Raveling"
    else "Other"
  else
    let notes := toLowerCase (or_else notes EmptyString) in
    if includes notes "pothole" then "Pothole"
    else if includes notes "crack" then "Crack"
    else if includes notes "erosion" then "Erosion"
    else if includes notes "debris" then "Debris"
    else "Other".

Definition getReportType (notes : option string) (damageType : damage_type) : string :=
  match damageType with
  | DamageArray [] => "Other"
  | DamageArray [type] => report_type_of_string notes type
  | DamageArray _ => "Multiple Issues"
  | DamageString s => report_type_of_string notes s
  | DamageAbsent => report_type_of_string notes EmptyString
  end.

(** ** Vocabulary of the specification *)

(** The identity begins with the admin prefix. *)
Definition has_admin_prefix (i : string) : Prop := ∃ r, i = "admin_" ++ r.

(** The identity contains the separator character. *)
Definition contains_separator (i : string) : Prop := ∃ a b, i = a ++ "_" ++ b.

Definition hex_digits : list ascii := list_ascii_of_string "0123456789abcdefABCDEF".

(** The identity is 24 hexadecimal digits, in either case. *)
Definition is_hex24 (i : string) : Prop :=
  String.length i = 24%nat ∧ Forall (λ c, c ∈ hex_digits) (list_ascii_of_string i).

(** What an expired authentication timer leaves of a socket: the timer is
    spent, and a socket without an identity is closed. *)
Definition timed_out (s : Socket) : Socket :=
  {| sock_userId := sock_userId s; sock_isAdmin := sock_isAdmin s;
     sock_userType := sock_userType s; authTimeout := None;
     connected := if truthy (sock_userId s) then connected s else false |}.

(** The socket is known to the server and open. *)
Definition is_connected (w : World) (sid : string) : bool :=
  match sockets w !! sid with
  | Some s => connected s
  | None => false
  end.

(** The event is sent by the client of connection [sid]. *)
Definition from_client (sid : string) (e : event) : bool :=
  match e with
  | Authenticate x _ | Reconnect x | Disconnect x => bool_decide (x = sid)
  | Connection _ | Tick _ => false
  end.

Definition is_authenticate (sid : string) (e : event) : bool :=
  match e with
  | Authenticate x _ => bool_decide (x = sid)
  | _ => false
  end.

(** What holds of the registry and the sockets in every state the server
    reaches. *)
Record registry_inv (w : World) : Prop := {
  inv_nodup : NoDup (JsMap.keys (userSockets w));
  inv_keys_valid :
    ∀ u, u ∈ JsMap.keys (userSockets w) → valid (validateUserType (Some u)) = true;
  inv_values_known :
    ∀ u h, (u, h) ∈ JsMap.entries (userSockets w) →
      ∃ s, sockets w !! h = Some s ∧ is_Some (sock_userId s);
  inv_socket_identity :
    ∀ sid s u, sockets w !! sid = Some s → sock_userId s = Some u →
      valid (validateUserType (Some u)) = true ∧
      sock_userType s = userType (validateUserType (Some u)) ∧
      sock_isAdmin s = isAdmin (validateUserType (Some u))
}.

(** A connection that has not authenticated, with deadline [d]: it has no
    identity, its handle is not in the registry, and while it is open its
    timer is pending and not yet due. *)
Definition awaiting_auth (sid : string) (d : N) (w : World) : Prop :=
  ∃ s, sockets w !! sid = Some s ∧ sock_userId s = None ∧
       (sid ∉ JsMap.values (userSockets w)) ∧
       (connected s = true → authTimeout s = Some d ∧ now w < d).

(** Before the deadline [d] the connection is open and its timer pending. *)
Definition open_until (sid : string) (d : N) (w : World) : Prop :=
  ∃ s, sockets w !! sid = Some s ∧
       (now w < d → connected s = true ∧ authTimeout s = Some d).

(** The classifier gives the identity the admin role. *)
Definition classified_admin (uid : string) : bool :=
  bool_decide (isAdmin (validateUserType (Some uid)) = Some true).


(** The registry entries of the identities classified as admin, in
    iteration order. *)
Definition admin_entries (w : World) : list (string * string) :=
  List.filter (λ kv, classified_admin (fst kv)) (JsMap.entries (userSockets w)).

(** The characters of a string. *)
Definition chars (s : string) : list ascii := list_ascii_of_string s.

(** The handler answered with this status and this [userType]. *)
Definition answers_role (r : response) (st : N) (role : string) : Prop :=
  status r = st ∧ body_field r "userType" = Some (VString role).


(** The sum of the [value] column of chart rows. *)
Definition sum_values (rows : list (string * N)) : N :=
  foldr (fun kv acc => snd kv + acc) 0 rows.

(** What one entry adds to the damage chart: one unit per element of a
    non-empty array of types, one unit otherwise. *)
Definition damage_units (entry : report) : N :=
  match r_damageType entry with
  | DamageArray (type :: types) => N.of_nat (List.length (type :: types))
  | _ => 1
  end.

(** The number of entries whose severity is exactly [k]. *)
Definition severity_count (allEntries : list report) (k : string) : N :=
  N.of_nat (List.length
    (List.filter (fun entry => bool_decide (r_severity entry = Some k)) allEntries)).

Definition severity_levels : list string :=
  ["low"; "moderate"; "high"; "severe"; "unknown"].

(** What Socket.IO does with an emission: one addressed to a socket id
    reaches the open socket with that id, a broadcast reaches every open
    socket, and a closed socket receives nothing. *)
Definition receives (w : World) (sid : string) (e : emission) : bool :=
  is_connected w sid &&
  match e with
  | ToSocket x _ _ => bool_decide (x = sid)
  | ToAll _ _ => true
  end.

(** The connections of an identity: the handle the registry holds for it,
    and the sockets that carry it as their [userId]. *)
Definition connections_of (w : World) (x : option string) : list string :=
  (match get_socket_id w x with
   | Some sid => [sid]
   | None => []
   end ++
   List.map fst
     (List.filter (λ kv, bool_decide (is_Some x ∧ sock_userId (snd kv) = x))
        (map_to_list (sockets w))))%list.

(** The identity has a live connection: one of its connections is open. *)
Definition has_live_connection (w : World) (x : option string) : bool :=
  existsb (is_connected w) (connections_of w x).

(** The handler left the registry, the sockets and the clock as they
    were, and sent [sent]. *)
Definition sent_only (w w' : World) (sent : list emission) : Prop :=
  userSockets w' = userSockets w ∧ sockets w' = sockets w ∧ now w' = now w ∧
  outbox w' = (outbox w ++ sent)%list.

(** No socket receives any of the emissions. *)
Definition unreceived (w : World) (sent : list emission) : Prop :=
  ∀ e sid, e ∈ sent → receives w sid e = false.


(** The connection whose client sent the input. *)
Definition sender (i : input) : option string :=
  match i with
  | Handled (Authenticate x _) | Handled (Reconnect x) | Handled (Disconnect x)
  | Ping x _ | AuthenticateValue x => Some x
  | Handled (Connection _) | Handled (Tick _) => None
  end.

(** Every character of the string is an ASCII character. *)
Definition is_ascii (s : string) : Prop :=
  Forall (λ c, N_of_ascii c < 128) (chars s).

(** What a send to one user adds to the outbox. *)
Definition user_delivery (w : World) (userId : option string) (ev : string)
    (data : list (string * jsval)) : list emission :=
  match get_socket_id w userId with
  | Some sid => if truthy (Some sid) then [ToSocket sid ev data] else []
  | None => []
  end.

(** * Properties *)

(** ** The JavaScript map *)

Section JsMapFacts.
Context {V : Type}.
Implicit Types (m : JsMap.t V) (k : string) (v : V).

Lemma jsmap_get_set_eq m k v : JsMap.get (JsMap.set m k v) k = Some v.
Proof.
  induction m as [|[k' v'] m IH]; cbn [JsMap.get JsMap.set].
  - by rewrite String.eqb_refl.
  - destruct (String.eqb k' k) eqn:E; cbn [JsMap.get]; rewrite E; done.
Qed.

Lemma jsmap_get_set_ne m k k' v :
  k ≠ k' → JsMap.get (JsMap.set m k v) k' = JsMap.get m k'.
Proof.
  intros Hne. induction m as [|[k0 v0] m IH]; cbn [JsMap.get JsMap.set].
  - destruct (String.eqb_spec k k'); congruence.
  - destruct (String.eqb_spec k0 k) as [->|]; cbn [JsMap.get].
    + destruct (String.eqb_spec k k'); congruence.
    + by rewrite IH.
Qed.

Lemma jsmap_get_delete_eq m k : JsMap.get (JsMap.delete m k) k = None.
Proof.
  induction m as [|[k' v'] m IH]; cbn [JsMap.get JsMap.delete]; [done|].
  destruct (String.eqb k' k) eqn:E; cbn [JsMap.get]; [done|]. by rewrite E.
Qed.

Lemma jsmap_get_delete_ne m k k' :
  k ≠ k' → JsMap.get (JsMap.delete m k) k' = JsMap.get m k'.
Proof.
  intros Hne. induction m as [|[k0 v0] m IH]; cbn [JsMap.get JsMap.delete]; [done|].
  destruct (String.eqb_spec k0 k) as [->|]; cbn [JsMap.get].
  - destruct (String.eqb_spec k k'); congruence.
  - by rewrite IH.
Qed.

Lemma jsmap_get_Some_elem m k v : JsMap.get m k = Some v → (k, v) ∈ JsMap.entries m.
Proof.
  unfold JsMap.entries. induction m as [|[k' v'] m IH]; cbn [JsMap.get]; [done|].
  destruct (String.eqb_spec k' k) as [->|].
  - intros [= ->]. left.
  - intros. right. auto.
Qed.

Lemma jsmap_get_None_keys m k : JsMap.get m k = None ↔ k ∉ JsMap.keys m.
Proof.
  unfold JsMap.keys. induction m as [|[k' v'] m IH]; cbn [JsMap.get fmap list_fmap fst].
  - split; [intros _; apply not_elem_of_nil | done].
  - rewrite not_elem_of_cons. destruct (String.eqb_spec k' k) as [->|].
    + split; [done | intros [? _]; done].
    + rewrite IH. split; [intros; split; congruence | intros [_ ?]; done].
Qed.

Lemma jsmap_elem_keys m k v : (k, v) ∈ JsMap.entries m → k ∈ JsMap.keys m.
Proof. intros H. apply list_elem_of_fmap. by exists (k, v). Qed.


Lemma jsmap_elem_set m k v k' v' :
  (k', v') ∈ JsMap.entries (JsMap.set m k v) →
  (k' = k ∧ v' = v) ∨ (k', v') ∈ JsMap.entries m.
Proof.
  unfold JsMap.entries. induction m as [|[k0 v0] m IH]; cbn [JsMap.set].
  - rewrite list_elem_of_singleton. intros [= -> ->]. by left.
  - destruct (String.eqb_spec k0 k) as [->|Hne]; rewrite !elem_of_cons.
    + intros [[= -> ->]|Hin]; [by left | by right; right].
    + intros [[= -> ->]|Hin]; [by right; left|].
      destruct (IH Hin) as [?|?]; [by left | by right; right].
Qed.

Lemma jsmap_elem_set_ne m k v k' v' :
  k' ≠ k → (k', v') ∈ JsMap.entries m → (k', v') ∈ JsMap.entries (JsMap.set m k v).
Proof.
  unfold JsMap.entries. intros Hne.
  induction m as [|[k0 v0] m IH]; cbn [JsMap.set].
  - intros H. by apply elem_of_nil in H.
  - destruct (String.eqb_spec k0 k) as [->|Hne0]; rewrite !elem_of_cons.
    + intros [[= -> ->]|Hin]; [done | by right].
    + intros [[= -> ->]|Hin]; [by left | right; auto].
Qed.

Lemma jsmap_elem_delete m k k' v' :
  (k', v') ∈ JsMap.entries (JsMap.delete m k) ↔
  k' ≠ k ∧ (k', v') ∈ JsMap.entries m.
Proof.
  unfold JsMap.entries. induction m as [|[k0 v0] m IH]; cbn [JsMap.delete].
  - split; [intros H; by apply elem_of_nil in H | intros [_ H]; done].
  - destruct (String.eqb_spec k0 k) as [->|Hne0]; rewrite !elem_of_cons, IH.
    + split; [intros [? ?]; auto | intros [? [[= -> ->]|?]]; done].
    + split.
      * intros [[= -> ->]|[? ?]]; auto.
      * intros [? [?|?]]; auto.
Qed.

Lemma jsmap_keys_set m k v k' :
  k' ∈ JsMap.keys (JsMap.set m k v) ↔ k' = k ∨ k' ∈ JsMap.keys m.
Proof.
  unfold JsMap.keys. induction m as [|[k0 v0] m IH]; cbn [JsMap.set fmap list_fmap fst].
  - rewrite list_elem_of_singleton, elem_of_nil. tauto.
  - destruct (String.eqb_spec k0 k) as [->|Hne0];
      cbn [fmap list_fmap fst]; rewrite !elem_of_cons.
    + tauto.
    + change (k' ∈ (JsMap.set m k v).*1) with (k' ∈ fst <$> JsMap.set m k v).
      rewrite IH. tauto.
Qed.

(** At most one entry per key: what a [Map] guarantees, kept by the
    list operations. *)
Lemma jsmap_NoDup_set m k v :
  NoDup (JsMap.keys m) → NoDup (JsMap.keys (JsMap.set m k v)).
Proof.
  unfold JsMap.keys. induction m as [|[k0 v0] m IH]; cbn [JsMap.set fmap list_fmap fst].
  - intros _. apply NoDup_singleton.
  - rewrite NoDup_cons. intros [Hk Hnd].
    destruct (String.eqb_spec k0 k) as [->|Hne0]; cbn [fmap list_fmap fst].
    + by apply NoDup_cons.
    + apply NoDup_cons. split; [|auto].
      intros Hin. apply (jsmap_keys_set m k v k0) in Hin. destruct Hin; done.
Qed.

Lemma jsmap_NoDup_delete m k :
  NoDup (JsMap.keys m) → NoDup (JsMap.keys (JsMap.delete m k)).
Proof.
  unfold JsMap.keys. induction m as [|[k0 v0] m IH]; cbn [JsMap.delete fmap list_fmap fst].
  - done.
  - rewrite NoDup_cons. intros [Hk Hnd].
    destruct (String.eqb_spec k0 k) as [->|Hne0]; cbn [fmap list_fmap fst]; [auto|].
    apply NoDup_cons. split; [|auto].
    intros Hin. apply list_elem_of_fmap in Hin as [[k1 v1] [Heq Hin]].
    simpl in Heq. subst k1. apply jsmap_elem_delete in Hin as [_ Hin].
    apply Hk. apply list_elem_of_fmap. by exists (k0, v1).
Qed.
End JsMapFacts.

(** ** JavaScript string tests *)

Lemma append_String (c : ascii) (s r : string) : String c s ++ r = String c (s ++ r).
Proof. reflexivity. Qed.

Lemma append_Empty (r : string) : EmptyString ++ r = r.
Proof. reflexivity. Qed.

Lemma startsWith_spec (s p : string) :
  startsWith s p = true ↔ ∃ r, s = p ++ r.
Proof.
  unfold startsWith. revert s.
  induction p as [|a p IH]; intros [|b s]; cbn [String.prefix].
  - split; [intros _; by exists EmptyString | done].
  - split; [intros _; by exists (String b s) | done].
  - split; [done | intros [r Hr]; done].
  - destruct (ascii_dec a b) as [->|Hne].
    + rewrite IH.
      split; intros [r Hr]; exists r; rewrite append_String in *; congruence.
    + split; [done | intros [r Hr]; rewrite append_String in Hr; congruence].
Qed.

Lemma includes_cons (c : ascii) (s p : string) :
  includes (String c s) p = String.prefix p (String c s) || includes s p.
Proof.
  unfold includes. cbn [String.index].
  destruct (String.prefix p (String c s)); [done|].
  by destruct (String.index 0 p s).
Qed.

Lemma includes_spec (s p : string) :
  includes s p = true ↔ ∃ a b, s = a ++ p ++ b.
Proof.
  induction s as [|c s IH].
  - unfold includes. cbn [String.index]. destruct p as [|x p].
    + split; [intros _; by exists EmptyString, EmptyString | done].
    + split; [done | intros ([|y a] & b & Hab); done].
  - rewrite includes_cons, orb_true_iff, IH.
    fold (startsWith (String c s) p). rewrite startsWith_spec. split.
    + intros [[r Hr]|(a & b & Hab)].
      * by exists EmptyString, r.
      * exists (String c a), b. rewrite append_String. congruence.
    + intros ([|y a] & b & Hab).
      * left. by exists b.
      * right. exists a, b. rewrite append_String in Hab. congruence.
Qed.

Lemma repeat_class_spec (cls : ascii → bool) (n : nat) (s : string) :
  repeat_class cls n s = true ↔
  String.length s = n ∧ Forall (λ c, cls c = true) (list_ascii_of_string s).
Proof.
  revert s. induction n as [|n IH]; intros [|c s];
    cbn [repeat_class String.length list_ascii_of_string].
  - split; [intros _; split; [done | constructor] | done].
  - split; [done | intros [? _]; done].
  - split; [done | intros [? _]; done].
  - rewrite andb_true_iff, IH, Forall_cons. split.
    + intros [? [? ?]]. auto.
    + intros [[= ?] [? ?]]. auto.
Qed.

Lemma hex_class_spec (c : ascii) :
  hex_class c = true ↔
  c ∈ list_ascii_of_string "0123456789abcdefABCDEF".
Proof.
  split.
  - destruct c as [[] [] [] [] [] [] [] []]; intros H; vm_compute in H;
      try discriminate H; cbn [list_ascii_of_string];
      repeat (first [by left | right]).
  - cbn [list_ascii_of_string]. rewrite !elem_of_cons, elem_of_nil.
    intros H. repeat (destruct H as [->|H]; [reflexivity|]). done.
Qed.

Lemma match_objectid_spec (i : string) : match_objectid i = true ↔ is_hex24 i.
Proof.
  unfold match_objectid, is_hex24. rewrite repeat_class_spec.
  split; intros [Hlen Hall]; (split; [done|]);
    eapply Forall_impl; [exact Hall| |exact Hall|];
    intros c Hc; by apply hex_class_spec.
Qed.

(** ** The identity classifier *)

Lemma validateUserType_present (i : string) :
  i ≠ EmptyString →
  validateUserType (Some i) =
    let isAdmin := startsWith i "admin_" in
    if negb isAdmin && negb (includes i "_" || match_objectid i) then
      {| valid := false; isAdmin := None; userType := None;
         message := "Invalid userId format" |}
    else
      {| valid := true; isAdmin := Some isAdmin;
         userType := Some (if isAdmin then "admin" else "user");
         message := "Valid " ++ (if isAdmin then "admin" else "regular") ++ " user" |}.
Proof.
  intros Hne. unfold validateUserType, truthy.
  destruct (String.eqb_spec i EmptyString); [done|]. reflexivity.
Qed.

Lemma has_admin_prefix_nonempty (i : string) : has_admin_prefix i → i ≠ EmptyString.
Proof. intros [r ->]. done. Qed.

Lemma contains_separator_nonempty (i : string) : contains_separator i → i ≠ EmptyString.
Proof. intros ([|c a] & b & ->); done. Qed.

Lemma is_hex24_nonempty (i : string) : is_hex24 i → i ≠ EmptyString.
Proof. intros [Hlen _] ->. done. Qed.

(** C3. The classifier follows the format contract: an identity with the
    admin prefix is valid with role admin; any other identity that
    contains the separator or is 24 hexadecimal digits is valid with role
    user; an absent or empty identity, and every other shape, is invalid.
    The four identities of the scenario classify as stated. *)
Theorem validateUserType_format_contract :
  (∀ i, has_admin_prefix i →
     validateUserType (Some i) =
       {| valid := true; isAdmin := Some true; userType := Some "admin";
          message := "Valid admin user" |}) ∧
  (∀ i, ¬ has_admin_prefix i → contains_separator i ∨ is_hex24 i →
     validateUserType (Some i) =
       {| valid := true; isAdmin := Some false; userType := Some "user";
          message := "Valid regular user" |}) ∧
  (∀ i, ¬ has_admin_prefix i → ¬ contains_separator i → ¬ is_hex24 i →
     valid (validateUserType (Some i)) = false) ∧
  valid (validateUserType None) = false ∧
  valid (validateUserType (Some EmptyString)) = false ∧
  validateUserType (Some "admin_42") =
    {| valid := true; isAdmin := Some true; userType := Some "admin";
       message := "Valid admin user" |} ∧
  validateUserType (Some "5f1a2b3c4d5e6f7a8b9c0d1e") =
    {| valid := true; isAdmin := Some false; userType := Some "user";
       message := "Valid regular user" |} ∧
  validateUserType (Some "user_bob") =
    {| valid := true; isAdmin := Some false; userType := Some "user";
       message := "Valid regular user" |} ∧
  valid (validateUserType (Some "bob")) = false.
Proof.
  repeat split; try reflexivity.
  - intros i Hadm.
    rewrite validateUserType_present by by apply has_admin_prefix_nonempty.
    apply startsWith_spec in Hadm. cbv zeta. rewrite Hadm. reflexivity.
  - intros i Hadm Hreg.
    assert (startsWith i "admin_" = false) as Hs.
    { apply not_true_is_false. by rewrite startsWith_spec. }
    assert (includes i "_" || match_objectid i = true) as Hr.
    { apply orb_true_iff. rewrite includes_spec, match_objectid_spec. exact Hreg. }
    rewrite validateUserType_present.
    + cbv zeta. rewrite Hs, Hr. reflexivity.
    + destruct Hreg; [by apply contains_separator_nonempty | by apply is_hex24_nonempty].
  - intros i Hadm Hsep Hhex.
    destruct (decide (i = EmptyString)) as [->|Hne]; [reflexivity|].
    rewrite validateUserType_present by done. cbv zeta.
    rewrite (not_true_is_false (startsWith i "admin_")) by by rewrite startsWith_spec.
    rewrite (not_true_is_false (includes i "_")) by by rewrite includes_spec.
    rewrite (not_true_is_false (match_objectid i)) by by rewrite match_objectid_spec.
    reflexivity.
Qed.

Lemma validateUserType_format_contract_witness :
  has_admin_prefix "admin_42" ∧
  validateUserType (Some "admin_42") =
    {| valid := true; isAdmin := Some true; userType := Some "admin";
       message := "Valid admin user" |}.
Proof.
  split.
  - exists "42". reflexivity.
  - apply (proj1 validateUserType_format_contract). exists "42". reflexivity.
Defined.

(** ** The authentication timer *)

Lemma on_disconnect_falsy (w : World) (s : Socket) :
  truthy (sock_userId s) = false → on_disconnect w s = w.
Proof. unfold on_disconnect. intros H. destruct (sock_userId s); by rewrite ?H. Qed.

Lemma authTimeout_fired_frame (w : World) (x : string) :
  userSockets (authTimeout_fired w x) = userSockets w ∧
  now (authTimeout_fired w x) = now w ∧
  outbox (authTimeout_fired w x) = outbox w.
Proof.
  unfold authTimeout_fired. destruct (sockets w !! x) as [s|] eqn:E; [|done].
  cbn [sock_userId]. destruct (truthy (sock_userId s)) eqn:T; cbn [negb]; [done|].
  unfold close_socket. cbn [sockets with_socket]. rewrite lookup_insert_eq.
  cbn [connected]. destruct (connected s); [|done].
  by rewrite on_disconnect_falsy.
Qed.

Lemma authTimeout_fired_lookup (w : World) (x y : string) :
  sockets (authTimeout_fired w x) !! y =
    if decide (x = y) then timed_out <$> sockets w !! x else sockets w !! y.
Proof.
  unfold authTimeout_fired. destruct (sockets w !! x) as [s|] eqn:E.
  - change (timed_out <$> Some s) with (Some (timed_out s)).
    cbn [sock_userId]. unfold timed_out.
    destruct (truthy (sock_userId s)) eqn:T; cbn [negb].
    + cbn [sockets with_socket]. rewrite lookup_insert.
      destruct (decide (x = y)); done.
    + unfold close_socket. cbn [sockets with_socket]. rewrite lookup_insert_eq.
      cbn [connected]. destruct (connected s) eqn:C.
      * rewrite on_disconnect_falsy by done. cbn [sockets with_socket].
        rewrite !lookup_insert. destruct (decide (x = y)); done.
      * cbn [sockets with_socket]. rewrite lookup_insert.
        destruct (decide (x = y)); done.
  - destruct (decide (x = y)) as [<-|]; by rewrite ?E.
Qed.

Lemma timed_out_idemp (s : Socket) : timed_out (timed_out s) = timed_out s.
Proof. unfold timed_out. cbn. by destruct (truthy (sock_userId s)). Qed.

Lemma fire_all_frame (l : list string) (w : World) :
  userSockets (foldl authTimeout_fired w l) = userSockets w ∧
  now (foldl authTimeout_fired w l) = now w ∧
  outbox (foldl authTimeout_fired w l) = outbox w.
Proof.
  revert w. induction l as [|x l IH]; intros w; cbn [foldl]; [done|].
  destruct (IH (authTimeout_fired w x)) as (-> & -> & ->).
  apply authTimeout_fired_frame.
Qed.

Lemma fire_all_lookup (l : list string) (w : World) (y : string) :
  sockets (foldl authTimeout_fired w l) !! y =
    if decide (y ∈ l) then timed_out <$> sockets w !! y else sockets w !! y.
Proof.
  revert w. induction l as [|x l IH]; intros w; cbn [foldl].
  - destruct (decide (y ∈ [])) as [H|]; [by apply elem_of_nil in H | done].
  - rewrite IH, authTimeout_fired_lookup.
    destruct (decide (x = y)) as [->|Hxy].
    + destruct (decide (y ∈ y :: l)) as [_|Hc]; [|exfalso; apply Hc; left].
      destruct (decide (y ∈ l)); [|done].
      destruct (sockets w !! y); cbn [fmap option_fmap option_map]; [|done].
      by rewrite timed_out_idemp.
    + destruct (decide (y ∈ l)) as [Hl|Hl].
      * destruct (decide (y ∈ x :: l)) as [_|Hc]; [done|].
        exfalso. apply Hc. by right.
      * destruct (decide (y ∈ x :: l)) as [Hc|_]; [|done].
        apply elem_of_cons in Hc as [->|]; done.
Qed.

Lemma elem_due_timers (w : World) (t : N) (y : string) :
  y ∈ due_timers w t ↔ ∃ s, sockets w !! y = Some s ∧ timer_due t s = true.
Proof.
  unfold due_timers. rewrite list_elem_of_In, in_map_iff. split.
  - intros ([k s] & <- & Hin). apply filter_In in Hin as [Hin Hdue].
    apply list_elem_of_In, elem_of_map_to_list in Hin. by exists s.
  - intros (s & Hs & Hdue). exists (y, s). split; [done|].
    apply filter_In. split; [|done].
    by apply list_elem_of_In, elem_of_map_to_list.
Qed.

(** What a clock tick does: the registry and the outbox are untouched, and
    exactly the sockets whose timer is due are timed out. *)
Lemma tick_spec (w : World) (dt : N) :
  userSockets (tick w dt) = userSockets w ∧
  outbox (tick w dt) = outbox w ∧
  now (tick w dt) = now w + dt ∧
  ∀ y, sockets (tick w dt) !! y =
         (λ s, if timer_due (now w + dt) s then timed_out s else s) <$> sockets w !! y.
Proof.
  unfold tick. cbn [now with_now].
  destruct (fire_all_frame (due_timers (with_now w (now w + dt)) (now w + dt))
              (with_now w (now w + dt))) as (-> & -> & ->).
  repeat split; try done. intros y. rewrite fire_all_lookup.
  cbn [sockets with_now].
  destruct (decide _) as [Hin|Hin].
  - apply elem_due_timers in Hin as (s & Hs & Hdue). cbn [sockets with_now] in Hs.
    rewrite Hs. cbn. by rewrite Hdue.
  - destruct (sockets w !! y) as [s|] eqn:Hs; [|done]. cbn.
    destruct (timer_due (now w + dt) s) eqn:Hdue; [|done].
    exfalso. apply Hin, elem_due_timers. exists s. by cbn [sockets with_now].
Qed.

(** ** The connection handlers, one by one *)

Lemma valid_truthy (x : option string) :
  valid (validateUserType x) = true → truthy x = true.
Proof.
  unfold validateUserType. destruct x as [u|]; [|done].
  destruct (truthy (Some u)); done.
Qed.

Lemma valid_is_Some (x : option string) :
  valid (validateUserType x) = true → ∃ u, x = Some u ∧ u ≠ EmptyString.
Proof.
  intros H. pose proof (valid_truthy x H) as T. destruct x as [u|]; [|done].
  exists u. split; [done|]. intros ->. done.
Qed.

Lemma on_authenticate_valid (w : World) (sid : string) (s : Socket) (u : string) :
  valid (validateUserType (Some u)) = true →
  on_authenticate w sid s (Some u) =
    {| userSockets := JsMap.set (userSockets w) u sid;
       sockets := <[sid := {| sock_userId := Some u;
                             sock_isAdmin := isAdmin (validateUserType (Some u));
                             sock_userType := userType (validateUserType (Some u));
                             authTimeout := None;
                             connected := connected s |}]> (sockets w);
       now := now w;
       outbox := outbox w ++ [auth_success sid u (userType (validateUserType (Some u)))] |}.
Proof. intros H. unfold on_authenticate. rewrite H. reflexivity. Qed.

Lemma on_authenticate_invalid (w : World) (sid : string) (s : Socket) (x : option string) :
  valid (validateUserType x) = false →
  on_authenticate w sid s x =
    {| userSockets := userSockets w;
       sockets := <[sid := {| sock_userId := sock_userId s;
                             sock_isAdmin := sock_isAdmin s;
                             sock_userType := sock_userType s;
                             authTimeout := None;
                             connected := connected s |}]> (sockets w);
       now := now w;
       outbox := outbox w ++ [auth_error sid (message (validateUserType x))] |}.
Proof.
  intros H. unfold on_authenticate. destruct x as [u|]; [|reflexivity].
  rewrite H. reflexivity.
Qed.

Lemma on_reconnect_identified (w : World) (sid : string) (s : Socket) (u : string) :
  sock_userId s = Some u → u ≠ EmptyString →
  on_reconnect w sid s =
    {| userSockets := JsMap.set (userSockets w) u sid;
       sockets := sockets w;
       now := now w;
       outbox := outbox w ++ [reauth_success sid u (sock_userType s)] |}.
Proof.
  intros Hu Hne. unfold on_reconnect. rewrite Hu. cbn [truthy].
  destruct (String.eqb_spec u EmptyString); [done|]. reflexivity.
Qed.

Lemma on_reconnect_anonymous (w : World) (sid : string) (s : Socket) :
  truthy (sock_userId s) = false → on_reconnect w sid s = w.
Proof. unfold on_reconnect. intros H. destruct (sock_userId s); by rewrite ?H. Qed.

Lemma on_disconnect_identified (w : World) (s : Socket) (u : string) :
  sock_userId s = Some u → u ≠ EmptyString →
  on_disconnect w s = with_userSockets w (JsMap.delete (userSockets w) u).
Proof.
  intros Hu Hne. unfold on_disconnect. rewrite Hu. cbn [truthy].
  destruct (String.eqb_spec u EmptyString); [done|]. reflexivity.
Qed.

(** Closing an open socket marks it closed; its registry key, if it has an
    identity, is deleted whatever handle the registry holds for it. *)
Lemma close_socket_open (w : World) (sid : string) (s : Socket) :
  sockets w !! sid = Some s → connected s = true →
  close_socket w sid =
    {| userSockets :=
         if truthy (sock_userId s)
         then JsMap.delete (userSockets w) (default EmptyString (sock_userId s))
         else userSockets w;
       sockets := <[sid := {| sock_userId := sock_userId s;
                             sock_isAdmin := sock_isAdmin s;
                             sock_userType := sock_userType s;
                             authTimeout := authTimeout s;
                             connected := false |}]> (sockets w);
       now := now w;
       outbox := outbox w |}.
Proof.
  intros Hs Hc. unfold close_socket. rewrite Hs, Hc.
  unfold on_disconnect. cbn [sock_userId].
  destruct (sock_userId s) as [u|]; [|reflexivity].
  destruct (truthy (Some u)); reflexivity.
Qed.

Lemma close_socket_closed (w : World) (sid : string) :
  is_connected w sid = false → close_socket w sid = w.
Proof.
  unfold is_connected, close_socket. destruct (sockets w !! sid) as [s|]; [|done].
  by intros ->.
Qed.

Lemma on_socket_connected (w : World) (sid : string) (s : Socket) (h : Socket → World) :
  sockets w !! sid = Some s → connected s = true → on_socket w sid h = h s.
Proof. intros Hs Hc. unfold on_socket. by rewrite Hs, Hc. Qed.

Lemma on_socket_closed (w : World) (sid : string) (h : Socket → World) :
  is_connected w sid = false → on_socket w sid h = w.
Proof.
  unfold is_connected, on_socket. destruct (sockets w !! sid) as [s|]; [|done].
  by intros ->.
Qed.

Lemma is_connected_true (w : World) (sid : string) :
  is_connected w sid = true ↔ ∃ s, sockets w !! sid = Some s ∧ connected s = true.
Proof.
  unfold is_connected. destruct (sockets w !! sid) as [s|].
  - split; [by exists s | by intros (? & [= <-] & ?)].
  - split; [done | by intros (? & ? & ?)].
Qed.

Lemma run_app (w : World) (tr1 tr2 : list event) :
  run w (tr1 ++ tr2) = run (run w tr1) tr2.
Proof. apply foldl_app. Qed.

Lemma run_snoc (w : World) (tr : list event) (e : event) :
  run w (tr ++ [e]) = step (run w tr) e.
Proof. by rewrite run_app. Qed.

(** ** The invariant of the event loop *)

Lemma jsmap_keys_entries {V : Type} (m : JsMap.t V) (k : string) :
  k ∈ JsMap.keys m ↔ ∃ v, (k, v) ∈ JsMap.entries m.
Proof.
  unfold JsMap.keys, JsMap.entries. rewrite list_elem_of_fmap. split.
  - intros ([k' v] & -> & Hin). by exists v.
  - intros (v & Hin). by exists (k, v).
Qed.

Lemma jsmap_keys_delete {V : Type} (m : JsMap.t V) (k k' : string) :
  k' ∈ JsMap.keys (JsMap.delete m k) → k' ∈ JsMap.keys m.
Proof.
  rewrite !jsmap_keys_entries. intros (v & Hin).
  apply jsmap_elem_delete in Hin as [_ Hin]. by exists v.
Qed.

Lemma registry_inv_initial : registry_inv initial.
Proof.
  split; cbn.
  - constructor.
  - intros u H. by apply elem_of_nil in H.
  - intros u h H. by apply elem_of_nil in H.
  - intros sid s u H. by rewrite lookup_empty in H.
Qed.

Lemma registry_inv_connection (w : World) (sid : string) :
  registry_inv w → registry_inv (on_connection w sid).
Proof.
  intros [Hnd Hkv Hvk Hsi]. unfold on_connection.
  destruct (sockets w !! sid) as [s|] eqn:Hs; [by split|].
  split; cbn [userSockets sockets with_socket]; [done | done | |].
  - intros u h Hin. destruct (Hvk u h Hin) as (s & Hh & Hid).
    exists s. split; [|done]. rewrite lookup_insert_ne; [done | congruence].
  - intros sid' s' u. rewrite lookup_insert. destruct (decide (sid = sid')).
    + intros [= <-]. done.
    + apply Hsi.
Qed.

Lemma registry_inv_authenticate (w : World) (sid : string) (s : Socket)
    (x : option string) :
  registry_inv w → sockets w !! sid = Some s →
  registry_inv (on_authenticate w sid s x).
Proof.
  intros [Hnd Hkv Hvk Hsi] Hs.
  destruct (valid (validateUserType x)) eqn:Hv.
  - destruct (valid_is_Some x Hv) as (u & -> & Hne).
    rewrite on_authenticate_valid by done.
    split; cbn [userSockets sockets].
    + by apply jsmap_NoDup_set.
    + intros u'. rewrite jsmap_keys_set. intros [->|?]; auto.
    + intros u' h Hin. apply jsmap_elem_set in Hin as [[-> ->]|Hin].
      * rewrite lookup_insert_eq. eexists. split; [done|]. by eexists.
      * destruct (Hvk u' h Hin) as (s0 & Hh & Hid).
        rewrite lookup_insert. destruct (decide (sid = h)).
        -- eexists. split; [done|]. by eexists.
        -- by exists s0.
    + intros sid' s' u'. rewrite lookup_insert. destruct (decide (sid = sid')).
      * intros [= <-]. cbn. intros [= <-]. done.
      * apply Hsi.
  - rewrite on_authenticate_invalid by done.
    split; cbn [userSockets sockets]; [done | done | |].
    + intros u' h Hin. destruct (Hvk u' h Hin) as (s0 & Hh & Hid).
      rewrite lookup_insert. destruct (decide (sid = h)) as [->|].
      * eexists. split; [done|]. cbn. congruence.
      * by exists s0.
    + intros sid' s' u'. rewrite lookup_insert. destruct (decide (sid = sid')).
      * intros [= <-]. cbn. by apply (Hsi sid s).
      * apply Hsi.
Qed.

Lemma registry_inv_reconnect (w : World) (sid : string) (s : Socket) :
  registry_inv w → sockets w !! sid = Some s →
  registry_inv (on_reconnect w sid s).
Proof.
  intros Hinv Hs. destruct (truthy (sock_userId s)) eqn:T.
  - destruct (sock_userId s) as [u|] eqn:Hu; [|done].
    assert (u ≠ EmptyString) as Hne by (intros ->; done).
    rewrite (on_reconnect_identified w sid s u) by done.
    destruct Hinv as [Hnd Hkv Hvk Hsi].
    split; cbn [userSockets sockets].
    + by apply jsmap_NoDup_set.
    + intros u'. rewrite jsmap_keys_set. intros [->|?]; [|auto].
      by apply (Hsi sid s u).
    + intros u' h Hin. apply jsmap_elem_set in Hin as [[-> ->]|Hin]; [|eauto].
      exists s. split; [done|]. by rewrite Hu.
    + done.
  - by rewrite on_reconnect_anonymous.
Qed.

Lemma registry_inv_close (w : World) (sid : string) :
  registry_inv w → registry_inv (close_socket w sid).
Proof.
  intros Hinv. destruct (is_connected w sid) eqn:Hc.
  2: by rewrite close_socket_closed.
  apply is_connected_true in Hc as (s & Hs & Hc).
  rewrite (close_socket_open w sid s) by done.
  destruct Hinv as [Hnd Hkv Hvk Hsi].
  assert (∀ u h, (u, h) ∈ JsMap.entries (userSockets w) →
            ∃ s0, <[sid := {| sock_userId := sock_userId s;
                             sock_isAdmin := sock_isAdmin s;
                             sock_userType := sock_userType s;
                             authTimeout := authTimeout s;
                             connected := false |}]> (sockets w) !! h = Some s0
                  ∧ is_Some (sock_userId s0)) as Hvk'.
  { intros u h Hin. destruct (Hvk u h Hin) as (s0 & Hh & Hid).
    rewrite lookup_insert. destruct (decide (sid = h)) as [->|].
    - eexists. split; [done|]. cbn. congruence.
    - by exists s0. }
  split; cbn [userSockets sockets].
  - destruct (truthy (sock_userId s)); [by apply jsmap_NoDup_delete | done].
  - intros u. destruct (truthy (sock_userId s)); [|auto].
    intros Hin. apply jsmap_keys_delete in Hin. auto.
  - intros u h. destruct (truthy (sock_userId s)); [|apply Hvk'].
    intros Hin. apply jsmap_elem_delete in Hin as [_ Hin]. by apply (Hvk' u h).
  - intros sid' s' u'. rewrite lookup_insert. destruct (decide (sid = sid')).
    + intros [= <-]. cbn. by apply (Hsi sid s).
    + apply Hsi.
Qed.

Lemma registry_inv_tick (w : World) (dt : N) :
  registry_inv w → registry_inv (tick w dt).
Proof.
  intros [Hnd Hkv Hvk Hsi].
  destruct (tick_spec w dt) as (Hreg & _ & _ & Hlook).
  split; rewrite ?Hreg; [done | done | |].
  - intros u h Hin. destruct (Hvk u h Hin) as (s & Hh & Hid).
    rewrite Hlook, Hh. cbn. eexists. split; [done|].
    by destruct (timer_due (now w + dt) s).
  - intros sid s' u. rewrite Hlook.
    destruct (sockets w !! sid) as [s|] eqn:Hs; [|done].
    cbn. intros [= <-]. destruct (timer_due (now w + dt) s); by apply (Hsi sid s).
Qed.

Lemma registry_inv_step (w : World) (e : event) :
  registry_inv w → registry_inv (step w e).
Proof.
  intros Hinv. destruct e as [sid|sid x|sid|sid|dt]; cbn [step].
  - by apply registry_inv_connection.
  - unfold on_socket. destruct (sockets w !! sid) as [s|] eqn:Hs; [|done].
    destruct (connected s); [|done]. by apply registry_inv_authenticate.
  - unfold on_socket. destruct (sockets w !! sid) as [s|] eqn:Hs; [|done].
    destruct (connected s); [|done]. by apply registry_inv_reconnect.
  - by apply registry_inv_close.
  - by apply registry_inv_tick.
Qed.

Lemma registry_inv_run (w : World) (tr : list event) :
  registry_inv w → registry_inv (run w tr).
Proof.
  revert w. induction tr as [|e tr IH]; intros w Hinv; [done|].
  apply IH. by apply registry_inv_step.
Qed.

Lemma registry_inv_reachable (tr : list event) : registry_inv (run initial tr).
Proof. apply registry_inv_run, registry_inv_initial. Qed.

(** ** The registry under authentication, reconnection and disconnection *)

Lemma step_authenticate_valid (w : World) (sid : string) (s : Socket) (u : string) :
  sockets w !! sid = Some s → connected s = true →
  valid (validateUserType (Some u)) = true →
  step w (Authenticate sid (Some u)) =
    {| userSockets := JsMap.set (userSockets w) u sid;
       sockets := <[sid := {| sock_userId := Some u;
                             sock_isAdmin := isAdmin (validateUserType (Some u));
                             sock_userType := userType (validateUserType (Some u));
                             authTimeout := None;
                             connected := true |}]> (sockets w);
       now := now w;
       outbox := outbox w ++ [auth_success sid u (userType (validateUserType (Some u)))] |}.
Proof.
  intros Hs Hc Hv. cbn [step].
  rewrite (on_socket_connected w sid s) by done.
  rewrite on_authenticate_valid by done. by rewrite Hc.
Qed.

Lemma step_disconnect_identified (w : World) (sid : string) (s : Socket) (u : string) :
  sockets w !! sid = Some s → connected s = true →
  sock_userId s = Some u → u ≠ EmptyString →
  userSockets (step w (Disconnect sid)) = JsMap.delete (userSockets w) u.
Proof.
  intros Hs Hc Hu Hne. cbn [step]. rewrite (close_socket_open w sid s) by done.
  cbn [userSockets]. rewrite Hu. cbn [truthy default].
  by destruct (String.eqb_spec u EmptyString).
Qed.

(** The disconnect handler deletes the key of the closing socket's
    identity and nothing else; the handle stored under it is not looked at. *)
Lemma disconnect_deletes_identity (w : World) (sid : string) (s : Socket) (u : string) :
  sockets w !! sid = Some s → connected s = true →
  sock_userId s = Some u → u ≠ EmptyString →
  lookup_user (step w (Disconnect sid)) u = None ∧
  ∀ i, i ≠ u → lookup_user (step w (Disconnect sid)) i = lookup_user w i.
Proof.
  intros Hs Hc Hu Hne. unfold lookup_user.
  rewrite (step_disconnect_identified w sid s u) by done. split.
  - apply jsmap_get_delete_eq.
  - intros i Hi. by apply jsmap_get_delete_ne.
Qed.

(** The state after two connections authenticate as the same identity. *)
Lemma authenticate_twice (w : World) (h1 h2 i : string) :
  is_connected w h1 = true → is_connected w h2 = true →
  valid (validateUserType (Some i)) = true →
  let w' := run w [Authenticate h1 (Some i); Authenticate h2 (Some i)] in
  userSockets w' = JsMap.set (JsMap.set (userSockets w) i h1) i h2 ∧
  (∀ h, h = h1 ∨ h = h2 →
     ∃ s, sockets w' !! h = Some s ∧ connected s = true ∧ sock_userId s = Some i).
Proof.
  intros H1 H2 Hv.
  apply is_connected_true in H1 as (s1 & Hs1 & Hc1).
  apply is_connected_true in H2 as (s2 & Hs2 & Hc2).
  cbn [run foldl]. rewrite (step_authenticate_valid w h1 s1 i) by done.
  set (w1 := {| userSockets := JsMap.set (userSockets w) i h1 |}).
  assert (∃ s, sockets w1 !! h2 = Some s ∧ connected s = true) as (s & Hs & Hc).
  { cbn [w1 sockets]. rewrite lookup_insert. destruct (decide (h1 = h2)); eauto. }
  rewrite (step_authenticate_valid w1 h2 s i) by done. cbn [userSockets sockets w1].
  split; [done|]. intros h [->| ->].
  - rewrite lookup_insert. destruct (decide (h2 = h1)); [by eexists|].
    rewrite lookup_insert_eq. by eexists.
  - rewrite lookup_insert_eq. by eexists.
Qed.

(** C10. In every state the server reaches, every key of the registry is
    an identity the classifier accepts. *)
Theorem registry_keys_valid (tr : list event) (i : string) :
  i ∈ JsMap.keys (userSockets (run initial tr)) →
  valid (validateUserType (Some i)) = true.
Proof. apply registry_inv_reachable. Qed.

Lemma registry_keys_valid_witness :
  "user_bob" ∈ JsMap.keys (userSockets
     (run initial [Connection "s1"; Authenticate "s1" (Some "user_bob")])) ∧
  valid (validateUserType (Some "user_bob")) = true.
Proof.
  assert ("user_bob" ∈ JsMap.keys (userSockets
     (run initial [Connection "s1"; Authenticate "s1" (Some "user_bob")]))) as H.
  { vm_compute. left. }
  split; [exact H|].
  exact (registry_keys_valid
           [Connection "s1"; Authenticate "s1" (Some "user_bob")] "user_bob" H).
Defined.



(** C1, as the code has it.  After two open connections [h1] then [h2]
    authenticate as the same valid identity the registry holds [h2]; the
    disconnect of either connection, the stale [h1] included, removes the
    entry: the handler deletes the key without comparing the stored handle
    with the closing one. *)
Theorem disconnect_removes_entry_whatever_handle (tr : list event) (h1 h2 i : string) :
  is_connected (run initial tr) h1 = true →
  is_connected (run initial tr) h2 = true →
  valid (validateUserType (Some i)) = true →
  let w := run (run initial tr) [Authenticate h1 (Some i); Authenticate h2 (Some i)] in
  lookup_user w i = Some h2 ∧
  lookup_user (step w (Disconnect h1)) i = None ∧
  lookup_user (step w (Disconnect h2)) i = None ∧
  (∀ h j, h = h1 ∨ h = h2 → j ≠ i →
     lookup_user (step w (Disconnect h)) j = lookup_user w j).
Proof.
  intros H1 H2 Hv w.
  destruct (authenticate_twice (run initial tr) h1 h2 i H1 H2 Hv) as [Hreg Hsock].
  fold w in Hreg, Hsock.
  destruct (valid_is_Some _ Hv) as (? & [= <-] & Hne).
  split; [|split; [|split]].
  - unfold lookup_user. rewrite Hreg. apply jsmap_get_set_eq.
  - destruct (Hsock h1) as (s & Hs & Hc & Hu); [by left|].
    by apply (disconnect_deletes_identity w h1 s i).
  - destruct (Hsock h2) as (s & Hs & Hc & Hu); [by right|].
    by apply (disconnect_deletes_identity w h2 s i).
  - intros h j Hh Hj. destruct (Hsock h Hh) as (s & Hs & Hc & Hu).
    by apply (disconnect_deletes_identity w h s i).
Qed.

Lemma disconnect_removes_entry_whatever_handle_witness :
  let tr := [Connection "H1"; Connection "H2"] in
  let w := run (run initial tr) [Authenticate "H1" (Some "user_alice");
                                 Authenticate "H2" (Some "user_alice")] in
  is_connected (run initial tr) "H1" = true ∧
  is_connected (run initial tr) "H2" = true ∧
  valid (validateUserType (Some "user_alice")) = true ∧
  lookup_user w "user_alice" = Some "H2" ∧
  lookup_user (step w (Disconnect "H1")) "user_alice" = None.
Proof.
  assert (is_connected (run initial [Connection "H1"; Connection "H2"]) "H1" = true)
    as H1 by (vm_compute; reflexivity).
  assert (is_connected (run initial [Connection "H1"; Connection "H2"]) "H2" = true)
    as H2 by (vm_compute; reflexivity).
  assert (valid (validateUserType (Some "user_alice")) = true)
    as Hv by (vm_compute; reflexivity).
  pose proof (disconnect_removes_entry_whatever_handle
                [Connection "H1"; Connection "H2"] "H1" "H2" "user_alice" H1 H2 Hv)
    as (Hget & Hstale & _).
  split; [exact H1|]. split; [exact H2|]. split; [exact Hv|].
  split; [exact Hget | exact Hstale].
Defined.

(** C1, as the specification states it, fails: with "user_alice"
    registered by H1 and then by H2, the disconnect of the stale H1 does
    not leave the entry at H2; the entry is gone. *)
Lemma stale_disconnect_evicts_newer_session :
  let w := run initial [Connection "H1"; Connection "H2";
                        Authenticate "H1" (Some "user_alice");
                        Authenticate "H2" (Some "user_alice")] in
  lookup_user w "user_alice" = Some "H2" ∧
  lookup_user (step w (Disconnect "H1")) "user_alice" = None ∧
  ¬ lookup_user (step w (Disconnect "H1")) "user_alice" = Some "H2".
Proof.
  cbv zeta. split; [|split].
  - vm_compute. reflexivity.
  - vm_compute. reflexivity.
  - vm_compute. discriminate.
Qed.

(** ** How one event changes the clock, one socket and the registry *)

Lemma on_reconnect_sockets (w : World) (sid : string) (s : Socket) :
  sockets (on_reconnect w sid s) = sockets w ∧ now (on_reconnect w sid s) = now w.
Proof.
  unfold on_reconnect. destruct (sock_userId s) as [u|]; [|done].
  destruct (truthy (Some u)); done.
Qed.

Lemma on_authenticate_frame (w : World) (sid : string) (s : Socket) (x : option string) :
  now (on_authenticate w sid s x) = now w ∧
  ∀ y, y ≠ sid → sockets (on_authenticate w sid s x) !! y = sockets w !! y.
Proof.
  destruct (valid (validateUserType x)) eqn:Hv.
  - destruct (valid_is_Some x Hv) as (u & -> & _).
    rewrite on_authenticate_valid by done. cbn. split; [done|].
    intros y Hy. by rewrite lookup_insert_ne.
  - rewrite on_authenticate_invalid by done. cbn. split; [done|].
    intros y Hy. by rewrite lookup_insert_ne.
Qed.

Lemma close_socket_frame (w : World) (sid : string) :
  now (close_socket w sid) = now w ∧
  ∀ y, y ≠ sid → sockets (close_socket w sid) !! y = sockets w !! y.
Proof.
  destruct (is_connected w sid) eqn:Hc.
  - apply is_connected_true in Hc as (s & Hs & Hc).
    rewrite (close_socket_open w sid s) by done. cbn. split; [done|].
    intros y Hy. by rewrite lookup_insert_ne.
  - by rewrite close_socket_closed.
Qed.

Lemma step_now (w : World) (e : event) :
  now (step w e) = match e with Tick dt => now w + dt | _ => now w end.
Proof.
  destruct e as [x|x v|x|x|dt]; cbn [step].
  - unfold on_connection. by destruct (sockets w !! x).
  - unfold on_socket. destruct (sockets w !! x) as [s|]; [|done].
    destruct (connected s); [|done]. apply on_authenticate_frame.
  - unfold on_socket. destruct (sockets w !! x) as [s|]; [|done].
    destruct (connected s); [|done]. apply on_reconnect_sockets.
  - apply close_socket_frame.
  - apply tick_spec.
Qed.

(** An event that is not sent by the client of [sid] leaves the socket as
    it is, except that a tick times it out when its timer is due. *)
Lemma step_not_from_client (w : World) (e : event) (sid : string) (s : Socket) :
  from_client sid e = false → sockets w !! sid = Some s →
  sockets (step w e) !! sid =
    Some (match e with
          | Tick dt => if timer_due (now w + dt) s then timed_out s else s
          | _ => s
          end).
Proof.
  intros He Hs. destruct e as [x|x v|x|x|dt]; cbn [step from_client] in *.
  - unfold on_connection. destruct (sockets w !! x) eqn:Hx; [done|].
    cbn. rewrite lookup_insert_ne; [done | congruence].
  - apply bool_decide_eq_false in He. unfold on_socket.
    destruct (sockets w !! x) as [sx|]; [|done]. destruct (connected sx); [|done].
    destruct (on_authenticate_frame w x sx v) as [_ ->]; done.
  - unfold on_socket.
    destruct (sockets w !! x) as [sx|]; [|done]. destruct (connected sx); [|done].
    destruct (on_reconnect_sockets w x sx) as [-> _]. done.
  - apply bool_decide_eq_false in He.
    destruct (close_socket_frame w x) as [_ ->]; done.
  - destruct (tick_spec w dt) as (_ & _ & _ & ->). by rewrite Hs.
Qed.

(** A socket without an identity, under any event but its own
    [authenticate]: it keeps no identity, and if it is still open it is
    unchanged and no due timer was passed. *)
Lemma step_anonymous_socket (w : World) (e : event) (sid : string) (s : Socket) :
  is_authenticate sid e = false →
  sockets w !! sid = Some s → sock_userId s = None →
  ∃ s', sockets (step w e) !! sid = Some s' ∧ sock_userId s' = None ∧
        (connected s' = true →
           s' = s ∧ match e with
                    | Tick dt => timer_due (now w + dt) s = false
                    | _ => True
                    end).
Proof.
  intros He Hs Hu. destruct (from_client sid e) eqn:Hfrom.
  - destruct e as [x|x v|x|x|dt]; cbn [from_client is_authenticate] in *;
      try done; try congruence; apply bool_decide_eq_true in Hfrom as ->;
      cbn [step].
    + exists s. unfold on_socket. rewrite Hs. destruct (connected s); [|done].
      rewrite on_reconnect_anonymous by by rewrite Hu. done.
    + destruct (connected s) eqn:Hc.
      * rewrite (close_socket_open w sid s) by done. cbn [sockets].
        rewrite lookup_insert_eq. eexists. split; [done|]. done.
      * rewrite close_socket_closed by (unfold is_connected; by rewrite Hs).
        exists s. by rewrite Hc.
  - rewrite (step_not_from_client w e sid s) by done.
    eexists. split; [done|]. destruct e as [x|x v|x|x|dt]; try done.
    destruct (timer_due (now w + dt) s); [|done].
    unfold timed_out. cbn. by rewrite Hu.
Qed.

(** Where a registry entry can come from. *)
Lemma step_registry_entry (w : World) (e : event) (u h : string) :
  (u, h) ∈ JsMap.entries (userSockets (step w e)) →
  (u, h) ∈ JsMap.entries (userSockets w) ∨
  (∃ s, sockets w !! h = Some s ∧ connected s = true ∧
        ((∃ x, e = Authenticate h x) ∨ (e = Reconnect h ∧ sock_userId s = Some u))).
Proof.
  destruct e as [x|x v|x|x|dt]; cbn [step].
  - unfold on_connection. destruct (sockets w !! x); by left.
  - unfold on_socket. destruct (sockets w !! x) as [s|] eqn:Hs; [|by left].
    destruct (connected s) eqn:Hc; [|by left].
    destruct (valid (validateUserType v)) eqn:Hv.
    + destruct (valid_is_Some v Hv) as (i & -> & _).
      rewrite on_authenticate_valid by done. cbn [userSockets].
      intros [[-> ->]|Hin]%jsmap_elem_set; [|by left].
      right. exists s. eauto.
    + rewrite on_authenticate_invalid by done. by left.
  - unfold on_socket. destruct (sockets w !! x) as [s|] eqn:Hs; [|by left].
    destruct (connected s) eqn:Hc; [|by left].
    destruct (truthy (sock_userId s)) eqn:T.
    + destruct (sock_userId s) as [i|] eqn:Hi; [|done].
      rewrite (on_reconnect_identified w x s i); [|done|by intros ->].
      cbn [userSockets]. intros [[-> ->]|Hin]%jsmap_elem_set; [|by left].
      right. exists s. eauto.
    + rewrite on_reconnect_anonymous by done. by left.
  - destruct (is_connected w x) eqn:Hc.
    + apply is_connected_true in Hc as (s & Hs & Hc).
      rewrite (close_socket_open w x s) by done. cbn [userSockets].
      destruct (truthy (sock_userId s)); [|by left].
      intros [_ Hin]%jsmap_elem_delete. by left.
    + rewrite close_socket_closed by done. by left.
  - destruct (tick_spec w dt) as (-> & _). by left.
Qed.

(** ** Reconnection *)

(** C9. A connection that holds an identity from an earlier successful
    authentication and receives a reconnect signal is registered again
    under that identity with its own handle, the entries of the other
    identities staying as they are, and the success acknowledgment is
    emitted again to it: the event "auth_success" with the identity, the
    role the classifier gives it (admin or user) and the message
    "Re-authentication successful as" that role; no [authenticate] call is
    involved and the sockets are as before. *)
Theorem reconnect_reregisters (tr : list event) (sid u : string) (s : Socket) :
  sockets (run initial tr) !! sid = Some s →
  connected s = true →
  sock_userId s = Some u →
  let w := run initial tr in
  let w' := step w (Reconnect sid) in
  ∃ role,
    userType (validateUserType (Some u)) = Some role ∧
    (role = "admin" ∨ role = "user") ∧
    lookup_user w' u = Some sid ∧
    (∀ j, j ≠ u → lookup_user w' j = lookup_user w j) ∧
    outbox w' =
      (outbox w ++
       [ToSocket sid "auth_success"
          [("userId", VString u);
           ("userType", VString role);
           ("message", VString ("Re-authentication successful as " ++ role))]])%list ∧
    sockets w' = sockets w.
Proof.
  intros Hs Hc Hu w w'.
  destruct (inv_socket_identity _ (registry_inv_reachable tr) sid s u Hs Hu)
    as (Hv & Hrole & _).
  destruct (valid_is_Some _ Hv) as (? & [= <-] & Hne).
  assert (∃ role, userType (validateUserType (Some u)) = Some role ∧
                  (role = "admin" ∨ role = "user")) as (role & Hr & Hcases).
  { rewrite validateUserType_present by done. cbv zeta.
    rewrite validateUserType_present in Hv by done. cbv zeta in Hv.
    destruct (negb (startsWith u "admin_") && _); [done|].
    cbn [userType]. destruct (startsWith u "admin_"); eexists; eauto. }
  exists role. rewrite Hr in Hrole.
  assert (w' = {| userSockets := JsMap.set (userSockets w) u sid;
                  sockets := sockets w; now := now w;
                  outbox := outbox w ++ [reauth_success sid u (sock_userType s)] |})
    as ->.
  { unfold w'. cbn [step]. rewrite (on_socket_connected w sid s) by done.
    by apply on_reconnect_identified. }
  cbn [userSockets outbox sockets]. unfold lookup_user. cbn [userSockets].
  rewrite jsmap_get_set_eq, Hrole.
  split; [done|]. split; [done|]. split; [done|]. split; [|done].
  intros j Hj. by apply jsmap_get_set_ne.
Qed.

Lemma reconnect_reregisters_witness :
  let tr := [Connection "s1"; Authenticate "s1" (Some "admin_42");
             Connection "s2"; Authenticate "s2" (Some "admin_42")] in
  let s := {| sock_userId := Some "admin_42"; sock_isAdmin := Some true;
              sock_userType := Some "admin"; authTimeout := None;
              connected := true |} in
  sockets (run initial tr) !! "s1" = Some s ∧
  lookup_user (run initial tr) "admin_42" = Some "s2" ∧
  lookup_user (step (run initial tr) (Reconnect "s1")) "admin_42" = Some "s1".
Proof.
  cbv zeta.
  assert (sockets (run initial [Connection "s1"; Authenticate "s1" (Some "admin_42");
                                Connection "s2"; Authenticate "s2" (Some "admin_42")])
            !! "s1"
          = Some {| sock_userId := Some "admin_42"; sock_isAdmin := Some true;
                    sock_userType := Some "admin"; authTimeout := None;
                    connected := true |}) as Hs by (vm_compute; reflexivity).
  split; [exact Hs|]. split; [vm_compute; reflexivity|].
  destruct (reconnect_reregisters _ "s1" "admin_42" _ Hs eq_refl eq_refl)
    as (role & _ & _ & Hreg & _).
  exact Hreg.
Defined.

(** ** The authentication deadline *)

Lemma timer_due_pending (t d : N) (s : Socket) :
  authTimeout s = Some d → timer_due t s = (d <=? t).
Proof. unfold timer_due. by intros ->. Qed.

Lemma timer_due_spent (t : N) (s : Socket) :
  authTimeout s = None → timer_due t s = false.
Proof. unfold timer_due. by intros ->. Qed.

Lemma jsmap_values_entries {V : Type} (m : JsMap.t V) (v : V) :
  v ∈ JsMap.values m ↔ ∃ k, (k, v) ∈ JsMap.entries m.
Proof.
  unfold JsMap.values, JsMap.entries. rewrite list_elem_of_fmap. split.
  - intros ([k v'] & -> & Hin). by exists k.
  - intros (k & Hin). by exists (k, v).
Qed.

Lemma awaiting_auth_connection (w : World) (sid : string) :
  registry_inv w → sockets w !! sid = None →
  awaiting_auth sid (now w + AUTH_TIMEOUT_MS) (step w (Connection sid)).
Proof.
  intros Hinv Hfresh. cbn [step]. unfold on_connection. rewrite Hfresh.
  eexists. cbn [sockets userSockets now with_socket].
  rewrite lookup_insert_eq. split; [done|]. split; [done|]. split.
  - intros (u & Hin)%jsmap_values_entries.
    destruct (inv_values_known _ Hinv u sid Hin) as (s & Hs & _). congruence.
  - intros _. cbn. split; [done|]. unfold AUTH_TIMEOUT_MS. lia.
Qed.

Lemma awaiting_auth_step (w : World) (e : event) (sid : string) (d : N) :
  is_authenticate sid e = false →
  awaiting_auth sid d w → awaiting_auth sid d (step w e).
Proof.
  intros He (s & Hs & Hu & Hval & Hopen).
  destruct (step_anonymous_socket w e sid s He Hs Hu) as (s' & Hs' & Hu' & Hc').
  exists s'. split; [done|]. split; [done|]. split.
  - intros (u & Hin)%jsmap_values_entries.
    apply step_registry_entry in Hin as [Hin|(s0 & Hs0 & _ & [[x ->]|[-> Hid]])].
    + apply Hval, jsmap_values_entries. by exists u.
    + cbn in He. by rewrite bool_decide_eq_false in He.
    + congruence.
  - intros Hc. destruct (Hc' Hc) as [-> Hdue].
    destruct (Hopen Hc) as [Ht Hnow]. split; [done|].
    rewrite step_now. destruct e as [x|x v|x|x|dt]; try done.
    rewrite (timer_due_pending _ d) in Hdue by done. by apply N.leb_gt in Hdue.
Qed.

Lemma awaiting_auth_run (tr : list event) (w : World) (sid : string) (d : N) :
  Forall (λ e, is_authenticate sid e = false) tr →
  awaiting_auth sid d w → awaiting_auth sid d (run w tr).
Proof.
  intros Htr. revert w. induction Htr as [|e tr He _ IH]; intros w Hw; [done|].
  apply IH. by apply awaiting_auth_step.
Qed.

Lemma open_until_step (w : World) (e : event) (sid : string) (d : N) :
  from_client sid e = false →
  open_until sid d w → open_until sid d (step w e).
Proof.
  intros He (s & Hs & Hopen). eexists. split.
  { by apply step_not_from_client. }
  rewrite step_now. destruct e as [x|x v|x|x|dt]; try done.
  intros Hnow. destruct Hopen as [Hc Ht]; [lia|].
  rewrite (timer_due_pending _ d) by done.
  destruct (N.leb_spec d (now w + dt)); [lia | done].
Qed.

Lemma open_until_connection (w : World) (sid : string) :
  sockets w !! sid = None →
  open_until sid (now w + AUTH_TIMEOUT_MS) (step w (Connection sid)).
Proof.
  intros Hfresh. cbn [step]. unfold on_connection. rewrite Hfresh.
  eexists. cbn [sockets with_socket]. rewrite lookup_insert_eq. done.
Qed.

Lemma open_until_run (tr : list event) (w : World) (sid : string) (d : N) :
  Forall (λ e, from_client sid e = false) tr →
  open_until sid d w → open_until sid d (run w tr).
Proof.
  intros Htr. revert w. induction Htr as [|e tr He _ IH]; intros w Hw; [done|].
  apply IH. by apply open_until_step.
Qed.

(** C5. A connection that never calls [authenticate] is never a value of
    the registry, and from 30 seconds after it connected it is closed; if
    its client sends nothing at all, it is open until then. *)
Theorem unauthenticated_connection_times_out (tr0 tr : list event) (sid : string) :
  sockets (run initial tr0) !! sid = None →
  Forall (λ e, is_authenticate sid e = false) tr →
  let w0 := run initial tr0 in
  let w := run (step w0 (Connection sid)) tr in
  AUTH_TIMEOUT_MS = 30000 ∧
  (sid ∉ JsMap.values (userSockets w)) ∧
  (now w0 + AUTH_TIMEOUT_MS ≤ now w → is_connected w sid = false) ∧
  (Forall (λ e, from_client sid e = false) tr →
   now w < now w0 + AUTH_TIMEOUT_MS → is_connected w sid = true).
Proof.
  intros Hfresh Htr w0 w.
  pose proof (awaiting_auth_connection w0 sid (registry_inv_reachable tr0) Hfresh) as H0.
  pose proof (awaiting_auth_run tr _ sid _ Htr H0) as (s & Hs & Hu & Hval & Hopen).
  fold w in Hs, Hval, Hopen.
  split; [done|]. split; [done|]. split.
  - intros Hlate. unfold is_connected. rewrite Hs.
    destruct (connected s); [|done]. destruct Hopen as [_ ?]; [done|]. lia.
  - intros Hquiet Hearly.
    pose proof (open_until_connection w0 sid Hfresh) as H1.
    pose proof (open_until_run tr _ sid _ Hquiet H1) as (s1 & Hs1 & Hopen1).
    fold w in Hs1, Hopen1. unfold is_connected. rewrite Hs1. by apply Hopen1.
Qed.

Lemma unauthenticated_connection_times_out_witness :
  let tr := [Tick 29999; Reconnect "s1"; Tick 1] in
  let w := run (step (run initial []) (Connection "s1")) tr in
  sockets (run initial []) !! "s1" = None ∧
  Forall (λ e, is_authenticate "s1" e = false) tr ∧
  now (run initial []) + AUTH_TIMEOUT_MS ≤ now w ∧
  is_connected w "s1" = false.
Proof.
  cbv zeta.
  assert (sockets (run initial []) !! "s1" = None) as Hfresh by reflexivity.
  assert (Forall (λ e, is_authenticate "s1" e = false)
            [Tick 29999; Reconnect "s1"; Tick 1]) as Htr
    by (repeat constructor).
  assert (now (run initial []) + AUTH_TIMEOUT_MS ≤
          now (run (step (run initial []) (Connection "s1"))
                 [Tick 29999; Reconnect "s1"; Tick 1])) as Hlate
    by (vm_compute; discriminate).
  split; [exact Hfresh|]. split; [exact Htr|]. split; [exact Hlate|].
  exact (proj1 (proj2 (proj2
    (unauthenticated_connection_times_out [] _ "s1" Hfresh Htr))) Hlate).
Defined.

(** ** Rejected identities *)

Lemma step_authenticate_invalid (w : World) (sid : string) (s : Socket)
    (x : option string) :
  sockets w !! sid = Some s → connected s = true →
  valid (validateUserType x) = false →
  step w (Authenticate sid x) =
    {| userSockets := userSockets w;
       sockets := <[sid := {| sock_userId := sock_userId s;
                             sock_isAdmin := sock_isAdmin s;
                             sock_userType := sock_userType s;
                             authTimeout := None;
                             connected := true |}]> (sockets w);
       now := now w;
       outbox := outbox w ++ [auth_error sid (message (validateUserType x))] |}.
Proof.
  intros Hs Hc Hv. cbn [step].
  rewrite (on_socket_connected w sid s) by done.
  rewrite on_authenticate_invalid by done. by rewrite Hc.
Qed.

Lemma spent_timer_run (tr : list event) (w : World) (sid : string) (s : Socket) :
  Forall (λ e, from_client sid e = false) tr →
  sockets w !! sid = Some s → authTimeout s = None →
  sockets (run w tr) !! sid = Some s.
Proof.
  intros Htr. revert w. induction Htr as [|e tr He _ IH]; intros w Hs Ht; [done|].
  cbn [run foldl]. apply IH; [|done].
  rewrite (step_not_from_client w e sid s) by done.
  destruct e; try done. by rewrite timer_due_spent.
Qed.

(** C2, as the code has it.  When a connection that is still
    unauthenticated submits an identity the classifier rejects, the server
    emits [auth_error], creates no registry entry, leaves the connection
    open and unauthenticated, and has cancelled the authentication timer:
    whatever time passes and whatever other connections do, the connection
    stays open and unauthenticated until its own client acts. *)
Theorem invalid_identity_rejected (w : World) (sid : string) (s : Socket)
    (x : option string) (tr : list event) :
  sockets w !! sid = Some s →
  connected s = true →
  sock_userId s = None →
  valid (validateUserType x) = false →
  Forall (λ e, from_client sid e = false) tr →
  let w1 := step w (Authenticate sid x) in
  let s1 := {| sock_userId := None; sock_isAdmin := sock_isAdmin s;
               sock_userType := sock_userType s; authTimeout := None;
               connected := true |} in
  outbox w1 = (outbox w ++ [auth_error sid (message (validateUserType x))])%list ∧
  userSockets w1 = userSockets w ∧
  sockets w1 !! sid = Some s1 ∧
  sockets (run w1 tr) !! sid = Some s1 ∧
  is_connected (run w1 tr) sid = true.
Proof.
  intros Hs Hc Hu Hv Htr w1 s1.
  assert (sockets w1 !! sid = Some s1) as Hs1.
  { unfold w1. rewrite (step_authenticate_invalid w sid s) by done.
    cbn [sockets]. rewrite lookup_insert_eq. unfold s1. by rewrite Hu. }
  assert (sockets (run w1 tr) !! sid = Some s1) as Hrun
    by by apply spent_timer_run.
  unfold w1 at 1 2. rewrite (step_authenticate_invalid w sid s) by done.
  cbn [outbox userSockets]. repeat split; try done.
  unfold is_connected. by rewrite Hrun.
Qed.

Lemma invalid_identity_rejected_witness :
  let w := run initial [Connection "s1"] in
  let s := {| sock_userId := None; sock_isAdmin := None; sock_userType := None;
              authTimeout := Some 30000; connected := true |} in
  let tr := [Tick 30000; Connection "s2"; Tick 86400000] in
  sockets w !! "s1" = Some s ∧
  valid (validateUserType (Some "bob")) = false ∧
  Forall (λ e, from_client "s1" e = false) tr ∧
  is_connected (run (step w (Authenticate "s1" (Some "bob"))) tr) "s1" = true.
Proof.
  cbv zeta.
  assert (sockets (run initial [Connection "s1"]) !! "s1" =
          Some {| sock_userId := None; sock_isAdmin := None; sock_userType := None;
                  authTimeout := Some 30000; connected := true |}) as Hs
    by (vm_compute; reflexivity).
  assert (valid (validateUserType (Some "bob")) = false) as Hv
    by (vm_compute; reflexivity).
  assert (Forall (λ e, from_client "s1" e = false)
            [Tick 30000; Connection "s2"; Tick 86400000]) as Htr
    by (repeat constructor).
  split; [exact Hs|]. split; [exact Hv|]. split; [exact Htr|].
  exact (proj2 (proj2 (proj2 (proj2
    (invalid_identity_rejected _ "s1" _ (Some "bob") _ Hs eq_refl eq_refl Hv Htr))))).
Defined.

(** C2, as the specification states it, fails: a connection that
    submitted the rejected identity "bob" is still open and unauthenticated
    when its 30-second deadline has elapsed, and long after; the timer was
    cleared by the attempt. *)
Lemma deadline_cancelled_by_invalid_attempt :
  let w := run initial [Connection "s1"; Authenticate "s1" (Some "bob"); Tick 30000] in
  valid (validateUserType (Some "bob")) = false ∧
  now w = 0 + AUTH_TIMEOUT_MS ∧
  sock_userId <$> sockets w !! "s1" = Some None ∧
  is_connected w "s1" = true ∧
  ¬ is_connected w "s1" = false ∧
  is_connected (step w (Tick 86400000)) "s1" = true.
Proof.
  cbv zeta. repeat split; try (vm_compute; reflexivity).
  vm_compute. discriminate.
Qed.

(** ** The notification router *)

Lemma world_eta (w : World) :
  w = {| userSockets := userSockets w; sockets := sockets w; now := now w;
         outbox := outbox w |}.
Proof. by destruct w. Qed.

Lemma foldl_emit (l : list emission) (w : World) :
  foldl emit w l =
    {| userSockets := userSockets w; sockets := sockets w; now := now w;
       outbox := outbox w ++ l |}.
Proof.
  revert w. induction l as [|e l IH]; intros w; cbn [foldl].
  - rewrite app_nil_r. apply world_eta.
  - rewrite IH. unfold emit. cbn. by rewrite <- app_assoc.
Qed.

Lemma for_admins_spec (msgs : string → string → list emission)
    (l : list (string * string)) (w : World) :
  foldl (λ w kv, if startsWith (fst kv) "admin_"
                 then foldl emit w (msgs (fst kv) (snd kv)) else w) w l =
    {| userSockets := userSockets w; sockets := sockets w; now := now w;
       outbox := outbox w ++
                 flat_map (λ kv, msgs (fst kv) (snd kv))
                   (List.filter (λ kv, startsWith (fst kv) "admin_") l) |}.
Proof.
  revert w. induction l as [|[uid sid] l IH]; intros w; cbn [foldl List.filter flat_map].
  - rewrite app_nil_r. apply world_eta.
  - rewrite IH. cbn [fst snd]. destruct (startsWith uid "admin_"); [|done].
    rewrite foldl_emit. cbn [flat_map fst snd]. cbn. by rewrite <- app_assoc.
Qed.

Lemma classified_admin_startsWith (uid : string) :
  classified_admin uid = startsWith uid "admin_".
Proof.
  unfold classified_admin. destruct (decide (uid = EmptyString)) as [->|Hne]; [done|].
  rewrite validateUserType_present by done. cbv zeta.
  destruct (startsWith uid "admin_"); cbn [negb andb]; [done|].
  by destruct (negb (includes uid "_" || match_objectid uid)).
Qed.


Lemma filter_ext_bool {A : Type} (p q : A → bool) (l : list A) :
  (∀ x, p x = q x) → List.filter p l = List.filter q l.
Proof.
  intros H. induction l as [|x l IH]; [done|]. cbn. by rewrite H, IH.
Qed.


(** The administrators' loop sends, for each entry whose identity is
    classified as admin and in the order of the registry, the messages
    made for that entry; it changes nothing else. *)
Lemma emit_to_admins_spec (w : World) (msgs : string → string → list emission) :
  emit_to_admins w msgs =
    {| userSockets := userSockets w; sockets := sockets w; now := now w;
       outbox := outbox w ++
                 flat_map (λ kv, msgs (fst kv) (snd kv)) (admin_entries w) |}.
Proof.
  unfold emit_to_admins, for_entries. rewrite for_admins_spec.
  unfold admin_entries.
  rewrite (filter_ext_bool (λ kv : string * string, classified_admin (fst kv))
             (λ kv, startsWith (fst kv) "admin_")); [done|].
  intros kv. apply classified_admin_startsWith.
Qed.


Lemma send_to_user_absent (w : World) (x : option string) (ev : string)
    (data : list (string * jsval)) :
  get_socket_id w x = None → send_to_user w x ev data = (w, false).
Proof. unfold send_to_user. by intros ->. Qed.

Lemma send_to_user_frame (w : World) (x : option string) (ev : string)
    (data : list (string * jsval)) :
  userSockets (fst (send_to_user w x ev data)) = userSockets w ∧
  sockets (fst (send_to_user w x ev data)) = sockets w ∧
  now (fst (send_to_user w x ev data)) = now w.
Proof.
  unfold send_to_user. destruct (get_socket_id w x) as [sid|]; [|done].
  by destruct (truthy (Some sid)).
Qed.




(** ** The HTTP handlers leave the registry alone *)

Lemma userSockets_emit (w : World) (e : emission) :
  userSockets (emit w e) = userSockets w.
Proof. done. Qed.

Lemma userSockets_emit_to_admins (w : World) (msgs : string → string → list emission) :
  userSockets (emit_to_admins w msgs) = userSockets w.
Proof. by rewrite emit_to_admins_spec. Qed.

Lemma userSockets_foldl_emit (w : World) (l : list emission) :
  userSockets (foldl emit w l) = userSockets w.
Proof. by rewrite foldl_emit. Qed.

Lemma userSockets_send_to_user (w : World) (x : option string) (ev : string)
    (data : list (string * jsval)) :
  userSockets (fst (send_to_user w x ev data)) = userSockets w.
Proof. apply send_to_user_frame. Qed.

Create Rewrite HintDb registry_frame.
#[local] Hint Rewrite userSockets_emit userSockets_emit_to_admins
  userSockets_foldl_emit userSockets_send_to_user : registry_frame.

Ltac registry_frame :=
  cbv zeta;
  repeat (first [ progress cbn [fst] | case_match ]);
  autorewrite with registry_frame; try done.

Lemma predict_frame (w : World) (req : predict_request) (env : predict_env) :
  userSockets (fst (predict w req env)) = userSockets w.
Proof. unfold predict, predict_finish. registry_frame. Qed.

Lemma save_canvas_frame (w : World) (req : save_canvas_request) (env : save_canvas_env) :
  userSockets (fst (save_canvas w req env)) = userSockets w.
Proof. unfold save_canvas, send_all_admins. registry_frame. Qed.

Lemma feedback_patch_frame (w : World) (completed : bool) (env : feedback_patch_env) :
  userSockets (fst (feedback_patch w completed env)) = userSockets w.
Proof. unfold feedback_patch. registry_frame. Qed.

Lemma feedback_reply_frame (w : World) (req : feedback_reply_request)
    (env : feedback_reply_env) :
  userSockets (fst (feedback_reply w req env)) = userSockets w.
Proof. unfold feedback_reply. registry_frame. Qed.

Lemma user_notification_frame (w : World) (req : user_notification_request)
    (findOne : db_result bool) :
  userSockets (fst (user_notification w req findOne)) = userSockets w.
Proof.
  unfold user_notification. cbv zeta.
  destruct (un_userId req) as [userId|]; [|done].
  destruct (negb (truthy (Some userId))); [done|].
  match goal with
  | |- context [send_to_user ?w ?x ?ev ?data] =>
      pose proof (userSockets_send_to_user w x ev data) as Hf;
      destruct (send_to_user w x ev data) as [w' []]
  end; cbn [fst] in Hf; repeat case_match; done.
Qed.

Lemma review_image_frame (w : World) (req : review_request) (env : review_env) :
  userSockets (fst (review_image w req env)) = userSockets w.
Proof. unfold review_image. registry_frame. Qed.

(** C7. No send changes the registry: not the send to one user, not the
    send to all administrators, not a broadcast, and so none of the HTTP
    handlers built from them.  A send to an identity that is not
    registered takes the not-connected branch and leaves the whole state
    as it was; the notify-by-identity endpoint then answers
    "User not connected". *)
Theorem send_does_not_mutate_registry (w : World) :
  (∀ x ev data, userSockets (fst (send_to_user w x ev data)) = userSockets w) ∧
  (∀ ev data, userSockets (send_all_admins w ev data) = userSockets w) ∧
  (∀ ev data, userSockets (emit w (ToAll ev data)) = userSockets w) ∧
  (∀ req env, userSockets (fst (predict w req env)) = userSockets w) ∧
  (∀ req env, userSockets (fst (save_canvas w req env)) = userSockets w) ∧
  (∀ completed env, userSockets (fst (feedback_patch w completed env)) = userSockets w) ∧
  (∀ req env, userSockets (fst (feedback_reply w req env)) = userSockets w) ∧
  (∀ req findOne, userSockets (fst (user_notification w req findOne)) = userSockets w) ∧
  (∀ req env, userSockets (fst (review_image w req env)) = userSockets w) ∧
  (∀ i ev data, lookup_user w i = None → send_to_user w (Some i) ev data = (w, false)) ∧
  (∀ req findOne i,
     un_userId req = Some i → lookup_user w i = None →
     status (snd (user_notification w req findOne)) = 200 →
     user_notification w req findOne =
       (w, {| status := 200;
              body := [("message", VString "User not connected, notification queued")] |})).
Proof.
  repeat split.
  - apply userSockets_send_to_user.
  - intros. apply userSockets_emit_to_admins.
  - apply predict_frame.
  - apply save_canvas_frame.
  - apply feedback_patch_frame.
  - apply feedback_reply_frame.
  - apply user_notification_frame.
  - apply review_image_frame.
  - intros i ev data Hi. by apply send_to_user_absent.
  - intros req findOne i Hreq Hi. unfold user_notification. rewrite Hreq. cbv zeta.
    rewrite send_to_user_absent by done.
    repeat case_match; cbn [snd status]; done.
Qed.

Lemma send_does_not_mutate_registry_witness :
  let w := run initial [Connection "s1"; Authenticate "s1" (Some "admin_42")] in
  let req := {| un_userId := Some "user_bob"; un_title := Some "hello";
                un_message := None; un_type := None; un_details := VAtom AUndefined |} in
  lookup_user w "user_bob" = None ∧
  status (snd (user_notification w req (DbReturns true))) = 200 ∧
  user_notification w req (DbReturns true) =
    (w, {| status := 200;
           body := [("message", VString "User not connected, notification queued")] |}).
Proof.
  cbv zeta.
  assert (lookup_user (run initial [Connection "s1"; Authenticate "s1" (Some "admin_42")])
            "user_bob" = None) as Hi by (vm_compute; reflexivity).
  assert (status (snd (user_notification
            (run initial [Connection "s1"; Authenticate "s1" (Some "admin_42")])
            {| un_userId := Some "user_bob"; un_title := Some "hello";
               un_message := None; un_type := None; un_details := VAtom AUndefined |}
            (DbReturns true))) = 200) as Hst by (vm_compute; reflexivity).
  split; [exact Hi|]. split; [exact Hst|].
  exact (proj2 (proj2 (proj2 (proj2 (proj2 (proj2 (proj2 (proj2 (proj2 (proj2
    (send_does_not_mutate_registry _))))))))))
    {| un_userId := Some "user_bob"; un_title := Some "hello";
       un_message := None; un_type := None; un_details := VAtom AUndefined |}
    (DbReturns true) "user_bob" eq_refl Hi Hst).
Defined.

(** ** A target without a live connection *)

Lemma user_notification_status (w w' : World) (req : user_notification_request)
    (findOne : db_result bool) :
  status (snd (user_notification w req findOne)) =
  status (snd (user_notification w' req findOne)).
Proof.
  unfold user_notification. cbv zeta.
  destruct (un_userId req) as [userId|]; [|done].
  destruct (negb (truthy (Some userId))); [done|].
  assert (∀ (r : World * bool),
            status (snd (let (w0, b) := r in
                         if b then
                           (w0, {| status := 200;
                                   body := [("message",
                                             VString "Notification sent successfully")] |})
                         else
                           (w0, {| status := 200;
                                   body := [("message",
                                             VString "User not connected, notification queued")] |})))
            = 200) as H200 by (by intros [? []]).
  destruct (negb (startsWith userId "admin_") && match_objectid userId).
  - destruct findOne as [msg|[]]; [done| |done]. by rewrite !H200.
  - by rewrite !H200.
Qed.

Lemma feedback_patch_status (w w' : World) (completed : bool) (env : feedback_patch_env) :
  status (snd (feedback_patch w completed env)) =
  status (snd (feedback_patch w' completed env)).
Proof. unfold feedback_patch. cbv zeta. repeat case_match; done. Qed.

Lemma feedback_reply_status (w w' : World) (req : feedback_reply_request)
    (env : feedback_reply_env) :
  status (snd (feedback_reply w req env)) = status (snd (feedback_reply w' req env)).
Proof. unfold feedback_reply. cbv zeta. repeat case_match; done. Qed.

Lemma predict_status (w w' : World) (req : predict_request) (env : predict_env) :
  status <$> snd (predict w req env) = status <$> snd (predict w' req env).
Proof. unfold predict, predict_finish. cbv zeta. repeat case_match; done. Qed.

Lemma review_image_status (w w' : World) (req : review_request) (env : review_env) :
  status (snd (review_image w req env)) = status (snd (review_image w' req env)).
Proof. unfold review_image. cbv zeta. repeat case_match; done. Qed.

Lemma send_to_user_outbox (w : World) (x : option string) (ev : string)
    (data : list (string * jsval)) :
  outbox (fst (send_to_user w x ev data)) = (outbox w ++ user_delivery w x ev data)%list.
Proof.
  unfold send_to_user, user_delivery. destruct (get_socket_id w x) as [sid|].
  - destruct (truthy (Some sid)); cbn; [done | by rewrite app_nil_r].
  - cbn. by rewrite app_nil_r.
Qed.

Lemma user_delivery_ext (w w' : World) (x : option string) (ev : string)
    (data : list (string * jsval)) :
  userSockets w' = userSockets w →
  user_delivery w' x ev data = user_delivery w x ev data.
Proof. intros H. unfold user_delivery, get_socket_id. by rewrite H. Qed.

Lemma admin_entries_ext (w w' : World) :
  userSockets w' = userSockets w → admin_entries w' = admin_entries w.
Proof. intros H. unfold admin_entries. by rewrite H. Qed.

Lemma dead_connection (w : World) (x : option string) (sid : string) :
  has_live_connection w x = false → sid ∈ connections_of w x →
  is_connected w sid = false.
Proof.
  unfold has_live_connection. intros Hdead Hin.
  destruct (is_connected w sid) eqn:E; [|done].
  rewrite <- Hdead. symmetry. apply existsb_exists.
  exists sid. split; [by apply list_elem_of_In | done].
Qed.

Lemma handle_in_connections (w : World) (x : option string) (sid : string) :
  get_socket_id w x = Some sid → sid ∈ connections_of w x.
Proof.
  intros H. unfold connections_of. rewrite H. apply elem_of_app. left.
  apply list_elem_of_here.
Qed.

(** An identity without a live connection: what is sent to it is
    addressed to a closed socket. *)
Lemma user_delivery_unreceived (w : World) (x : option string) (ev : string)
    (data : list (string * jsval)) :
  has_live_connection w x = false → unreceived w (user_delivery w x ev data).
Proof.
  intros Hdead e sid He. unfold user_delivery in He.
  destruct (get_socket_id w x) as [h|] eqn:Hget; [|by apply not_elem_of_nil in He].
  destruct (truthy (Some h)); [|by apply not_elem_of_nil in He].
  apply list_elem_of_singleton in He as ->. unfold receives.
  destruct (decide (h = sid)) as [->|Hne].
  - rewrite (dead_connection w x sid Hdead); [done|]. by apply handle_in_connections.
  - rewrite bool_decide_eq_false_2 by done. apply andb_false_r.
Qed.

Lemma user_delivery_absent (w : World) (x : option string) (ev : string)
    (data : list (string * jsval)) :
  get_socket_id w x = None → user_delivery w x ev data = [].
Proof. unfold user_delivery. by intros ->. Qed.

Lemma send_to_user_sent_only (w : World) (x : option string) (ev : string)
    (data : list (string * jsval)) :
  sent_only w (fst (send_to_user w x ev data)) (user_delivery w x ev data).
Proof.
  unfold sent_only. destruct (send_to_user_frame w x ev data) as (? & ? & ?).
  by rewrite send_to_user_outbox.
Qed.

Lemma sent_only_refl (w : World) : sent_only w w [].
Proof. unfold sent_only. by rewrite app_nil_r. Qed.

Lemma sent_only_trans (w w1 w2 : World) (l1 l2 : list emission) :
  sent_only w w1 l1 → sent_only w1 w2 l2 → sent_only w w2 (l1 ++ l2).
Proof.
  intros (H1 & H2 & H3 & H4) (H5 & H6 & H7 & H8). unfold sent_only.
  rewrite H5, H6, H7, H8, H1, H2, H3, H4. by rewrite <- app_assoc.
Qed.

Lemma emit_to_admins_sent_only (w : World) (msgs : string → string → list emission) :
  sent_only w (emit_to_admins w msgs)
    (flat_map (λ kv, msgs (fst kv) (snd kv)) (admin_entries w)).
Proof. unfold sent_only. by rewrite emit_to_admins_spec. Qed.

Lemma foldl_emit_sent_only (w : World) (l : list emission) :
  sent_only w (foldl emit w l) l.
Proof. unfold sent_only. by rewrite foldl_emit. Qed.

Lemma unreceived_nil (w : World) : unreceived w [].
Proof. intros e sid He. by apply not_elem_of_nil in He. Qed.

(** C8. For each HTTP handler that notifies one identity, on a request
    whose own work succeeds (validation passes, the record is found, the
    database and the mail accept): when the target identity has no live
    connection (the registry holds no open connection for it and no open
    socket carries it), the response is 200 and the handler leaves the
    registry, the sockets and the clock as they were, so nothing is kept
    for a later delivery.  Whatever it emits for the target is addressed
    to the closed connection the registry still holds, and no socket
    receives it; the backup broadcast of the review handler reaches only
    sockets that are not connections of the target.  When the registry has
    no entry for the target, nothing at all is emitted for it.  What the
    administrators are sent is apart.  For every request the status of the
    response does not depend on the registry. *)
Theorem not_connected_dropped_and_200 (w : World) :
  (∀ req findOne i,
     un_userId req = Some i → i ≠ EmptyString →
     (startsWith i "admin_" = false → match_objectid i = true →
      findOne = DbReturns true) →
     has_live_connection w (Some i) = false →
     ∃ sent msg,
       sent_only w (fst (user_notification w req findOne)) sent ∧
       unreceived w sent ∧
       snd (user_notification w req findOne) =
         {| status := 200; body := [("message", VString msg)] |} ∧
       (msg = "Notification sent successfully" ∨
        msg = "User not connected, notification queued") ∧
       (lookup_user w i = None →
        fst (user_notification w req findOne) = w ∧
        msg = "User not connected, notification queued")) ∧
  (∀ completed env feedback,
     fp_found env = DbReturns (Some feedback) → fp_saved env = true →
     has_live_connection w (fb_userId feedback) = false →
     ∃ sent,
       sent_only w (fst (feedback_patch w completed env)) sent ∧
       unreceived w sent ∧
       snd (feedback_patch w completed env) =
         {| status := 200; body := feedback_json feedback completed |} ∧
       (get_socket_id w (fb_userId feedback) = None →
        fst (feedback_patch w completed env) = w)) ∧
  (∀ req env feedback,
     fr_found env = DbReturns (Some feedback) →
     fr_mailed env = DbReturns () → fr_saved env = DbReturns () →
     has_live_connection w (fb_userId feedback) = false →
     ∃ sent,
       sent_only w (fst (feedback_reply w req env)) sent ∧
       unreceived w sent ∧
       snd (feedback_reply w req env) =
         {| status := 200; body := [("message", VString "Reply sent successfully")] |} ∧
       (get_socket_id w (fb_userId feedback) = None →
        fst (feedback_reply w req env) = w)) ∧
  (∀ req env,
     is_Some (p_file req) → p_tempSaved env = true → p_exitCode env = 0%Z →
     (String.eqb (toLowerCase (p_result env)) "road" = true →
      p_imageSaved env = true ∧ truthy (p_userId req) = true ∧ p_entrySaved env = true) →
     has_live_connection w (p_userId req) = false →
     ∃ sent,
       sent_only w (fst (predict w req env))
         ((if String.eqb (toLowerCase (p_result env)) "road"
           then flat_map (λ kv, predict_admin_msgs req env (fst kv) (snd kv))
                  (admin_entries w)
           else []) ++ sent) ∧
       unreceived w sent ∧
       status <$> snd (predict w req env) = Some 200 ∧
       (get_socket_id w (p_userId req) = None → sent = [])) ∧
  (∀ req env imageEntry modifiedCount updatedEntry,
     truthy (rv_imageId req) = true → truthy (rv_reviewStatus req) = true →
     truthy (rv_reviewerId req) = true →
     rv_found env = DbReturns (Some imageEntry) →
     rv_updated env = DbReturns modifiedCount → modifiedCount ≠ 0 →
     rv_refetched env = DbReturns (Some updatedEntry) →
     has_live_connection w (re_userId updatedEntry) = false →
     ∃ sent,
       sent_only w (fst (review_image w req env))
         (sent ++ flat_map (λ kv, review_admin_msgs req updatedEntry (fst kv) (snd kv))
                    (admin_entries w)) ∧
       (∀ e sid, e ∈ sent → receives w sid e = true →
          (∃ data, e = ToAll "image-reviewed-broadcast" data) ∧
          sid ∉ connections_of w (re_userId updatedEntry)) ∧
       status (snd (review_image w req env)) = 200 ∧
       (get_socket_id w (re_userId updatedEntry) = None → sent = [])) ∧
  (∀ req env,
     status (snd (save_canvas w req env)) = 200 → admin_entries w = [] →
     fst (save_canvas w req env) = w) ∧
  (∀ w' req findOne,
     status (snd (user_notification w req findOne)) =
     status (snd (user_notification w' req findOne))) ∧
  (∀ w' completed env,
     status (snd (feedback_patch w completed env)) =
     status (snd (feedback_patch w' completed env))) ∧
  (∀ w' req env,
     status (snd (feedback_reply w req env)) = status (snd (feedback_reply w' req env))) ∧
  (∀ w' req env,
     status <$> snd (predict w req env) = status <$> snd (predict w' req env)) ∧
  (∀ w' req env,
     status (snd (review_image w req env)) = status (snd (review_image w' req env))).
Proof.
  split; [|split; [|split; [|split; [|split; [|split;
    [|split; [|split; [|split; [|split]]]]]]]]].
  - intros req findOne i Hreq Hne Hdb Hdead. unfold user_notification.
    rewrite Hreq. cbn [truthy]. destruct (String.eqb_spec i EmptyString); [done|].
    cbn [negb]. cbv zeta.
    assert (negb (startsWith i "admin_") && match_objectid i = true →
            findOne = DbReturns true) as Hdb'.
    { intros [Ha Hm]%andb_true_iff. apply Hdb; [|done]. by destruct (startsWith i "admin_"). }
    match goal with
    | |- context [send_to_user w (Some i) ?ev ?data] =>
        pose proof (send_to_user_sent_only w (Some i) ev data) as Hsent;
        pose proof (user_delivery_unreceived w (Some i) ev data Hdead) as Hun;
        pose proof (send_to_user_absent w (Some i) ev data) as Habs;
        pose proof (user_delivery_absent w (Some i) ev data) as Hnil;
        destruct (send_to_user w (Some i) ev data) as [w' b];
        exists (user_delivery w (Some i) ev data)
    end.
    cbn [fst] in Hsent.
    assert (∀ r1 r2, (let dispatch := if b then (w', r1) else (w', r2) in
                      if negb (startsWith i "admin_") && match_objectid i
                      then match findOne with
                           | DbThrows msg =>
                               (w, {| status := 500;
                                      body := [("error",
                                                VString ("Error sending notification: " ++ msg))] |})
                           | DbReturns false =>
                               (w, {| status := 404;
                                      body := [("error", VString "User not found")] |})
                           | DbReturns true => dispatch
                           end
                      else dispatch) = (w', if b then r1 else r2)) as Heq.
    { intros r1 r2. cbv zeta.
      destruct (negb (startsWith i "admin_") && match_objectid i).
      - rewrite Hdb' by done. by destruct b.
      - by destruct b. }
    destruct b.
    + exists "Notification sent successfully".
      destruct (negb (startsWith i "admin_") && match_objectid i);
        [rewrite Hdb' by done|]; cbn [fst snd];
        (split; [done|]; split; [done|]; split; [done|]; split; [by left|]);
        intros Hget; by specialize (Habs Hget).
    + exists "User not connected, notification queued".
      destruct (negb (startsWith i "admin_") && match_objectid i);
        [rewrite Hdb' by done|]; cbn [fst snd];
        (split; [done|]; split; [done|]; split; [done|]; split; [by right|]);
        intros Hget; specialize (Habs Hget); by injection Habs as ->.
  - intros completed env feedback Hfound Hsaved Hdead. unfold feedback_patch.
    rewrite Hfound, Hsaved. cbn [negb]. cbv zeta.
    destruct (truthy (fb_userId feedback)).
    + match goal with
      | |- context [send_to_user w ?x ?ev ?data] =>
          exists (user_delivery w x ev data); cbn [fst snd];
          split; [apply send_to_user_sent_only|];
          split; [by apply user_delivery_unreceived|];
          split; [done|];
          intros Hget; by rewrite send_to_user_absent
      end.
    + exists []. cbn [fst snd]. split; [apply sent_only_refl|].
      split; [apply unreceived_nil|]. done.
  - intros req env feedback Hfound Hmail Hsaved Hdead. unfold feedback_reply.
    rewrite Hfound, Hmail, Hsaved. cbv zeta.
    destruct (truthy (fr_userId req) && truthy (fb_userId feedback)).
    + match goal with
      | |- context [send_to_user w ?x ?ev ?data] =>
          exists (user_delivery w x ev data); cbn [fst snd];
          split; [apply send_to_user_sent_only|];
          split; [by apply user_delivery_unreceived|];
          split; [done|];
          intros Hget; by rewrite send_to_user_absent
      end.
    + exists []. cbn [fst snd]. split; [apply sent_only_refl|].
      split; [apply unreceived_nil|]. done.
  - intros req env [file Hfile] Htemp Hexit Hroad Hdead. unfold predict.
    rewrite Hfile, Htemp, Hexit. cbn [negb Z.eqb].
    destruct (String.eqb (toLowerCase (p_result env)) "road").
    + destruct Hroad as (-> & -> & ->); [done|]. cbn [negb]. cbv zeta.
      unfold predict_finish. cbv zeta. cbn [fst snd].
      match goal with
      | |- context [send_to_user ?w1 ?x ?ev ?data] =>
          exists (user_delivery w x ev data);
          pose proof (sent_only_trans _ _ _ _ _
                        (emit_to_admins_sent_only w (predict_admin_msgs req env))
                        (send_to_user_sent_only w1 x ev data)) as Hsent;
          rewrite (user_delivery_ext w w1) in Hsent by apply userSockets_emit_to_admins
      end.
      split; [exact Hsent|].
      split; [by apply user_delivery_unreceived|]. split; [done|].
      apply user_delivery_absent.
    + unfold predict_finish. cbv zeta. cbn [fst snd app].
      match goal with
      | |- context [send_to_user w ?x ?ev ?data] =>
          exists (user_delivery w x ev data);
          split; [apply send_to_user_sent_only|];
          split; [by apply user_delivery_unreceived|];
          split; [done|]; apply user_delivery_absent
      end.
  - intros req env imageEntry modifiedCount updatedEntry Hid Hst Hrev Hfound Hupd Hn
      Hre Hdead.
    unfold review_image. rewrite Hid, Hst, Hrev, Hfound, Hupd, Hre. cbn [negb orb].
    destruct (N.eqb_spec modifiedCount 0); [done|]. cbv zeta. cbn [fst snd status].
    destruct (get_socket_id w (re_userId updatedEntry)) as [h|] eqn:Hget.
    + destruct (truthy (Some h)).
      * exists (review_user_msgs req updatedEntry h). split.
        { pose proof (sent_only_trans _ _ _ _ _
                        (foldl_emit_sent_only w (review_user_msgs req updatedEntry h))
                        (emit_to_admins_sent_only _ (review_admin_msgs req updatedEntry)))
            as Hsent.
          rewrite (admin_entries_ext w) in Hsent by apply userSockets_foldl_emit.
          exact Hsent. }
        split; [|done].
        intros e sid He Hrecv. unfold review_user_msgs in He. cbv zeta in He.
        apply andb_true_iff in Hrecv as [Hopen Haddr].
        assert (sid ∉ connections_of w (re_userId updatedEntry)) as Hnot.
        { intros Hin. rewrite (dead_connection w _ sid Hdead Hin) in Hopen. done. }
        apply elem_of_cons in He as [->|He].
        { apply bool_decide_eq_true in Haddr as ->.
          destruct Hnot. by apply handle_in_connections. }
        apply list_elem_of_singleton in He as ->. split; [by eexists | done].
      * exists []. split; [apply emit_to_admins_sent_only|].
        split; [|done]. intros e sid He. by apply not_elem_of_nil in He.
    + exists []. split; [apply emit_to_admins_sent_only|].
      split; [|done]. intros e sid He. by apply not_elem_of_nil in He.
  - intros req env Hst Hnone. unfold save_canvas in *. cbv zeta in *.
    repeat case_match; try done. cbn [fst]. unfold send_all_admins.
    rewrite emit_to_admins_spec, Hnone. cbn [flat_map].
    rewrite app_nil_r. symmetry. apply world_eta.
  - apply user_notification_status.
  - apply feedback_patch_status.
  - apply feedback_reply_status.
  - apply predict_status.
  - apply review_image_status.
Qed.

Lemma not_connected_dropped_and_200_witness :
  let w := run initial [Connection "s1"; Authenticate "s1" (Some "user_a");
                        Authenticate "s1" (Some "user_b"); Disconnect "s1"] in
  let req := {| un_userId := Some "user_a"; un_title := Some "Report reviewed";
                un_message := None; un_type := None; un_details := VAtom AUndefined |} in
  lookup_user w "user_a" = Some "s1" ∧
  has_live_connection w (Some "user_a") = false ∧
  status (snd (user_notification w req (DbReturns true))) = 200 ∧
  userSockets (fst (user_notification w req (DbReturns true))) = userSockets w.
Proof.
  cbv zeta.
  set (w := run initial [Connection "s1"; Authenticate "s1" (Some "user_a");
                         Authenticate "s1" (Some "user_b"); Disconnect "s1"]).
  set (req := {| un_userId := Some "user_a"; un_title := Some "Report reviewed";
                 un_message := None; un_type := None; un_details := VAtom AUndefined |}).
  assert (has_live_connection w (Some "user_a") = false) as Hdead
    by (vm_compute; reflexivity).
  split; [vm_compute; reflexivity|]. split; [exact Hdead|].
  destruct (proj1 (not_connected_dropped_and_200 w) req (DbReturns true) "user_a"
              eq_refl ltac:(discriminate) ltac:(discriminate) Hdead)
    as (sent & msg & (Hreg & _) & _ & Hsnd & _).
  split; [|exact Hreg]. rewrite Hsnd. reflexivity.
Defined.

(** * Further properties of the code *)

(** ** Identities shaped like database ids *)

Lemma chars_append (a b : string) : chars (a ++ b) = (chars a ++ chars b)%list.
Proof.
  unfold chars. induction a as [|c a IH]; [done|].
  rewrite append_String. cbn [list_ascii_of_string]. by rewrite IH.
Qed.

Lemma includes_chars (s p : string) (c : ascii) :
  includes s p = true → c ∈ chars p → c ∈ chars s.
Proof.
  intros (a & b & ->)%includes_spec Hc.
  rewrite !chars_append, !elem_of_app. auto.
Qed.

Lemma match_objectid_chars (u : string) (c : ascii) :
  match_objectid u = true → c ∈ chars u → hex_class c = true.
Proof.
  intros [_ Hall]%match_objectid_spec Hc.
  rewrite Forall_forall in Hall. apply hex_class_spec. by apply Hall.
Qed.

Lemma objectid_excludes (u p : string) (c : ascii) :
  match_objectid u = true → c ∈ chars p → hex_class c = false →
  includes u p = false.
Proof.
  intros Hu Hc Hnot. apply not_true_is_false. intros Hin.
  pose proof (match_objectid_chars u c Hu (includes_chars u p c Hin Hc)). congruence.
Qed.

Lemma startsWith_includes (s p : string) : startsWith s p = true → includes s p = true.
Proof.
  intros [r ->]%startsWith_spec. apply includes_spec. by exists EmptyString, r.
Qed.

Lemma objectid_shape (u : string) :
  match_objectid u = true →
  startsWith u "admin_" = false ∧ includes u "_" = false ∧ includes u "admin" = false.
Proof.
  intros Hu.
  assert (includes u "_" = false) as Hsep.
  { apply (objectid_excludes u "_" "_" Hu); [|done]. vm_compute. left. }
  assert (includes u "admin" = false) as Hadm.
  { apply (objectid_excludes u "admin" "m" Hu); [|done].
    vm_compute. do 2 right. left. }
  repeat split; try done.
  apply not_true_is_false. intros H%startsWith_includes.
  rewrite (objectid_excludes u "admin_" "_" Hu) in H; [done| |done].
  vm_compute. do 5 right. left.
Qed.

(** X1. An identity that matches the 24-hex-digit pattern has no
    separator and no admin prefix, and does not contain "admin": the
    classifier always gives it the user role, and the prefix test that
    guards the pattern in the handlers never decides. *)
Theorem objectid_classified_user (u : string) :
  match_objectid u = true →
  startsWith u "admin_" = false ∧
  includes u "_" = false ∧
  includes u "admin" = false ∧
  validateUserType (Some u) =
    {| valid := true; isAdmin := Some false; userType := Some "user";
       message := "Valid regular user" |}.
Proof.
  intros Hu. destruct (objectid_shape u Hu) as (Hpre & Hsep & Hadm).
  repeat split; try done.
  rewrite validateUserType_present.
  - cbv zeta. rewrite Hpre, Hsep, Hu. reflexivity.
  - by apply is_hex24_nonempty, match_objectid_spec.
Qed.

Lemma objectid_classified_user_witness :
  match_objectid "5f1a2b3c4d5e6f7a8b9c0d1e" = true ∧
  includes "5f1a2b3c4d5e6f7a8b9c0d1e" "admin" = false.
Proof.
  assert (match_objectid "5f1a2b3c4d5e6f7a8b9c0d1e" = true) as H
    by (vm_compute; reflexivity).
  split; [exact H|].
  exact (proj1 (proj2 (proj2 (objectid_classified_user _ H)))).
Defined.

(** ** POST /api/verify-auth *)

Lemma truthy_nonempty (u : string) : u ≠ EmptyString → truthy (Some u) = true.
Proof. intros H. cbn. by destruct (String.eqb_spec u EmptyString). Qed.

Lemma startsWith_nonempty (u p : string) :
  p ≠ EmptyString → startsWith u p = true → u ≠ EmptyString.
Proof. intros Hp [r ->]%startsWith_spec. by destruct p. Qed.

Lemma verify_auth_present (uid : string) (findOne : db_result (option user_doc)) :
  uid ≠ EmptyString →
  verify_auth (Some uid) findOne =
    if startsWith uid "admin_" then
      {| status := 200;
         body := [("authenticated", VAtom (ABool true));
                  ("userType", VString "admin");
                  ("isAdmin", VAtom (ABool true));
                  ("name", VString "Administrator");
                  ("message", VString "Admin authentication verified")] |}
    else if match_objectid uid then
      match findOne with
      | DbThrows _ =>
          {| status := 500;
             body := [("authenticated", VAtom (ABool false));
                      ("message", VString "Error verifying user authentication")] |}
      | DbReturns (Some user) => verify_auth (Some uid) (DbReturns (Some user))
      | DbReturns None =>
          {| status := 401;
             body := [("authenticated", VAtom (ABool false));
                      ("message", VString "Invalid user ID")] |}
      end
    else
      {| status := 401;
         body := [("authenticated", VAtom (ABool false));
                  ("message", VString "Invalid user ID")] |}.
Proof.
  intros Hne. unfold verify_auth. rewrite (truthy_nonempty uid Hne). cbn [negb].
  destruct (startsWith uid "admin_"); [done|]. cbv zeta.
  destruct (match_objectid uid) eqn:Hhex; [|done].
  destruct findOne as [msg|[user|]]; try done.
  destruct (objectid_shape uid Hhex) as (_ & _ & ->). done.
Qed.

(** X2. The lockout fallback of the database-error handler never runs:
    the database is asked only for an identity of 24 hex digits, which
    cannot contain "admin", so a failing lookup always gives status 500
    and no request is ever answered with the fallback message. *)
Theorem verify_auth_fallback_unreachable (userId : option string)
    (findOne : db_result (option user_doc)) :
  body_field (verify_auth userId findOne) "message" ≠
    Some (VString "Admin authentication verified (fallback)") ∧
  (∀ uid msg, userId = Some uid → findOne = DbThrows msg →
     startsWith uid "admin_" = false → match_objectid uid = true →
     status (verify_auth userId findOne) = 500).
Proof.
  split.
  - destruct userId as [uid|]; [|done].
    destruct (decide (uid = EmptyString)) as [->|Hne]; [done|].
    rewrite verify_auth_present by done.
    destruct (startsWith uid "admin_"); [done|].
    destruct (match_objectid uid); [|done].
    destruct findOne as [msg|[user|]]; try done.
    unfold verify_auth. rewrite (truthy_nonempty uid Hne). cbn [negb].
    destruct (startsWith uid "admin_"); [done|]. cbv zeta.
    destruct (match_objectid uid); [|done].
    unfold body_field. cbn [body].
    destruct (is_admin_user user); intros H; vm_compute in H; discriminate H.
  - intros uid msg -> -> Hpre Hhex.
    rewrite verify_auth_present.
    + by rewrite Hpre, Hhex.
    + by apply is_hex24_nonempty, match_objectid_spec.
Qed.

Lemma verify_auth_fallback_unreachable_witness :
  startsWith "5f1a2b3c4d5e6f7a8b9c0d1e" "admin_" = false ∧
  match_objectid "5f1a2b3c4d5e6f7a8b9c0d1e" = true ∧
  status (verify_auth (Some "5f1a2b3c4d5e6f7a8b9c0d1e") (DbThrows "timeout")) = 500.
Proof.
  split; [reflexivity|]. split; [vm_compute; reflexivity|].
  exact (proj2 (verify_auth_fallback_unreachable (Some "5f1a2b3c4d5e6f7a8b9c0d1e")
                  (DbThrows "timeout"))
           "5f1a2b3c4d5e6f7a8b9c0d1e" "timeout" eq_refl eq_refl eq_refl
           ltac:(vm_compute; reflexivity)).
Defined.

(** X3. Who is verified as admin: an identity is answered with user type
    admin exactly when it has the admin prefix, whatever the database
    holds or answers, or when it is a database id whose user record has
    [isAdmin] true. *)
Theorem verify_auth_admin_iff (uid : string) (findOne : db_result (option user_doc)) :
  body_field (verify_auth (Some uid) findOne) "userType" = Some (VString "admin") ↔
  startsWith uid "admin_" = true ∨
  (match_objectid uid = true ∧
   ∃ user, findOne = DbReturns (Some user) ∧ is_admin_user user = true).
Proof.
  destruct (decide (uid = EmptyString)) as [->|Hne].
  { split; [done|]. intros [H|[H _]]; done. }
  rewrite verify_auth_present by done.
  destruct (startsWith uid "admin_") eqn:Hpre.
  { split; [by left | done]. }
  destruct (match_objectid uid) eqn:Hhex.
  2: { split; [done|]. intros [H|[H _]]; done. }
  destruct findOne as [msg|[user|]].
  - split; [done|]. intros [H|[_ (user & H & _)]]; done.
  - unfold verify_auth. rewrite (truthy_nonempty uid Hne), Hpre, Hhex.
    cbn [negb]. cbv zeta. unfold body_field. cbn [body].
    destruct (is_admin_user user) eqn:Hadm.
    + split; [|done]. intros _. right. split; [done|]. by exists user.
    + split; [done|]. intros [H|[_ (user' & [= <-] & H)]]; congruence.
  - split; [done|]. intros [H|[_ (user & H & _)]]; done.
Qed.

(** X4. The socket classifier and the HTTP verification disagree on
    identities with a separator: an identity that contains the separator
    and has no admin prefix is accepted by [validateUserType] with role
    user, and rejected with status 401 by [/api/verify-auth] whatever the
    database answers. *)
Theorem separator_identity_socket_only (uid : string)
    (findOne : db_result (option user_doc)) :
  includes uid "_" = true → startsWith uid "admin_" = false →
  userType (validateUserType (Some uid)) = Some "user" ∧
  status (verify_auth (Some uid) findOne) = 401.
Proof.
  intros Hsep Hpre.
  assert (uid ≠ EmptyString) as Hne by (intros ->; done).
  assert (match_objectid uid = false) as Hhex.
  { apply not_true_is_false. intros H.
    destruct (objectid_shape uid H) as (_ & Hno & _). congruence. }
  split.
  - rewrite validateUserType_present by done. cbv zeta. by rewrite Hpre, Hsep.
  - rewrite verify_auth_present by done. by rewrite Hpre, Hhex.
Qed.

Lemma separator_identity_socket_only_witness :
  includes "user_bob" "_" = true ∧ startsWith "user_bob" "admin_" = false ∧
  status (verify_auth (Some "user_bob") (DbReturns None)) = 401.
Proof.
  split; [reflexivity|]. split; [reflexivity|].
  exact (proj2 (separator_identity_socket_only "user_bob" (DbReturns None)
                  eq_refl eq_refl)).
Defined.

(** ** POST /api/login *)

Lemma validateUserType_admin_prefixed (r : string) :
  validateUserType (Some ("admin_" ++ r)) =
    {| valid := true; isAdmin := Some true; userType := Some "admin";
       message := "Valid admin user" |}.
Proof.
  rewrite validateUserType_present by done. cbv zeta.
  assert (startsWith ("admin_" ++ r) "admin_" = true) as ->
    by (apply startsWith_spec; by exists r).
  reflexivity.
Qed.

Lemma validateUserType_objectid (u : string) :
  match_objectid u = true →
  validateUserType (Some u) =
    {| valid := true; isAdmin := Some false; userType := Some "user";
       message := "Valid regular user" |}.
Proof.
  intros Hu. destruct (objectid_shape u Hu) as (Hpre & Hsep & _).
  rewrite validateUserType_present.
  - cbv zeta. rewrite Hpre, Hsep, Hu. reflexivity.
  - by apply is_hex24_nonempty, match_objectid_spec.
Qed.

(** What a successful login answers. *)
Lemma login_success (email password : option string) (t : N)
    (findOne : db_result (option user_doc)) (compare : db_result bool) :
  status (login email password t findOne compare) = 200 →
  (body_field (login email password t findOne compare) "userId" =
     Some (VString ("admin_" ++ pretty t)) ∧
   body_field (login email password t findOne compare) "userType" =
     Some (VString "admin")) ∨
  (∃ user, findOne = DbReturns (Some user) ∧
     body_field (login email password t findOne compare) "userId" =
       Some (VString (if is_admin_user user then "admin_" ++ u_id user else u_id user)) ∧
     body_field (login email password t findOne compare) "userType" =
       Some (VString (if is_admin_user user then "admin" else "user"))).
Proof.
  unfold login. cbv zeta.
  destruct (bool_decide (email = Some "admin123@gmail.com") &&
            bool_decide (password = Some "admin1234567890")).
  { intros _. left. done. }
  destruct findOne as [msg|[user|]]; try done.
  destruct compare as [msg|[]]; try done.
  destruct (login_name user email) as [name|]; [|done].
  intros _. right. exists user. done.
Qed.

(** X5. Every identity that [/api/login] issues is one the socket
    classifier accepts, with the role the login reports, provided the ids
    of the login collection are database ids of 24 hex digits. *)
Theorem login_issues_classified_identity (email password : option string) (t : N)
    (findOne : db_result (option user_doc)) (compare : db_result bool) :
  (∀ user, findOne = DbReturns (Some user) → match_objectid (u_id user) = true) →
  status (login email password t findOne compare) = 200 →
  ∃ uid role,
    body_field (login email password t findOne compare) "userId" = Some (VString uid) ∧
    body_field (login email password t findOne compare) "userType" = Some (VString role) ∧
    valid (validateUserType (Some uid)) = true ∧
    userType (validateUserType (Some uid)) = Some role.
Proof.
  intros Hids Hok.
  destruct (login_success _ _ _ _ _ Hok) as [[Hid Hrole]|(user & Hdb & Hid & Hrole)].
  - eexists _, _. split; [exact Hid|]. split; [exact Hrole|].
    by rewrite validateUserType_admin_prefixed.
  - eexists _, _. split; [exact Hid|]. split; [exact Hrole|].
    destruct (is_admin_user user).
    + by rewrite validateUserType_admin_prefixed.
    + by rewrite validateUserType_objectid by by apply Hids.
Qed.

Lemma login_issues_classified_identity_witness :
  let user := {| u_id := "5f1a2b3c4d5e6f7a8b9c0d1e"; u_name := Some "Bob";
                 u_email := Some "bob@example.org"; u_isAdmin := Some false |} in
  status (login (Some "bob@example.org") (Some "secret") 1700000000000
            (DbReturns (Some user)) (DbReturns true)) = 200 ∧
  ∃ uid role,
    body_field (login (Some "bob@example.org") (Some "secret") 1700000000000
                  (DbReturns (Some user)) (DbReturns true)) "userId" = Some (VString uid) ∧
    body_field (login (Some "bob@example.org") (Some "secret") 1700000000000
                  (DbReturns (Some user)) (DbReturns true)) "userType" = Some (VString role) ∧
    valid (validateUserType (Some uid)) = true ∧
    userType (validateUserType (Some uid)) = Some role.
Proof.
  cbv zeta.
  assert (status (login (Some "bob@example.org") (Some "secret") 1700000000000
            (DbReturns (Some {| u_id := "5f1a2b3c4d5e6f7a8b9c0d1e"; u_name := Some "Bob";
                                u_email := Some "bob@example.org";
                                u_isAdmin := Some false |}))
            (DbReturns true)) = 200) as Hok by (vm_compute; reflexivity).
  split; [exact Hok|].
  apply login_issues_classified_identity; [|exact Hok].
  intros user [= <-]. vm_compute. reflexivity.
Defined.

(** X6. Login and verification agree: the identity a successful login
    issues is verified by [/api/verify-auth] with status 200 and the same
    user type, when the lookup by id finds the record the login found and
    the ids of the collection are database ids. *)
Theorem login_then_verify_auth (email password : option string) (t : N)
    (findOne : db_result (option user_doc)) (compare : db_result bool)
    (uid role : string) :
  (∀ user, findOne = DbReturns (Some user) → match_objectid (u_id user) = true) →
  status (login email password t findOne compare) = 200 →
  body_field (login email password t findOne compare) "userId" = Some (VString uid) →
  body_field (login email password t findOne compare) "userType" = Some (VString role) →
  answers_role (verify_auth (Some uid) findOne) 200 role.
Proof.
  intros Hids Hok Hid Hrole.
  destruct (login_success _ _ _ _ _ Hok) as [[Hid' Hrole']|(user & -> & Hid' & Hrole')];
    rewrite Hid' in Hid; rewrite Hrole' in Hrole;
    injection Hid as <-; injection Hrole as <-.
  - rewrite verify_auth_present by done.
    assert (startsWith ("admin_" ++ pretty t) "admin_" = true) as ->
      by (apply startsWith_spec; by eexists).
    done.
  - specialize (Hids user eq_refl). destruct (is_admin_user user) eqn:Hadm.
    + rewrite verify_auth_present by done.
      assert (startsWith ("admin_" ++ u_id user) "admin_" = true) as ->
        by (apply startsWith_spec; by eexists).
      done.
    + destruct (objectid_shape _ Hids) as (Hpre & _ & _).
      assert (u_id user ≠ EmptyString) as Hne
        by by apply is_hex24_nonempty, match_objectid_spec.
      unfold verify_auth. rewrite (truthy_nonempty _ Hne), Hpre, Hids.
      cbn [negb]. cbv zeta. rewrite Hadm. done.
Qed.

Lemma login_then_verify_auth_witness :
  let user := {| u_id := "5f1a2b3c4d5e6f7a8b9c0d1e"; u_name := None;
                 u_email := Some "ann@example.org"; u_isAdmin := Some true |} in
  status (login (Some "ann@example.org") (Some "secret") 0
            (DbReturns (Some user)) (DbReturns true)) = 200 ∧
  answers_role (verify_auth (Some "admin_5f1a2b3c4d5e6f7a8b9c0d1e")
                  (DbReturns (Some user))) 200 "admin".
Proof.
  cbv zeta.
  assert (status (login (Some "ann@example.org") (Some "secret") 0
            (DbReturns (Some {| u_id := "5f1a2b3c4d5e6f7a8b9c0d1e"; u_name := None;
                                u_email := Some "ann@example.org";
                                u_isAdmin := Some true |}))
            (DbReturns true)) = 200) as Hok by (vm_compute; reflexivity).
  split; [exact Hok|].
  apply (login_then_verify_auth (Some "ann@example.org") (Some "secret") 0 _
           (DbReturns true)); [|exact Hok| |].
  - intros user [= <-]. vm_compute. reflexivity.
  - vm_compute. reflexivity.
  - vm_compute. reflexivity.
Defined.

(** X7. What a failed login tells about the account.  When
    [bcrypt.compare] answers, a login for an unknown email and a login
    with a wrong password are answered identically (401, "Invalid
    credentials").  When it throws, for instance on a request without a
    password, the login of an existing account is answered "Error
    verifying credentials", which an unknown email never is: the response
    then tells that the account exists.  Among the 401 answers for an
    existing account, the one that equals the answer for an unknown email
    is exactly the one given when the comparison answered false. *)
Theorem login_failure_tells_account (email password : option string) (t : N)
    (user : user_doc) (compare : db_result bool) :
  let unknown := login email password t (DbReturns None) compare in
  let known := login email password t (DbReturns (Some user)) compare in
  status unknown = 200 ∨
  (unknown = {| status := 401; body := [("error", VString "Invalid credentials")] |} ∧
   (compare = DbReturns false → known = unknown) ∧
   (∀ msg, compare = DbThrows msg →
      known = {| status := 401;
                 body := [("error", VString "Error verifying credentials")] |} ∧
      known ≠ unknown) ∧
   (status known = 401 → (known = unknown ↔ compare = DbReturns false))).
Proof.
  unfold login. cbv zeta.
  destruct (bool_decide (email = Some "admin123@gmail.com") &&
            bool_decide (password = Some "admin1234567890")).
  - by left.
  - right. split; [done|]. split; [by intros ->|]. split.
    + intros msg ->. done.
    + destruct compare as [msg|[]].
      * intros _. split; [done | done].
      * destruct (login_name user email); done.
      * done.
Qed.

Lemma login_failure_tells_account_witness :
  let user := {| u_id := "5f1a2b3c4d5e6f7a8b9c0d1e"; u_name := Some "Bob";
                 u_email := Some "bob@example.org"; u_isAdmin := Some false |} in
  login (Some "bob@example.org") None 0 (DbReturns (Some user)) (DbThrows "data and hash") =
    {| status := 401; body := [("error", VString "Error verifying credentials")] |} ∧
  login (Some "bob@example.org") None 0 (DbReturns (Some user)) (DbThrows "data and hash") ≠
  login (Some "bob@example.org") None 0 (DbReturns None) (DbThrows "data and hash").
Proof.
  cbv zeta.
  destruct (login_failure_tells_account (Some "bob@example.org") None 0
              {| u_id := "5f1a2b3c4d5e6f7a8b9c0d1e"; u_name := Some "Bob";
                 u_email := Some "bob@example.org"; u_isAdmin := Some false |}
              (DbThrows "data and hash")) as [Hadmin|(_ & _ & Hthrows & _)].
  - vm_compute in Hadmin. discriminate Hadmin.
  - exact (Hthrows "data and hash" eq_refl).
Defined.

(** ** The one-time codes *)



















Lemma generate_otp_frame (store : JsMap.t otp_entry) (t : N)
    (email name password : option string) (otp : string)
    (existing : db_result bool) (mailed production : bool) :
  fst (generate_otp store t email name password otp existing mailed production) = store ∨
  ∃ e v, email = Some e ∧
         fst (generate_otp store t email name password otp existing mailed production) =
           JsMap.set store e v.
Proof.
  unfold generate_otp. destruct email as [e|]; [|by left].
  destruct (negb (truthy (Some e))); [by left|].
  destruct existing as [msg|[]]; [by left | by left |].
  right. eexists e, _. split; [done|]. by destruct mailed.
Qed.

Lemma signup_with_otp_frame (store : JsMap.t otp_entry) (t : N)
    (name email password : option string) (otp : string) (existing : db_result bool) :
  fst (signup_with_otp store t name email password otp existing) = store ∨
  ∃ e v, email = Some e ∧
         fst (signup_with_otp store t name email password otp existing) =
           JsMap.set store e v.
Proof.
  unfold signup_with_otp. destruct email as [e|]; [|by left].
  destruct (negb (truthy name) || negb (truthy (Some e)) || negb (truthy password));
    [by left|].
  destruct existing as [msg|[]]; [by left | by left |].
  right. by eexists e, _.
Qed.

Lemma verify_otp_frame (store : JsMap.t otp_entry) (t : N)
    (email otp password : option string) (hashed inserted : db_result string) :
  fst (verify_otp store t email otp password hashed inserted) = store ∨
  ∃ e, email = Some e ∧
       fst (verify_otp store t email otp password hashed inserted) = JsMap.delete store e.
Proof.
  unfold verify_otp. destruct email as [e|]; [|by left].
  destruct (negb (truthy (Some e)) || negb (truthy otp)); [by left|].
  destruct (JsMap.get store e) as [otpData|]; [|by left].
  destruct (oe_expires otpData <? t); [right; by exists e|].
  destruct (negb (bool_decide _)); [by left|]. cbv zeta.
  destruct (negb (truthy _)); [by left|].
  destruct hashed; [by left|]. destruct inserted; [by left|].
  right. by exists e.
Qed.

(** X14. The three handlers of the one-time codes touch only the code of
    the email of the request: the code pending for any other email is
    unchanged, and a store with one code per email stays so. *)
Theorem otp_handlers_touch_one_email (store : JsMap.t otp_entry) (t : N)
    (email name password otp : option string) (code : string)
    (existing : db_result bool) (mailed production : bool)
    (hashed inserted : db_result string) (other : string) :
  email ≠ Some other →
  NoDup (JsMap.keys store) →
  let generated :=
    fst (generate_otp store t email name password code existing mailed production) in
  let signed := fst (signup_with_otp store t name email password code existing) in
  let verified := fst (verify_otp store t email otp password hashed inserted) in
  (JsMap.get generated other = JsMap.get store other ∧ NoDup (JsMap.keys generated)) ∧
  (JsMap.get signed other = JsMap.get store other ∧ NoDup (JsMap.keys signed)) ∧
  (JsMap.get verified other = JsMap.get store other ∧ NoDup (JsMap.keys verified)).
Proof.
  intros Hother Hnd generated signed verified.
  split; [|split].
  - destruct (generate_otp_frame store t email name password code existing mailed
                production) as [H|(e & v & -> & H)]; fold generated in H; rewrite H.
    + done.
    + split; [apply jsmap_get_set_ne; congruence | by apply jsmap_NoDup_set].
  - destruct (signup_with_otp_frame store t name email password code existing)
      as [H|(e & v & -> & H)]; fold signed in H; rewrite H.
    + done.
    + split; [apply jsmap_get_set_ne; congruence | by apply jsmap_NoDup_set].
  - destruct (verify_otp_frame store t email otp password hashed inserted)
      as [H|(e & -> & H)]; fold verified in H; rewrite H.
    + done.
    + split; [apply jsmap_get_delete_ne; congruence | by apply jsmap_NoDup_delete].
Qed.

Lemma otp_handlers_touch_one_email_witness :
  let store := [("ann@example.org",
                 {| oe_otp := "111111"; oe_name := None; oe_password := None;
                    oe_expires := 600000 |})] in
  Some "bob@example.org" ≠ Some "ann@example.org" ∧
  NoDup (JsMap.keys store) ∧
  JsMap.get (fst (generate_otp store 5 (Some "bob@example.org") None None "222222"
                    (DbReturns false) true true)) "ann@example.org" =
    JsMap.get store "ann@example.org".
Proof.
  cbv zeta.
  assert (NoDup (JsMap.keys [("ann@example.org",
                 {| oe_otp := "111111"; oe_name := None; oe_password := None;
                    oe_expires := 600000 |})])) as Hnd
    by (apply NoDup_singleton).
  split; [discriminate|]. split; [exact Hnd|].
  exact (proj1 (proj1 (otp_handlers_touch_one_email _ 5 (Some "bob@example.org")
                         None None None "222222" (DbReturns false) true true
                         (DbReturns "h") (DbReturns "i") "ann@example.org"
                         ltac:(discriminate) Hnd))).
Defined.

(** ** Report statistics *)

Lemma filter_complement_length {A : Type} (p q : A → bool) (l : list A) :
  (∀ x, q x = negb (p x)) →
  (List.length (List.filter p l) + List.length (List.filter q l) = List.length l)%nat.
Proof.
  intros Hq. induction l as [|x l IH]; [done|]. cbn [List.filter].
  rewrite Hq. destruct (p x); cbn [negb List.length]; lia.
Qed.

(** X15. The report statistics partition the entries: every entry is
    counted either as pending or as reviewed, never both, so
    [total = pending + reviewed]. *)
Theorem report_stats_partition (allEntries : list report) :
  let '(total, pending, reviewed) := report_stats allEntries in
  total = N.of_nat (List.length allEntries) ∧ total = pending + reviewed.
Proof.
  unfold report_stats. cbv zeta. split; [done|].
  rewrite <- Nat2N.inj_add. f_equal. symmetry.
  apply filter_complement_length.
  intros entry. destruct (r_reviewed entry), (bool_decide _); done.
Qed.

Lemma increment_keys (m : JsMap.t N) (k : string) :
  JsMap.keys (increment m k) = JsMap.keys m.
Proof.
  unfold increment. destruct (JsMap.get m k) as [n|] eqn:Hget; [|done].
  unfold JsMap.keys. revert Hget. generalize (n + 1).
  induction m as [|[k0 v0] m IH]; intros v; cbn [JsMap.get JsMap.set]; [done|].
  destruct (String.eqb k0 k); [done|].
  intros Hget. cbn [fmap list_fmap fst]. f_equal. by apply IH.
Qed.

Lemma sum_values_cons (k : string) (v : N) (rows : list (string * N)) :
  sum_values ((k, v) :: rows) = v + sum_values rows.
Proof. reflexivity. Qed.

Lemma increment_sum (m : JsMap.t N) (k : string) :
  k ∈ JsMap.keys m → sum_values (increment m k) = sum_values m + 1.
Proof.
  unfold increment, JsMap.keys.
  induction m as [|[k0 v0] m IH]; cbn [JsMap.get JsMap.set fmap list_fmap fst].
  - intros H. by apply elem_of_nil in H.
  - destruct (String.eqb_spec k0 k) as [->|Hne].
    + intros _. rewrite !sum_values_cons. lia.
    + intros [?|Hin]%elem_of_cons; [congruence|].
      specialize (IH Hin). destruct (JsMap.get m k) as [n|] eqn:Hget.
      * rewrite !sum_values_cons, IH. lia.
      * apply jsmap_get_None_keys in Hget. done.
Qed.

Lemma increment_get (m : JsMap.t N) (k k' : string) :
  JsMap.get (increment m k) k' =
    if decide (k = k') then (λ n, n + 1) <$> JsMap.get m k' else JsMap.get m k'.
Proof.
  unfold increment. destruct (decide (k = k')) as [<-|Hne].
  - destruct (JsMap.get m k) as [n|] eqn:Hget; [|by rewrite Hget].
    by rewrite jsmap_get_set_eq.
  - destruct (JsMap.get m k); [|done]. by apply jsmap_get_set_ne.
Qed.

Lemma damage_category_key (type : string) :
  damage_category type ∈ JsMap.keys damage_counts_initial.
Proof.
  unfold damage_category.
  repeat (match goal with |- context [String.eqb ?a ?b] => destruct (String.eqb a b) end;
          [vm_compute; repeat (first [by left | right])|]).
  vm_compute. repeat (first [by left | right]).
Qed.

Lemma count_damage_spec (m : JsMap.t N) (entry : report) :
  JsMap.keys m = JsMap.keys damage_counts_initial →
  JsMap.keys (count_damage m entry) = JsMap.keys damage_counts_initial ∧
  sum_values (count_damage m entry) = sum_values m + damage_units entry.
Proof.
  intros Hkeys.
  assert ("Other" ∈ JsMap.keys m) as Hother.
  { rewrite Hkeys. vm_compute. repeat (first [by left | right]). }
  assert (∀ t, damage_category t ∈ JsMap.keys m) as Hcat.
  { intros t. rewrite Hkeys. apply damage_category_key. }
  unfold count_damage, damage_units.
  destruct (r_damageType entry) as [|s|[|type types]].
  - by rewrite increment_keys, increment_sum.
  - destruct (negb (truthy (Some s))); by rewrite increment_keys, increment_sum.
  - by rewrite increment_keys, increment_sum.
  - generalize (type :: types). clear type types. intros types.
    revert m Hkeys Hother Hcat.
    induction types as [|t types IH]; intros m Hkeys Hother Hcat; cbn [foldl].
    + split; [done|]. cbn. lia.
    + destruct (IH (increment m (damage_category t))) as [IH1 IH2].
      * by rewrite increment_keys.
      * by rewrite increment_keys.
      * intros t'. by rewrite increment_keys.
      * split; [done|]. rewrite IH2, increment_sum by done.
        cbn [List.length]. lia.
Qed.

Lemma sum_values_positive (rows : list (string * N)) :
  sum_values (List.filter (λ kv, 0 <? snd kv) rows) = sum_values rows.
Proof.
  induction rows as [|[k v] rows IH]; [done|]. cbn [List.filter snd].
  destruct (N.ltb_spec 0 v); rewrite !sum_values_cons, ?IH; lia.
Qed.

Lemma filter_keys_sublist {V : Type} (p : string * V → bool) (m : list (string * V)) :
  (List.filter p m).*1 `sublist_of` m.*1.
Proof.
  induction m as [|kv m IH]; [done|]. cbn [List.filter].
  destruct (p kv); cbn [fmap list_fmap]; by constructor.
Qed.

(** X16. The damage chart accounts for every entry: the values of its
    rows add up to one unit per entry, or one per listed type for an entry
    with a non-empty array of types; a row is present only with a positive
    value, and the rows come in the order of the eight categories. *)
Theorem damage_distribution_total (allEntries : list report) :
  sum_values (damage_distribution allEntries) =
    foldr (λ entry acc, damage_units entry + acc) 0 allEntries ∧
  Forall (λ kv, 0 < snd kv) (damage_distribution allEntries) ∧
  (damage_distribution allEntries).*1 `sublist_of`
    ["Potholes"; "Alligator Cracks"; "Lateral Cracks"; "Longitudinal Cracks";
     "Edge Cracks"; "Rutting"; "Raveling"; "Other"].
Proof.
  unfold damage_distribution. cbv zeta.
  assert (∀ l m, JsMap.keys m = JsMap.keys damage_counts_initial →
            JsMap.keys (foldl count_damage m l) = JsMap.keys damage_counts_initial ∧
            sum_values (foldl count_damage m l) =
              sum_values m + foldr (λ entry acc, damage_units entry + acc) 0 l) as Hfold.
  { induction l as [|entry l IH]; intros m Hkeys; cbn [foldl foldr].
    - split; [done | lia].
    - destruct (count_damage_spec m entry Hkeys) as [Hk Hs].
      destruct (IH _ Hk) as [IH1 IH2]. split; [done|]. rewrite IH2, Hs. lia. }
  destruct (Hfold allEntries damage_counts_initial eq_refl) as [Hk Hs].
  split; [|split].
  - unfold JsMap.entries. by rewrite sum_values_positive, Hs.
  - apply Forall_forall. intros kv Hin%list_elem_of_In%filter_In.
    destruct Hin as [_ Hpos]. by apply N.ltb_lt.
  - unfold JsMap.entries, JsMap.keys in *.
    change ["Potholes"; "Alligator Cracks"; "Lateral Cracks"; "Longitudinal Cracks";
            "Edge Cracks"; "Rutting"; "Raveling"; "Other"]
      with (damage_counts_initial.*1).
    rewrite <- Hk. apply filter_keys_sublist.
Qed.

Lemma count_severity_spec (m : JsMap.t N) (entry : report) (k : string) :
  JsMap.keys m = JsMap.keys severity_counts_initial →
  k ∈ ["high"; "moderate"; "low"; "severe"] →
  JsMap.keys (count_severity m entry) = JsMap.keys severity_counts_initial ∧
  JsMap.get (count_severity m entry) k =
    if bool_decide (r_severity entry = Some k)
    then (λ n, n + 1) <$> JsMap.get m k else JsMap.get m k.
Proof.
  intros Hkeys Hk. unfold count_severity. cbv zeta.
  set (severity := or_else (r_severity entry) "unknown").
  split.
  { destruct (JsMap.get m severity); by rewrite increment_keys. }
  assert (severity = k ↔ r_severity entry = Some k) as Hsev.
  { unfold severity, or_else. destruct (r_severity entry) as [s|].
    - cbn [truthy]. destruct (String.eqb_spec s EmptyString) as [->|]; cbn [negb].
      + split; [intros <-|intros [= <-]];
          repeat (apply elem_of_cons in Hk as [Hk|Hk]; [done|]);
          by apply elem_of_nil in Hk.
      + split; congruence.
    - split; [intros <-|done].
      repeat (apply elem_of_cons in Hk as [Hk|Hk]; [done|]);
        by apply elem_of_nil in Hk. }
  destruct (JsMap.get m severity) eqn:Hget.
  - rewrite increment_get. destruct (decide (severity = k)) as [He|Hne].
    + by rewrite bool_decide_eq_true_2 by by apply Hsev.
    + rewrite bool_decide_eq_false_2; [done|]. by rewrite <- Hsev.
  - rewrite increment_get.
    assert (severity ≠ k) as Hne.
    { intros ->. apply jsmap_get_None_keys in Hget. apply Hget. rewrite Hkeys.
      repeat (apply elem_of_cons in Hk as [->|Hk];
              [vm_compute; repeat (first [by left | right])|]).
      by apply elem_of_nil in Hk. }
    rewrite bool_decide_eq_false_2 by by rewrite <- Hsev.
    destruct (decide ("unknown" = k)) as [<-|]; [|done].
    repeat (apply elem_of_cons in Hk as [Hk|Hk]; [done|]).
    by apply elem_of_nil in Hk.
Qed.

Lemma severity_tally (allEntries : list report) (m : JsMap.t N) (k : string) :
  JsMap.keys m = JsMap.keys severity_counts_initial →
  k ∈ ["high"; "moderate"; "low"; "severe"] →
  JsMap.get (foldl count_severity m allEntries) k =
    (λ n, n + severity_count allEntries k) <$> JsMap.get m k.
Proof.
  intros Hkeys Hk. revert m Hkeys.
  induction allEntries as [|entry l IH]; intros m Hkeys; cbn [foldl].
  - unfold severity_count. cbn. destruct (JsMap.get m k); cbn; [f_equal; lia | done].
  - destruct (count_severity_spec m entry k Hkeys Hk) as [Hk' Hget].
    rewrite (IH _ Hk'), Hget. unfold severity_count. cbn [List.filter].
    destruct (bool_decide (r_severity entry = Some k));
      destruct (JsMap.get m k); cbn; try done; f_equal; lia.
Qed.

(** X17. The severity chart counts entries by their exact severity:
    "High" is the number of entries with severity high or severe,
    "Moderate" and "Low" the numbers of those levels; an entry with any
    other severity (absent, empty, unknown or unrecognised) is in no
    row. *)
Theorem severity_breakdown_counts (allEntries : list report) :
  severity_breakdown allEntries =
    [("High", severity_count allEntries "high" + severity_count allEntries "severe",
      "#ef4444");
     ("Moderate", severity_count allEntries "moderate", "#f59e0b");
     ("Low", severity_count allEntries "low", "#10b981")].
Proof.
  unfold severity_breakdown. cbv zeta.
  rewrite !(severity_tally allEntries severity_counts_initial) by
    (first [done | vm_compute; repeat (first [by left | right])]).
  cbn. by rewrite !N.add_0_l.
Qed.

(** X18. The report label and the chart category recognise the same
    damage types: for a non-empty type string, [getReportType] answers
    "Other" exactly when the damage chart files the type under "Other";
    an array with one type is labelled like that type alone, and the notes
    play no part once a type is given. *)
Theorem report_type_matches_category (notes notes' : option string) (type : string) :
  type ≠ EmptyString →
  (getReportType notes (DamageString type) = "Other" ↔ damage_category type = "Other") ∧
  getReportType notes (DamageArray [type]) = getReportType notes (DamageString type) ∧
  getReportType notes (DamageString type) = getReportType notes' (DamageString type).
Proof.
  intros Hne. unfold getReportType, report_type_of_string, damage_category.
  rewrite (truthy_nonempty type Hne).
  repeat (match goal with |- context [String.eqb ?a ?b] => destruct (String.eqb a b) end;
          [done|]).
  done.
Qed.

Lemma report_type_matches_category_witness :
  "pothole" ≠ EmptyString ∧
  getReportType (Some "large crack") (DamageArray ["pothole"]) =
    getReportType None (DamageString "pothole").
Proof.
  split; [discriminate|].
  pose proof (report_type_matches_category (Some "large crack") None "pothole"
                ltac:(discriminate)) as (_ & H1 & H2).
  exact (eq_trans H1 H2).
Defined.

(** X19. The severity level stored by [/save-canvas] is always one of the
    five levels the schema allows, whatever the request sends; "medium"
    is stored as "moderate", and a level that is allowed is stored as it
    is. *)
Theorem validSeverityLevel_allowed (severityLevel : option string) :
  validSeverityLevel severityLevel ∈ severity_levels ∧
  validSeverityLevel (Some "medium") = "moderate" ∧
  (∀ level, severityLevel = Some level → level ∈ severity_levels →
     validSeverityLevel severityLevel = level) ∧
  validSeverityLevel (Some (validSeverityLevel severityLevel)) =
    validSeverityLevel severityLevel.
Proof.
  assert (∀ level, level ∈ severity_levels → validSeverityLevel (Some level) = level)
    as Hfix.
  { intros level Hin. unfold severity_levels in Hin.
    repeat (apply elem_of_cons in Hin as [->|Hin]; [vm_compute; reflexivity|]).
    by apply elem_of_nil in Hin. }
  assert (validSeverityLevel severityLevel ∈ severity_levels) as Hin.
  { unfold validSeverityLevel. cbv zeta.
    destruct (bool_decide _) eqn:E.
    - by apply bool_decide_eq_true in E.
    - unfold severity_levels. do 4 right. left. }
  split; [exact Hin|]. split; [reflexivity|]. split.
  - intros level -> Hl. by apply Hfix.
  - by apply Hfix.
Qed.

Lemma validSeverityLevel_allowed_witness :
  "severe" ∈ severity_levels ∧ validSeverityLevel (Some "severe") = "severe".
Proof.
  assert ("severe" ∈ severity_levels) as H by (unfold severity_levels; do 3 right; left).
  split; [exact H|].
  exact (proj1 (proj2 (proj2 (validSeverityLevel_allowed (Some "severe"))))
           "severe" eq_refl H).
Defined.

(** ** More on the sessions *)










(** X21. Authenticating again under another identity leaves the first
    entry behind: when a connection authenticates as [i1], then as [i2],
    and disconnects, the registry no longer has [i2] but still maps [i1]
    to the closed connection. *)
Theorem reauthentication_leaves_stale_entry (tr : list event) (sid i1 i2 : string) :
  is_connected (run initial tr) sid = true →
  valid (validateUserType (Some i1)) = true →
  valid (validateUserType (Some i2)) = true →
  i1 ≠ i2 →
  let w := run (run initial tr)
             [Authenticate sid (Some i1); Authenticate sid (Some i2); Disconnect sid] in
  lookup_user w i1 = Some sid ∧
  lookup_user w i2 = None ∧
  is_connected w sid = false.
Proof.
  intros Hc Hv1 Hv2 Hne w.
  apply is_connected_true in Hc as (s & Hs & Hc).
  destruct (valid_is_Some _ Hv2) as (? & [= <-] & Hne2).
  set (s1 := {| sock_userId := Some i1;
                sock_isAdmin := isAdmin (validateUserType (Some i1));
                sock_userType := userType (validateUserType (Some i1));
                authTimeout := None; connected := true |}).
  set (s2 := {| sock_userId := Some i2;
                sock_isAdmin := isAdmin (validateUserType (Some i2));
                sock_userType := userType (validateUserType (Some i2));
                authTimeout := None; connected := true |}).
  set (w1 := step (run initial tr) (Authenticate sid (Some i1))).
  set (w2 := step w1 (Authenticate sid (Some i2))).
  assert (w = step w2 (Disconnect sid)) as -> by reflexivity.
  assert (sockets w1 !! sid = Some s1) as Hs1.
  { unfold w1. rewrite (step_authenticate_valid _ sid s i1) by done.
    cbn [sockets]. apply lookup_insert_eq. }
  assert (sockets w2 !! sid = Some s2 ∧
          userSockets w2 = JsMap.set (userSockets w1) i2 sid) as [Hs2 Hreg2].
  { unfold w2. rewrite (step_authenticate_valid w1 sid s1 i2) by done.
    cbn [sockets userSockets]. split; [apply lookup_insert_eq | done]. }
  assert (userSockets w1 = JsMap.set (userSockets (run initial tr)) i1 sid) as Hreg1.
  { unfold w1. by rewrite (step_authenticate_valid _ sid s i1) by done. }
  destruct (disconnect_deletes_identity w2 sid s2 i2 Hs2 eq_refl eq_refl Hne2)
    as [Hgone Hkept].
  split; [|split].
  - rewrite Hkept by done. unfold lookup_user. rewrite Hreg2, Hreg1.
    rewrite jsmap_get_set_ne by done. apply jsmap_get_set_eq.
  - exact Hgone.
  - cbn [step]. rewrite (close_socket_open w2 sid s2) by done.
    unfold is_connected. cbn [sockets]. by rewrite lookup_insert_eq.
Qed.

Lemma reauthentication_leaves_stale_entry_witness :
  let w := run (run initial [Connection "s1"])
             [Authenticate "s1" (Some "user_a"); Authenticate "s1" (Some "user_b");
              Disconnect "s1"] in
  is_connected (run initial [Connection "s1"]) "s1" = true ∧
  "user_a" ≠ "user_b" ∧
  lookup_user w "user_a" = Some "s1" ∧ is_connected w "s1" = false.
Proof.
  cbv zeta.
  assert (is_connected (run initial [Connection "s1"]) "s1" = true) as Hc
    by (vm_compute; reflexivity).
  pose proof (reauthentication_leaves_stale_entry [Connection "s1"] "s1"
                "user_a" "user_b" Hc ltac:(vm_compute; reflexivity)
                ltac:(vm_compute; reflexivity) ltac:(discriminate)) as (H1 & _ & H3).
  split; [exact Hc|]. split; [discriminate|]. split; [exact H1 | exact H3].
Defined.

(** X22. The connection handlers answer the sender only.  A new
    connection, a disconnect and the passing of time, the deadline
    included, send nothing.  On an open connection, an [authenticate] with
    an identity the classifier accepts is answered "auth_success" with the
    identity and its role, one it rejects is answered "auth_error" with the
    classifier's message, and a ping is answered "pong" with the instant,
    the data received and a fixed message.  A payload of [authenticate]
    that is truthy and not a string ends the process when the connection
    is open.  In all, while the process runs an input adds at most one
    message to the outbox, and that message is addressed to the open
    connection that sent the input. *)
Theorem acknowledgments_go_to_sender (w : World) :
  (∀ sid, outbox (step w (Connection sid)) = outbox w) ∧
  (∀ sid, outbox (step w (Disconnect sid)) = outbox w) ∧
  (∀ dt, outbox (step w (Tick dt)) = outbox w) ∧
  (∀ sid u, is_connected w sid = true →
     valid (validateUserType (Some u)) = true →
     ∃ role,
       userType (validateUserType (Some u)) = Some role ∧
       outbox (step w (Authenticate sid (Some u))) =
         (outbox w ++
          [ToSocket sid "auth_success"
             [("userId", VString u);
              ("userType", VString role);
              ("message", VString ("Authentication successful as " ++ role))]])%list) ∧
  (∀ sid x, is_connected w sid = true →
     valid (validateUserType x) = false →
     outbox (step w (Authenticate sid x)) =
       (outbox w ++
        [ToSocket sid "auth_error"
           [("message",
             VString (if truthy x then "Invalid userId format"
                      else "No userId provided"))]])%list) ∧
  (∀ sid data, is_connected w sid = true →
     serve w (Ping sid data) =
       Some (emit w (ToSocket sid "pong"
                       [("time", VAtom (ATime (now w)));
                        ("received", data);
                        ("message", VString "Server received your ping!")]))) ∧
  (∀ sid, serve w (AuthenticateValue sid) =
          if is_connected w sid then None else Some w) ∧
  (∀ i w', serve w i = Some w' →
     outbox w' = outbox w ∨
     ∃ sid ev data,
       sender i = Some sid ∧ is_connected w sid = true ∧
       outbox w' = (outbox w ++ [ToSocket sid ev data])%list).
Proof.
  assert (∀ sid, outbox (step w (Connection sid)) = outbox w) as Hconn.
  { intros x. cbn [step]. unfold on_connection. by destruct (sockets w !! x). }
  assert (∀ sid, outbox (step w (Disconnect sid)) = outbox w) as Hdisc.
  { intros x. cbn [step]. destruct (is_connected w x) eqn:Hc.
    - apply is_connected_true in Hc as (s & Hs & Hc).
      by rewrite (close_socket_open w x s).
    - by rewrite close_socket_closed. }
  assert (∀ dt, outbox (step w (Tick dt)) = outbox w) as Htick.
  { intros dt. cbn [step]. apply tick_spec. }
  split; [exact Hconn|]. split; [exact Hdisc|]. split; [exact Htick|].
  split; [|split; [|split; [|split]]].
  - intros sid u (s & Hs & Hc)%is_connected_true Hv.
    destruct (valid_is_Some _ Hv) as (? & [= <-] & Hne).
    assert (∃ role, userType (validateUserType (Some u)) = Some role) as [role Hr].
    { rewrite validateUserType_present by done. cbv zeta.
      rewrite validateUserType_present in Hv by done. cbv zeta in Hv.
      destruct (negb (startsWith u "admin_") && _); [done|]. by eexists. }
    exists role. split; [done|].
    rewrite (step_authenticate_valid w sid s u) by done. cbn [outbox].
    unfold auth_success. by rewrite Hr.
  - intros sid x (s & Hs & Hc)%is_connected_true Hv. cbn [step].
    rewrite (on_socket_connected w sid s) by done.
    rewrite on_authenticate_invalid by done. cbn [outbox]. unfold auth_error.
    do 4 f_equal. destruct x as [u|]; [|done]. unfold validateUserType in *.
    destruct (truthy (Some u)); cbn [negb] in *; [|done].
    cbv zeta in *.
    by destruct (negb (startsWith u "admin_") &&
                 negb (includes u "_" || match_objectid u)).
  - intros sid data (s & Hs & Hc)%is_connected_true. cbn [serve].
    by rewrite (on_socket_connected w sid s).
  - intros sid. cbn [serve]. unfold is_connected.
    destruct (sockets w !! sid) as [s|]; [|done]. by destruct (connected s).
  - intros i w'. destruct i as [e|x data|x]; cbn [serve].
    + intros [= <-]. destruct e as [x|x v|x|x|dt].
      * left. apply Hconn.
      * cbn [step]. destruct (is_connected w x) eqn:Hc.
        2: { left. by rewrite on_socket_closed. }
        pose proof Hc as (s & Hs & Hcs)%is_connected_true.
        rewrite (on_socket_connected w x s) by done.
        right. exists x. destruct (valid (validateUserType v)) eqn:Hv.
        -- destruct (valid_is_Some v Hv) as (u & -> & _).
           rewrite on_authenticate_valid by done. by eexists _, _.
        -- rewrite on_authenticate_invalid by done. by eexists _, _.
      * cbn [step]. destruct (is_connected w x) eqn:Hc.
        2: { left. by rewrite on_socket_closed. }
        pose proof Hc as (s & Hs & Hcs)%is_connected_true.
        rewrite (on_socket_connected w x s) by done.
        destruct (truthy (sock_userId s)) eqn:T.
        -- destruct (sock_userId s) as [u|] eqn:Hu; [|done].
           rewrite (on_reconnect_identified w x s u); [|done|by intros ->].
           right. exists x. by eexists _, _.
        -- left. by rewrite on_reconnect_anonymous.
      * left. apply Hdisc.
      * left. apply Htick.
    + intros [= <-]. destruct (is_connected w x) eqn:Hc.
      * pose proof Hc as (s & Hs & Hcs)%is_connected_true.
        rewrite (on_socket_connected w x s) by done.
        right. exists x. by eexists _, _.
      * left. by rewrite on_socket_closed.
    + destruct (sockets w !! x) as [s|]; [|by intros [= <-]; left].
      destruct (connected s); [done | by intros [= <-]; left].
Qed.

Lemma acknowledgments_go_to_sender_witness :
  let w := run initial [Connection "s1"; Connection "s2"] in
  is_connected w "s2" = true ∧
  serve w (Ping "s2" (VString "hello")) =
    Some (emit w (ToSocket "s2" "pong"
                    [("time", VAtom (ATime 0));
                     ("received", VString "hello");
                     ("message", VString "Server received your ping!")])).
Proof.
  cbv zeta.
  assert (is_connected (run initial [Connection "s1"; Connection "s2"]) "s2" = true)
    as Hc by (vm_compute; reflexivity).
  split; [exact Hc|].
  exact (proj1 (proj2 (proj2 (proj2 (proj2 (proj2
           (acknowledgments_go_to_sender _)))))) "s2" (VString "hello") Hc).
Defined.

(** X23. Every handle the registry holds is the id of a connection the
    server knows and that authenticated with an identity the classifier
    accepts; the connection need not be open any more. *)
Theorem registry_values_authenticated (tr : list event) (u h : string) :
  (u, h) ∈ JsMap.entries (userSockets (run initial tr)) →
  ∃ s i, sockets (run initial tr) !! h = Some s ∧
         sock_userId s = Some i ∧
         valid (validateUserType (Some i)) = true.
Proof.
  intros Hin. pose proof (registry_inv_reachable tr) as Hinv.
  destruct (inv_values_known _ Hinv u h Hin) as (s & Hs & [i Hi]).
  exists s, i. split; [done|]. split; [done|].
  by destruct (inv_socket_identity _ Hinv h s i Hs Hi).
Qed.

Lemma registry_values_authenticated_witness :
  let tr := [Connection "s1"; Authenticate "s1" (Some "user_a");
             Authenticate "s1" (Some "user_b"); Disconnect "s1"] in
  ("user_a", "s1") ∈ JsMap.entries (userSockets (run initial tr)) ∧
  ∃ s i, sockets (run initial tr) !! "s1" = Some s ∧
         sock_userId s = Some i ∧
         valid (validateUserType (Some i)) = true.
Proof.
  cbv zeta.
  assert (("user_a", "s1") ∈ JsMap.entries (userSockets (run initial
            [Connection "s1"; Authenticate "s1" (Some "user_a");
             Authenticate "s1" (Some "user_b"); Disconnect "s1"]))) as Hin
    by (vm_compute; left).
  split; [exact Hin|].
  exact (registry_values_authenticated _ "user_a" "s1" Hin).
Defined.

(** ** What the handlers send, and in which order *)

(** X24. What [/predict] sends on a request it answers with 200: the two
    administrator events for each registered administrator, only when the
    classifier said "road" (in any letter case), and after them at most
    one "prediction-complete" event, to the connection registered for the
    submitter; nothing else. *)
Theorem predict_emissions (w : World) (req : predict_request) (env : predict_env) :
  status <$> snd (predict w req env) = Some 200 →
  ∃ userPart,
    outbox (fst (predict w req env)) =
      (outbox w ++
       (if String.eqb (toLowerCase (p_result env)) "road"
        then flat_map (λ kv, predict_admin_msgs req env (fst kv) (snd kv)) (admin_entries w)
        else []) ++
       userPart)%list ∧
    (userPart = [] ∨
     ∃ sid data, get_socket_id w (p_userId req) = Some sid ∧
                 userPart = [ToSocket sid "prediction-complete" data]).
Proof.
  assert (∀ ev data,
            user_delivery w (p_userId req) ev data = [] ∨
            ∃ sid data', get_socket_id w (p_userId req) = Some sid ∧
                         user_delivery w (p_userId req) ev data = [ToSocket sid ev data'])
    as Huser.
  { intros ev data. unfold user_delivery.
    destruct (get_socket_id w (p_userId req)) as [sid|]; [|by left].
    destruct (truthy (Some sid)); [|by left]. right. by eexists _, _. }
  unfold predict. destruct (p_file req); [|done].
  destruct (negb (p_tempSaved env)); [done|].
  destruct (negb (p_exitCode env =? 0)%Z); [done|].
  destruct (String.eqb (toLowerCase (p_result env)) "road").
  - destruct (negb (p_imageSaved env)); [done|].
    destruct (negb (truthy (p_userId req))); [done|].
    destruct (negb (p_entrySaved env)); [done|].
    intros _. cbv zeta. unfold predict_finish. cbv zeta. cbn [fst].
    rewrite send_to_user_outbox, (user_delivery_ext w) by
      apply userSockets_emit_to_admins.
    rewrite emit_to_admins_spec. cbn [outbox now]. rewrite <- app_assoc.
    eexists. split; [reflexivity|]. apply Huser.
  - intros _. unfold predict_finish. cbv zeta. cbn [fst].
    rewrite send_to_user_outbox. cbn [app].
    eexists. split; [reflexivity|]. apply Huser.
Qed.

Lemma predict_emissions_witness :
  let w := run initial [Connection "s1"; Authenticate "s1" (Some "admin_42");
                        Connection "s2"; Authenticate "s2" (Some "user_bob")] in
  let req := {| p_file := Some "road.jpg"; p_latitude := None; p_longitude := None;
                p_address := None; p_userId := Some "user_bob" |} in
  let env := {| p_tempSaved := true; p_exitCode := 0; p_result := "Not";
                p_confidence := "0.9"; p_imageSaved := true;
                p_savedImagePath := "uploads/road.jpg"; p_entrySaved := true;
                p_entryTimestamp := 5 |} in
  status <$> snd (predict w req env) = Some 200 ∧
  ∃ userPart,
    outbox (fst (predict w req env)) = (outbox w ++ [] ++ userPart)%list ∧
    (userPart = [] ∨
     ∃ sid data, get_socket_id w (p_userId req) = Some sid ∧
                 userPart = [ToSocket sid "prediction-complete" data]).
Proof.
  cbv zeta.
  assert (status <$> snd (predict
            (run initial [Connection "s1"; Authenticate "s1" (Some "admin_42");
                          Connection "s2"; Authenticate "s2" (Some "user_bob")])
            {| p_file := Some "road.jpg"; p_latitude := None; p_longitude := None;
               p_address := None; p_userId := Some "user_bob" |}
            {| p_tempSaved := true; p_exitCode := 0; p_result := "Not";
               p_confidence := "0.9"; p_imageSaved := true;
               p_savedImagePath := "uploads/road.jpg"; p_entrySaved := true;
               p_entryTimestamp := 5 |}) = Some 200) as Hok
    by (vm_compute; reflexivity).
  split; [exact Hok|].
  exact (predict_emissions _ _ _ Hok).
Defined.

(** X25. What [/api/review-image-v2] sends on a request it answers with
    200: first, when the submitter is registered, the direct event and its
    backup broadcast; then, for each registered administrator in registry
    order, a direct event and a broadcast.  The broadcasts go to every
    connected socket, so with one administrator registered the review
    reaches all clients. *)
Theorem review_image_emissions (w : World) (req : review_request) (env : review_env) :
  status (snd (review_image w req env)) = 200 →
  ∃ updatedEntry,
    rv_refetched env = DbReturns (Some updatedEntry) ∧
    outbox (fst (review_image w req env)) =
      (outbox w ++
       match get_socket_id w (re_userId updatedEntry) with
       | Some sid =>
           if truthy (Some sid) then review_user_msgs req updatedEntry sid else []
       | None => []
       end ++
       flat_map (λ kv, review_admin_msgs req updatedEntry (fst kv) (snd kv))
         (admin_entries w))%list ∧
    (admin_entries w ≠ [] →
     ∃ data, ToAll "admin-notification-broadcast" data ∈
               outbox (fst (review_image w req env))).
Proof.
  unfold review_image. cbv zeta.
  destruct (negb (truthy (rv_imageId req)) || negb (truthy (rv_reviewStatus req)));
    [done|].
  destruct (negb (truthy (rv_reviewerId req))); [done|].
  destruct (rv_found env) as [msg|[imageEntry|]]; [done| |done].
  destruct (rv_updated env) as [msg|modifiedCount]; [done|].
  destruct (modifiedCount =? 0); [done|].
  destruct (rv_refetched env) as [msg|[updatedEntry|]]; [done| |done].
  intros _. exists updatedEntry. split; [done|]. cbn [fst].
  rewrite emit_to_admins_spec. cbn [outbox].
  set (w1 := match get_socket_id w (re_userId updatedEntry) with
             | Some sid => _
             | None => w
             end).
  assert (userSockets w1 = userSockets w ∧
          outbox w1 = (outbox w ++
            match get_socket_id w (re_userId updatedEntry) with
            | Some sid =>
                if truthy (Some sid) then review_user_msgs req updatedEntry sid else []
            | None => []
            end)%list) as [Hreg Hout].
  { unfold w1. destruct (get_socket_id w (re_userId updatedEntry)) as [sid|].
    - destruct (truthy (Some sid)).
      + rewrite foldl_emit. done.
      + by rewrite app_nil_r.
    - by rewrite app_nil_r. }
  rewrite (admin_entries_ext w w1 Hreg), Hout, <- app_assoc. split; [done|].
  intros Hadmins. destruct (admin_entries w) as [|[uid sid] rest]; [done|].
  cbn [flat_map review_admin_msgs fst snd]. eexists.
  rewrite !elem_of_app. right. right. left. right. left.
Qed.

Lemma review_image_emissions_witness :
  let w := run initial [Connection "s1"; Authenticate "s1" (Some "admin_42")] in
  let entry := {| re_id := "65a1"; re_imagePath := None; re_latitude := None;
                  re_longitude := None; re_address := None; re_timestamp := Some 3;
                  re_reviewed := Some true; re_reviewStatus := Some "approved";
                  re_reviewNotes := None; re_severity := Some "high";
                  re_damageType := DamageArray ["pothole"];
                  re_recommendedAction := None; re_reviewDate := Some 7;
                  re_userId := Some "user_bob"; re_reviewerId := Some "admin_42";
                  re_version := 0 |} in
  let req := {| rv_imageId := Some "65a1"; rv_reviewStatus := Some "approved";
                rv_reviewerId := Some "admin_42" |} in
  let env := {| rv_found := DbReturns (Some entry); rv_updated := DbReturns 1;
                rv_refetched := DbReturns (Some entry) |} in
  status (snd (review_image w req env)) = 200 ∧
  admin_entries w ≠ [] ∧
  ∃ data, ToAll "admin-notification-broadcast" data ∈ outbox (fst (review_image w req env)).
Proof.
  cbv zeta.
  set (w := run initial [Connection "s1"; Authenticate "s1" (Some "admin_42")]).
  set (entry := {| re_id := "65a1"; re_imagePath := None; re_latitude := None;
                   re_longitude := None; re_address := None; re_timestamp := Some 3;
                   re_reviewed := Some true; re_reviewStatus := Some "approved";
                   re_reviewNotes := None; re_severity := Some "high";
                   re_damageType := DamageArray ["pothole"];
                   re_recommendedAction := None; re_reviewDate := Some 7;
                   re_userId := Some "user_bob"; re_reviewerId := Some "admin_42";
                   re_version := 0 |}).
  set (req := {| rv_imageId := Some "65a1"; rv_reviewStatus := Some "approved";
                 rv_reviewerId := Some "admin_42" |}).
  set (env := {| rv_found := DbReturns (Some entry); rv_updated := DbReturns 1;
                 rv_refetched := DbReturns (Some entry) |}).
  assert (status (snd (review_image w req env)) = 200) as Hok
    by (vm_compute; reflexivity).
  assert (admin_entries w ≠ []) as Hadm by (vm_compute; discriminate).
  split; [exact Hok|]. split; [exact Hadm|].
  destruct (review_image_emissions w req env Hok) as (updated & _ & _ & H).
  exact (H Hadm).
Defined.

(** ** GET /api/user/:id *)

Lemma split_on_no_separator (sep : ascii) (s : string) :
  includes s (String sep EmptyString) = false → split_on sep s = [s].
Proof.
  induction s as [|c s IH]; [done|].
  rewrite includes_cons. intros [Hhead Htail]%orb_false_iff.
  cbn [split_on]. rewrite (IH Htail).
  cbn [String.prefix] in Hhead.
  destruct (Ascii.eqb_spec c sep) as [->|Hne]; [|done].
  destruct (ascii_dec sep sep); [|done]. by destruct s.
Qed.

Lemma split_on_separator (sep : ascii) (s : string) :
  includes s (String sep EmptyString) = true →
  ∃ first second rest, split_on sep s = first :: second :: rest.
Proof.
  induction s as [|c s IH]; [done|].
  rewrite includes_cons. cbn [split_on].
  destruct (Ascii.eqb_spec c sep) as [->|Hne].
  - intros _. destruct s as [|c' s']; [by eexists _, _, _|].
    destruct (split_on sep (String c' s')) as [|p ps] eqn:E.
    + cbn [split_on] in E. destruct (Ascii.eqb c' sep); [done|].
      by destruct (split_on sep s').
    + by eexists _, _, _.
  - intros [Hhead|Htail]%orb_true_iff.
    + cbn [String.prefix] in Hhead. destruct (ascii_dec sep c); [congruence|done].
    + destruct (IH Htail) as (p1 & p2 & ps & ->). by eexists _, _, _.
Qed.

(** X26. The display name agrees with the classifier: an identity the
    classifier gives the admin role is named "Administrator" and an
    identity the classifier rejects is named "Unknown User", both with
    status 200 and whatever the database answers; an identity accepted
    for its separator has a second piece, and when that piece is ASCII
    text the name is the piece with its first letter in upper case and
    the others in lower case. *)
Theorem user_info_follows_classifier (userId : string)
    (findOne : db_result (option user_doc)) :
  userId ≠ EmptyString →
  (isAdmin (validateUserType (Some userId)) = Some true →
   user_info userId findOne =
     {| status := 200; body := [("name", VString "Administrator")] |}) ∧
  (valid (validateUserType (Some userId)) = false →
   user_info userId findOne =
     {| status := 200; body := [("name", VString "Unknown User")] |}) ∧
  (userType (validateUserType (Some userId)) = Some "user" →
   includes userId "_" = true →
   ∃ first second rest,
     split_on "_" userId = first :: second :: rest ∧
     (is_ascii second →
      user_info userId findOne =
        {| status := 200; body := [("name", VString (title_case second))] |})).
Proof.
  intros Hne. rewrite validateUserType_present by done. cbv zeta.
  unfold user_info. cbv zeta.
  destruct (startsWith userId "admin_") eqn:Hpre.
  - assert (match_objectid userId = false) as ->.
    { apply not_true_is_false. intros H.
      destruct (objectid_shape userId H) as (Hno & _). congruence. }
    cbn [negb andb]. repeat split; try done.
  - cbn [negb andb]. destruct (includes userId "_") eqn:Hsep.
    + assert (match_objectid userId = false) as ->.
      { apply not_true_is_false. intros H.
        destruct (objectid_shape userId H) as (_ & Hno & _). congruence. }
      cbn [orb negb]. split; [done|]. split; [done|]. intros _ _.
      destruct (split_on_separator "_" userId Hsep) as (p1 & p2 & ps & Hsplit).
      exists p1, p2, ps. by rewrite Hsplit.
    + cbn [orb]. destruct (match_objectid userId); cbn [negb].
      * split; [done|]. split; [done|]. done.
      * split; [done|]. split; [|done]. intros _.
        by rewrite (split_on_no_separator "_" userId Hsep).
Qed.

Lemma user_info_follows_classifier_witness :
  "user_bOB" ≠ EmptyString ∧
  userType (validateUserType (Some "user_bOB")) = Some "user" ∧
  includes "user_bOB" "_" = true ∧
  is_ascii "bOB" ∧
  user_info "user_bOB" (DbThrows "down") =
    {| status := 200; body := [("name", VString "Bob")] |}.
Proof.
  assert (is_ascii "bOB") as Hascii.
  { unfold is_ascii. repeat constructor. }
  split; [discriminate|]. split; [reflexivity|]. split; [reflexivity|].
  split; [exact Hascii|].
  destruct (proj2 (proj2 (user_info_follows_classifier "user_bOB" (DbThrows "down")
                            ltac:(discriminate))) eq_refl eq_refl)
    as (p1 & p2 & ps & Hsplit & Hname).
  injection Hsplit as <- <- <-. exact (Hname Hascii).
Defined.
